(** * Training and evaluation drivers of the two gym examples

    A shallow embedding of the [Train] function and of [main] of the
    lunar-lander DQN example and of the mountain-car DDPG example.

    - The gym client and the mlpack agent are external collaborators: they
      appear as abstract state with abstract operations ([GymApi],
      [AgentApi]), and every call the drivers make to them is recorded in a
      trace, newest event first.
    - [size_t] values are natural numbers with the wrap-around at 2^64
      written out; [double] values are binary64 floats, added and divided
      in the order the source does.
    - The loops take fuel: [None] means the loop has not returned within
      the fuel given, and more fuel never changes a result.
    - The two [Train] functions are one driver with four parameters, the
      places where the sources differ; [Lander] and [MountainCar] fix them
      and give each program its [main]. *)

From Stdlib Require Import NArith ZArith List Bool Lia.
From Stdlib Require String Vector.
From Stdlib Require Import Floats.PrimFloat Floats.SpecFloat Floats.FloatOps.
Import ListNotations String.StringSyntax.
Local Open Scope string_scope.
Local Open Scope N_scope.
Set Warnings "-inexact-float".

Local Abbreviation string := String.string.

(** ** Machine types *)

(** [size_t]: a 64-bit unsigned integer; arithmetic wraps around. *)
Definition size_t := N.
Definition SIZE_MAX : N := 2 ^ 64 - 1.
Definition size_wrap (n : N) : size_t := n mod 2 ^ 64.
(** [x++] and [x += 1] on a [size_t]. *)
Definition size_incr (n : size_t) : size_t := size_wrap (n + 1).

(** [double]: IEEE 754 binary64. *)
Definition double := float.
(** Conversion of a [size_t] to [double] (round to nearest, ties to even). *)
Definition size_to_double (n : size_t) : double :=
  SF2Prim (binary_normalize prec emax (Z.of_N n) 0 false).

(** [arma::mat]: the numbers it holds. *)
Definition mat := list double.

(** [std::accumulate(first, last, init)] over doubles. *)
Definition accumulate (l : list double) (init : double) : double :=
  fold_left PrimFloat.add l init.

(** ** Data exchanged with the collaborators *)

(** [EnvironmentType::State]. *)
Record EnvState := { Data : mat }.

(** The arguments of one [replayMethod.Store] call. *)
Record Transition (Act : Type) := {
  tr_state : EnvState;
  tr_action : Act;
  tr_reward : double;
  tr_nextState : EnvState;
  tr_isEnd : bool;
  tr_discount : double
}.
Arguments tr_state {Act} _.
Arguments tr_action {Act} _.
Arguments tr_reward {Act} _.
Arguments tr_nextState {Act} _.
Arguments tr_isEnd {Act} _.
Arguments tr_discount {Act} _.

(** [TrainingConfig]: the fields the programs set or read. *)
Record TrainingConfig := {
  ExplorationSteps : size_t;
  UpdateInterval : size_t;
  TargetNetworkSyncInterval : size_t;
  DoubleQLearning : bool
}.

(** The two [gym::Environment] objects of [main]. *)
Inductive handle := env | envTest.

Definition handle_eqb (a b : handle) : bool :=
  match a, b with
  | env, env | envTest, envTest => true
  | _, _ => false
  end.

(** One [std::cout << ... << std::endl] line: the values streamed, string
    literals with their escape sequences as the source writes them. *)
Inductive piece :=
| Str (s : string)
| Size (n : size_t)
| Dbl (d : double).
Definition line := list piece.

(** Calls to the collaborators and to the console. *)
Inductive event (Act : Type) :=
| EvConnect (h : handle) (host port name : string)
| EvMonitorStart (h : handle)
| EvReset (h : handle)
| EvRender (h : handle)
| EvClose (h : handle)
| EvSelect (deterministic : bool) (a : Act)
    (* agent.SelectAction(): the flag it ran under, the action it chose *)
| EvStep (h : handle) (action : mat) (reward : double) (done : bool)
    (* env.step(action): what was sent, what the client holds afterwards *)
| EvStore (t : Transition Act)
| EvUpdate
    (* agent.TrainAgent() or agent.Update() *)
| EvPrint (l : line).
Arguments EvConnect {Act} _ _ _ _.
Arguments EvMonitorStart {Act} _.
Arguments EvReset {Act} _.
Arguments EvRender {Act} _.
Arguments EvClose {Act} _.
Arguments EvSelect {Act} _ _.
Arguments EvStep {Act} _ _ _ _.
Arguments EvStore {Act} _.
Arguments EvUpdate {Act}.
Arguments EvPrint {Act} _.

(** ** The collaborators *)

(** The gym client together with the remote simulator.  [G] holds both
    [gym::Environment] objects and whatever the server keeps. *)
Class GymApi (G : Type) := {
  gym_connect : handle -> string -> string -> string -> G -> G;
  gym_monitor_start : handle -> string -> bool -> bool -> G -> G;
  gym_reset : handle -> G -> G;
  gym_step : handle -> mat -> G -> G;
  gym_render : handle -> G -> G;
  gym_close : handle -> G -> G;
  observation : handle -> G -> mat;
  reward : handle -> G -> double;
  done : handle -> G -> bool;
  url : handle -> G -> string
}.

(** The state of [main]: the agent's public fields, the agent's private
    state [L] (networks, policy, noise and the replay buffer the agent shares
    with [replayMethod]), the variables [Train] gets by reference, and the
    trace. *)
Record Agent (Act L : Type) := {
  State : EnvState;
  Action : Act;
  TotalSteps : size_t;
  Deterministic : bool;
  internals : L
}.
Arguments State {Act L} _.
Arguments Action {Act L} _.
Arguments TotalSteps {Act L} _.
Arguments Deterministic {Act L} _.
Arguments internals {Act L} _.

(** The mlpack operations the drivers call.  They read the agent and write
    nothing but the chosen action and the private state. *)
Class AgentApi (Act L : Type) := {
  SelectAction_impl : Agent Act L -> Act * L;
  Store_impl : Transition Act -> L -> L;
  Update_impl : TrainingConfig -> Agent Act L -> L
}.

Record world (Act G L : Type) := {
  gym : G;
  agent : Agent Act L;
  returnList : list double;
  episodes : size_t;
  trace : list (event Act)
}.
Arguments gym {Act G L} _.
Arguments agent {Act G L} _.
Arguments returnList {Act G L} _.
Arguments episodes {Act G L} _.
Arguments trace {Act G L} _.

Section Driver.
Context {Act G L : Type} {GA : GymApi G} {AA : AgentApi Act L}.

Local Abbreviation world := (world Act G L).
Local Abbreviation Agent := (Agent Act L).

(** *** Field updates *)

Definition set_gym (g : G) (w : world) : world :=
  {| gym := g; agent := agent w; returnList := returnList w;
     episodes := episodes w; trace := trace w |}.

Definition set_agent (a : Agent) (w : world) : world :=
  {| gym := gym w; agent := a; returnList := returnList w;
     episodes := episodes w; trace := trace w |}.

Definition set_returnList (l : list double) (w : world) : world :=
  {| gym := gym w; agent := agent w; returnList := l;
     episodes := episodes w; trace := trace w |}.

Definition set_episodes (n : size_t) (w : world) : world :=
  {| gym := gym w; agent := agent w; returnList := returnList w;
     episodes := n; trace := trace w |}.

Definition log (e : event Act) (w : world) : world :=
  {| gym := gym w; agent := agent w; returnList := returnList w;
     episodes := episodes w; trace := e :: trace w |}.

(** [agent.State().Data() = m] *)
Definition set_State_Data (m : mat) (w : world) : world :=
  let a := agent w in
  set_agent {| State := {| Data := m |}; Action := Action a;
               TotalSteps := TotalSteps a; Deterministic := Deterministic a;
               internals := internals a |} w.

(** [agent.Deterministic() = b] *)
Definition set_Deterministic (b : bool) (w : world) : world :=
  let a := agent w in
  set_agent {| State := State a; Action := Action a;
               TotalSteps := TotalSteps a; Deterministic := b;
               internals := internals a |} w.

(** [agent.TotalSteps()++] *)
Definition incr_TotalSteps (w : world) : world :=
  let a := agent w in
  set_agent {| State := State a; Action := Action a;
               TotalSteps := size_incr (TotalSteps a);
               Deterministic := Deterministic a;
               internals := internals a |} w.

Definition set_internals (l : L) (w : world) : world :=
  let a := agent w in
  set_agent {| State := State a; Action := Action a;
               TotalSteps := TotalSteps a; Deterministic := Deterministic a;
               internals := l |} w.

(** *** Calls *)

Definition connect (h : handle) (host port name : string) (w : world) : world :=
  log (EvConnect h host port name)
      (set_gym (gym_connect h host port name (gym w)) w).

Definition monitor_start (h : handle) (dir : string) (force resume : bool)
    (w : world) : world :=
  log (EvMonitorStart h)
      (set_gym (gym_monitor_start h dir force resume (gym w)) w).

Definition reset (h : handle) (w : world) : world :=
  log (EvReset h) (set_gym (gym_reset h (gym w)) w).

Definition render (h : handle) (w : world) : world :=
  log (EvRender h) (set_gym (gym_render h (gym w)) w).

Definition close (h : handle) (w : world) : world :=
  log (EvClose h) (set_gym (gym_close h (gym w)) w).

Definition step (h : handle) (action : mat) (w : world) : world :=
  let g := gym_step h action (gym w) in
  log (EvStep h action (reward h g) (done h g)) (set_gym g w).

Definition SelectAction (w : world) : world :=
  let a := agent w in
  let '(x, l) := SelectAction_impl a in
  log (EvSelect (Deterministic a) x)
      (set_agent {| State := State a; Action := x;
                    TotalSteps := TotalSteps a;
                    Deterministic := Deterministic a;
                    internals := l |} w).

Definition Store (t : Transition Act) (w : world) : world :=
  log (EvStore t) (set_internals (Store_impl t (internals (agent w))) w).

(** [agent.TrainAgent()] of the DQN agent, [agent.Update()] of the DDPG
    agent. *)
Definition Update (config : TrainingConfig) (w : world) : world :=
  log EvUpdate (set_internals (Update_impl config (agent w)) w).

Definition print (l : line) (w : world) : world := log (EvPrint l) w.

(** *** [Train]

    The two programs' [Train] differ in four places, which are the
    parameters here: how the chosen action is packed into the matrix sent
    to the environment, how many updates follow a step that learns, every
    how many episodes a progress line is printed, and what the line holds. *)
Variable pack : Act -> mat.
Variable updates : TrainingConfig -> size_t.
Variable period : size_t.
Variable progress_line :
  forall (size : size_t) (averageReturn : double) (episodes : size_t)
         (episodeReturn : double) (steps : size_t), line.

(** The body of the [do ... while (!env.done)] loop. *)
Definition train_step (h : handle) (config : TrainingConfig)
    (w : world) (episodeReturn : double) : world * double :=
  let w := set_State_Data (observation h (gym w)) w in
  let w := SelectAction w in
  let action := pack (Action (agent w)) in
  let w := step h action w in
  let nextState := {| Data := observation h (gym w) |} in
  let w := Store {| tr_state := State (agent w);
                    tr_action := Action (agent w);
                    tr_reward := reward h (gym w);
                    tr_nextState := nextState;
                    tr_isEnd := done h (gym w);
                    tr_discount := 0.99%float |} w in
  let episodeReturn := (episodeReturn + reward h (gym w))%float in
  let w := incr_TotalSteps w in
  if Deterministic (agent w)
     || (TotalSteps (agent w) <? ExplorationSteps config)
  then (w, episodeReturn)                      (* continue *)
  else (N.iter (updates config) (Update config) w, episodeReturn).

Fixpoint episode_loop (fuel : nat) (h : handle) (config : TrainingConfig)
    (w : world) (episodeReturn : double) : option (world * double) :=
  match fuel with
  | O => None
  | S fuel' =>
      let '(w', episodeReturn') := train_step h config w episodeReturn in
      if done h (gym w') then Some (w', episodeReturn')
      else episode_loop fuel' h config w' episodeReturn'
  end.

(** What follows the inner loop: the return is pushed, the window trimmed,
    the average computed and, every [period] episodes, printed. *)
Definition record_return (consecutiveEpisodes : size_t)
    (episodeReturn : double) (w : world) : world :=
  let w := set_returnList (returnList w ++ [episodeReturn]) w in
  let w := set_episodes (size_incr (episodes w)) w in
  let w :=
    if consecutiveEpisodes <? N.of_nat (length (returnList w))
    then set_returnList (tl (returnList w)) w
    else w in
  let averageReturn :=
    (accumulate (returnList w) 0
     / size_to_double (N.of_nat (length (returnList w))))%float in
  if episodes w mod period =? 0
  then print (progress_line (N.of_nat (length (returnList w))) averageReturn
                (episodes w) episodeReturn (TotalSteps (agent w))) w
  else w.

(** One pass through the body of [while (agent.TotalSteps() < numSteps)]. *)
Definition run_episode (fuel : nat) (h : handle) (config : TrainingConfig)
    (consecutiveEpisodes : size_t) (w : world) : option world :=
  let episodeReturn := 0%float in
  let w := reset h w in
  match episode_loop fuel h config w episodeReturn with
  | None => None
  | Some (w, episodeReturn) =>
      Some (record_return consecutiveEpisodes episodeReturn w)
  end.

Fixpoint train_loop (fuel : nat) (h : handle) (config : TrainingConfig)
    (consecutiveEpisodes numSteps : size_t) (w : world) : option world :=
  match fuel with
  | O => None
  | S fuel' =>
      if TotalSteps (agent w) <? numSteps
      then match run_episode fuel' h config consecutiveEpisodes w with
           | None => None
           | Some w' =>
               train_loop fuel' h config consecutiveEpisodes numSteps w'
           end
      else Some w
  end.

Definition Train (fuel : nat) (h : handle) (config : TrainingConfig)
    (consecutiveEpisodes numSteps : size_t) (w : world) : option world :=
  let w := set_Deterministic false w in
  let w := print [Str "Training for "; Size numSteps; Str " steps."] w in
  train_loop fuel h config consecutiveEpisodes numSteps w.

(** *** The testing loop of [main]: [while (true) { ... if (done) break; }] *)
Fixpoint test_loop (fuel : nat) (w : world) (totalReward : double)
    (totalSteps : size_t) : option (world * double * size_t) :=
  match fuel with
  | O => None
  | S fuel' =>
      let w := set_State_Data (observation envTest (gym w)) w in
      let w := SelectAction w in
      let action := pack (Action (agent w)) in
      let w := step envTest action w in
      let totalReward := (totalReward + reward envTest (gym w))%float in
      let totalSteps := size_incr totalSteps in
      if done envTest (gym w)
      then Some (print [Str " Total steps: "; Size totalSteps;
                        Str "\t Total reward: "; Dbl totalReward] w,
                 totalReward, totalSteps)
      else test_loop fuel' w totalReward totalSteps
  end.

End Driver.

Section RunVocabulary.
Context {Act G L : Type} {GA : GymApi G} {AA : AgentApi Act L}.
Variable pack : Act -> mat.
Variable updates : TrainingConfig -> size_t.
Variable period : size_t.
Variable progress_line : size_t -> double -> size_t -> double -> size_t -> line.
Local Abbreviation world := (world Act G L).

(** [episodes_to ... numSteps w w']: [w'] is reached from [w] by completed
    episodes, each begun while the step counter was below [numSteps]. *)
Inductive episodes_to (h : handle) (config : TrainingConfig)
    (consecutiveEpisodes numSteps : size_t) : world -> world -> Prop :=
| episodes_none (w : world) :
    episodes_to h config consecutiveEpisodes numSteps w w
| episodes_more (w w1 w2 : world) (fuel : nat) :
    TotalSteps (agent w) < numSteps ->
    run_episode pack updates period progress_line fuel h config
      consecutiveEpisodes w = Some w1 ->
    episodes_to h config consecutiveEpisodes numSteps w1 w2 ->
    episodes_to h config consecutiveEpisodes numSteps w w2.

(** The world in which [Train]'s loop starts. *)
Definition Train_entry (numSteps : size_t) (w : world) : world :=
  print [Str "Training for "; Size numSteps; Str " steps."]
        (set_Deterministic false w).
End RunVocabulary.

(** ** What can be read off a trace *)

Section Observations.
Context {Act : Type}.

(** Rewards of the [step] calls on [h], newest first. *)
Fixpoint rewards (h : handle) (evs : list (event Act)) : list double :=
  match evs with
  | [] => []
  | EvStep h' _ r _ :: evs' =>
      if handle_eqb h h' then r :: rewards h evs' else rewards h evs'
  | _ :: evs' => rewards h evs'
  end.

(** Done flags of the [step] calls on [h], newest first. *)
Fixpoint dones (h : handle) (evs : list (event Act)) : list bool :=
  match evs with
  | [] => []
  | EvStep h' _ _ d :: evs' =>
      if handle_eqb h h' then d :: dones h evs' else dones h evs'
  | _ :: evs' => dones h evs'
  end.

(** Number of [step] calls on [h]. *)
Definition n_steps (h : handle) (evs : list (event Act)) : N :=
  N.of_nat (length (rewards h evs)).

(** Transitions passed to [Store], newest first. *)
Fixpoint stores (evs : list (event Act)) : list (Transition Act) :=
  match evs with
  | [] => []
  | EvStore t :: evs' => t :: stores evs'
  | _ :: evs' => stores evs'
  end.

(** Number of learning updates. *)
Fixpoint n_updates (evs : list (event Act)) : N :=
  match evs with
  | [] => 0
  | EvUpdate :: evs' => N.succ (n_updates evs')
  | _ :: evs' => n_updates evs'
  end.

(** Number of [reset] calls on [h]. *)
Fixpoint n_resets (h : handle) (evs : list (event Act)) : N :=
  match evs with
  | [] => 0
  | EvReset h' :: evs' =>
      if handle_eqb h h' then N.succ (n_resets h evs') else n_resets h evs'
  | _ :: evs' => n_resets h evs'
  end.

(** The flags under which [SelectAction] ran. *)
Fixpoint select_flags (evs : list (event Act)) : list bool :=
  match evs with
  | [] => []
  | EvSelect b _ :: evs' => b :: select_flags evs'
  | _ :: evs' => select_flags evs'
  end.

(** The lines printed, newest first. *)
Fixpoint printed (evs : list (event Act)) : list line :=
  match evs with
  | [] => []
  | EvPrint l :: evs' => l :: printed evs'
  | _ :: evs' => printed evs'
  end.
End Observations.

(** The sum of the rewards of a stretch of trace, added up in the order
    received, from 0. *)
Definition reward_sum {Act : Type} (h : handle) (evs : list (event Act)) : double :=
  accumulate (rev (rewards h evs)) 0%float.

(** Arithmetic mean as the specification words it: sum divided by count. *)
Definition arithmetic_mean (l : list double) : double :=
  (accumulate l 0 / size_to_double (N.of_nat (length l)))%float.

(** The last [n] entries of a list. *)
Definition keep_last {A : Type} (n : N) (l : list A) : list A :=
  skipn (length l - N.to_nat n) l.

(** ** Network shapes and environment types declared by the programs *)

Inductive layer :=
| Linear (outSize : size_t)
| ReLU
| TanH.

(** Number of values a feed-forward network produces: the size of its last
    linear layer. *)
Fixpoint output_size (layers : list layer) : option size_t :=
  match layers with
  | [] => None
  | Linear n :: rest =>
      match output_size rest with Some m => Some m | None => Some n end
  | _ :: rest => output_size rest
  end.

(** The template arguments of [DiscreteActionEnv<,>] and
    [ContinuousActionEnv<,>]. *)
Inductive action_kind := discrete | continuous.
Record EnvironmentType := {
  kind : action_kind;
  dimension : size_t;   (* State::dimension *)
  size : size_t         (* Action::size *)
}.
Definition DiscreteActionEnv (StateDimension ActionSize : size_t) :=
  {| kind := discrete; dimension := StateDimension; size := ActionSize |}.
Definition ContinuousActionEnv (StateDimension ActionSize : size_t) :=
  {| kind := continuous; dimension := StateDimension; size := ActionSize |}.

(** The world [main] starts from: mlpack's agent constructors start the step
    counter at 0 and the deterministic flag at false; [returnList] is empty
    and [episodes] is 0. *)
Definition start {Act G L : Type} (g : G) (l : L) (a : Act) : world Act G L :=
  {| gym := g;
     agent := {| State := {| Data := [] |}; Action := a; TotalSteps := 0;
                 Deterministic := false; internals := l |};
     returnList := [];
     episodes := 0;
     trace := [] |}.

(** ** The lunar-lander program (DQN) *)

Module Lander.
Definition stateDimension : size_t := 8.
Definition actionSize : size_t := 4.

Definition Environment : EnvironmentType :=
  DiscreteActionEnv stateDimension actionSize.

(** [DiscreteActionEnv<stateDimension, actionSize>::Action] *)
Record EnvAction := { action : size_t }.

Definition network : list layer := [Linear 128; ReLU; Linear actionSize].

(** [arma::mat action = {double(agent.Action().action)};] *)
Definition pack (a : EnvAction) : mat := [size_to_double (action a)].

(** [agent.TrainAgent();] once. *)
Definition updates (config : TrainingConfig) : size_t := 1.

(** [if (episodes % 5 == 0)] *)
Definition period : size_t := 5.

Definition progress_line (size : size_t) (averageReturn : double)
    (episodes : size_t) (episodeReturn : double) (steps : size_t) : line :=
  [Str "Avg return in last "; Size size; Str " episodes: ";
   Dbl averageReturn; Str "\t"; Size episodes;
   Str "the episode return: "; Dbl episodeReturn;
   Str "\t Steps: "; Size steps].

Section Program.
Context {G L : Type} {GA : GymApi G} {AA : AgentApi EnvAction L}.
Local Abbreviation world := (world EnvAction G L).

Definition train_step := train_step (G:=G) (L:=L) pack updates.
Definition episode_loop := episode_loop (G:=G) (L:=L) pack updates.
Definition record_return :=
  record_return (Act:=EnvAction) (G:=G) (L:=L) period progress_line.
Definition run_episode :=
  run_episode (G:=G) (L:=L) pack updates period progress_line.
Definition Train := Train (G:=G) (L:=L) pack updates period progress_line.
Definition episodes_to :=
  episodes_to (G:=G) (L:=L) pack updates period progress_line.
Definition test_loop := test_loop (G:=G) (L:=L) pack.

(** [config.ExplorationSteps() = 100; config.DoubleQLearning() = false;]
    on a default-constructed [TrainingConfig]. *)
Definition config (default : TrainingConfig) : TrainingConfig :=
  {| ExplorationSteps := 100;
     UpdateInterval := UpdateInterval default;
     TargetNetworkSyncInterval := TargetNetworkSyncInterval default;
     DoubleQLearning := false |}.

Definition consecutiveEpisodes : size_t := 50.

(** "Testing the trained agent." *)
Definition testing1 (fuel : nat) (w : world) : option world :=
  let w := set_Deterministic true w in
  let w := connect envTest "localhost" "4040" "LunarLander-v2" w in
  let w := monitor_start envTest "./dummy/" true true w in
  let w := reset envTest w in
  let w := render envTest w in
  let totalReward := 0%float in
  let totalSteps := 0 in
  match test_loop fuel w totalReward totalSteps with
  | None => None
  | Some (w, _, _) => Some (print [Str (url envTest (gym w))] w)
  end.

(** "Final agent testing!" *)
Definition testing2 (fuel : nat) (w : world) : option world :=
  let w := set_Deterministic true w in
  let w := monitor_start envTest "./dummy/" true true w in
  let w := reset envTest w in
  let totalReward := 0%float in
  let totalSteps := 0 in
  match test_loop fuel w totalReward totalSteps with
  | None => None
  | Some (w, _, _) =>
      let w := close envTest w in
      Some (print [Str (url envTest (gym w))] w)
  end.

Definition main (fuel : nat) (default : TrainingConfig) (w : world)
    : option world :=
  let config := config default in
  let w := connect env "localhost" "4040" "LunarLander-v2" w in
  match Train fuel env config consecutiveEpisodes 10000 w with
  | None => None
  | Some w =>
      match testing1 fuel w with
      | None => None
      | Some w =>
          (* "A little more training..." *)
          match Train fuel env config consecutiveEpisodes 100000 w with
          | None => None
          | Some w => testing2 fuel w
          end
      end
  end.
End Program.
End Lander.

(** ** The mountain-car program (DDPG) *)

Module MountainCar.
Definition Environment : EnvironmentType := ContinuousActionEnv 2 1.

(** [ContinuousActionEnv<2, 1>::Action]: a vector of [Action::size = 1]
    doubles. *)
Record EnvAction := { action : Vector.t double 1 }.

Definition policyNetwork : list layer :=
  [Linear 128; ReLU; Linear 128; ReLU; Linear (size Environment); TanH].
Definition qNetwork : list layer :=
  [Linear 128; ReLU; Linear 128; ReLU; Linear 1].

(** [arma::mat action = {double(agent.Action().action[0] * 2)};] *)
Definition pack (a : EnvAction) : mat := [(Vector.hd (action a) * 2)%float].

(** [for (size_t i = 0; i < config.UpdateInterval(); i++) agent.Update();] *)
Definition updates (config : TrainingConfig) : size_t := UpdateInterval config.

(** [if (episodes % 4 == 0)] *)
Definition period : size_t := 4.

Definition progress_line (size : size_t) (averageReturn : double)
    (episodes : size_t) (episodeReturn : double) (steps : size_t) : line :=
  [Str "Avg return in last "; Size size; Str " episodes: ";
   Dbl averageReturn; Str "\t Episode return: "; Dbl episodeReturn;
   Str "\t Total steps: "; Size steps].

Section Program.
Context {G L : Type} {GA : GymApi G} {AA : AgentApi EnvAction L}.
Local Abbreviation world := (world EnvAction G L).

Definition train_step := train_step (G:=G) (L:=L) pack updates.
Definition episode_loop := episode_loop (G:=G) (L:=L) pack updates.
Definition record_return :=
  record_return (Act:=EnvAction) (G:=G) (L:=L) period progress_line.
Definition run_episode :=
  run_episode (G:=G) (L:=L) pack updates period progress_line.
Definition Train := Train (G:=G) (L:=L) pack updates period progress_line.
Definition episodes_to :=
  episodes_to (G:=G) (L:=L) pack updates period progress_line.
Definition test_loop := test_loop (G:=G) (L:=L) pack.

(** [config.ExplorationSteps() = 3200;
     config.TargetNetworkSyncInterval() = 1;
     config.UpdateInterval() = 1;] *)
Definition config (default : TrainingConfig) : TrainingConfig :=
  {| ExplorationSteps := 3200;
     UpdateInterval := 1;
     TargetNetworkSyncInterval := 1;
     DoubleQLearning := DoubleQLearning default |}.

Definition consecutiveEpisodes : size_t := 25.

(** "Testing the trained agent." *)
Definition testing (fuel : nat) (w : world) : option world :=
  let w := set_Deterministic true w in
  let w := connect envTest "localhost" "4040" "MountainCarContinuous-v0" w in
  let w := reset envTest w in
  let w := render envTest w in
  let totalReward := 0%float in
  let totalSteps := 0 in
  match test_loop fuel w totalReward totalSteps with
  | None => None
  | Some (w, _, _) =>
      let w := close envTest w in
      Some (print [Str (url envTest (gym w))] w)
  end.

Definition main (fuel : nat) (default : TrainingConfig) (w : world)
    : option world :=
  let config := config default in
  let w := connect env "localhost" "4040" "MountainCarContinuous-v0" w in
  match Train fuel env config consecutiveEpisodes 10000 w with
  | None => None
  | Some w => testing fuel w
  end.
End Program.
End MountainCar.

(** ** Vocabulary of the statements *)

Section StepVocabulary.
Context {Act G L : Type} {GA : GymApi G} {AA : AgentApi Act L}.
Variable pack : Act -> mat.
Local Abbreviation world := (world Act G L).

(** The world once the agent was handed the observation the client [h]
    holds and has selected its action. *)
Definition selecting (h : handle) (w : world) : world :=
  SelectAction (set_State_Data (observation h (gym w)) w).

(** The action the agent selects in [w]. *)
Definition selected (h : handle) (w : world) : Act :=
  Action (agent (selecting h w)).

(** The simulator once the selected action, packed, was sent. *)
Definition stepped (h : handle) (w : world) : G :=
  gym_step h (pack (selected h w)) (gym w).

(** The tuple the specification says a training step stores: current
    state, selected action, reward, next state, done flag, discount. *)
Definition expected_transition (h : handle) (w : world) : Transition Act :=
  {| tr_state := {| Data := observation h (gym w) |};
     tr_action := selected h w;
     tr_reward := reward h (stepped h w);
     tr_nextState := {| Data := observation h (stepped h w) |};
     tr_isEnd := done h (stepped h w);
     tr_discount := 0.99%float |}.

(** The calls of one training step other than updates, newest first. *)
Definition step_events (h : handle) (w : world) : list (event Act) :=
  [EvStore (expected_transition h w);
   EvStep h (pack (selected h w)) (reward h (stepped h w))
          (done h (stepped h w));
   EvSelect (Deterministic (agent w)) (selected h w)].

(** The calls of one pass of the testing loop, newest first. *)
Definition test_events (w : world) : list (event Act) :=
  [EvStep envTest (pack (selected envTest w)) (reward envTest (stepped envTest w))
          (done envTest (stepped envTest w));
   EvSelect (Deterministic (agent w)) (selected envTest w)].

(** Whether the step taken in [w] is followed by updates: the flag is
    off and the counter, already incremented for this step, has reached
    the exploration threshold. *)
Definition learns (config : TrainingConfig) (w : world) : bool :=
  negb (Deterministic (agent w)
        || (size_incr (TotalSteps (agent w)) <? ExplorationSteps config)).

(** One pass of the testing loop, up to the test of the done flag. *)
Definition test_pass (w : world) : world :=
  step envTest (pack (selected envTest w)) (selecting envTest w).

(** The line the testing loop prints when it stops. *)
Definition total_line (totalSteps : size_t) (totalReward : double) : line :=
  [Str " Total steps: "; Size totalSteps;
   Str "\t Total reward: "; Dbl totalReward].
End StepVocabulary.


(** ** Small collaborators on which the drivers can be run *)

Module Toy.
(** Steps since the last reset, for [env] and for [envTest]. *)
Definition sim := (N * N)%type.

Definition get (h : handle) (g : sim) : N :=
  match h with env => fst g | envTest => snd g end.
Definition put (h : handle) (n : N) (g : sim) : sim :=
  match h with env => (n, snd g) | envTest => (fst g, n) end.

(** Episodes last [len] steps; the reward of a step is its number. *)
Definition api (len : N) : GymApi sim :=
  {| gym_connect := fun _ _ _ _ g => g;
     gym_monitor_start := fun _ _ _ _ g => g;
     gym_reset := fun h g => put h 0 g;
     gym_step := fun h _ g => put h (get h g + 1) g;
     gym_render := fun _ g => g;
     gym_close := fun _ g => g;
     observation := fun h g => [size_to_double (get h g)];
     reward := fun h g => size_to_double (get h g);
     done := fun h g => len <=? get h g;
     url := fun _ _ => "toy" |}.

(** An agent that always selects [a]; its private state counts the
    transitions stored. *)
Definition agent_api {Act : Type} (a : Act) : AgentApi Act N :=
  {| SelectAction_impl := fun ag => (a, internals ag);
     Store_impl := fun _ l => l + 1;
     Update_impl := fun _ ag => internals ag |}.

Definition default_config : TrainingConfig :=
  {| ExplorationSteps := 0; UpdateInterval := 1;
     TargetNetworkSyncInterval := 1; DoubleQLearning := false |}.

Definition lander_action : Lander.EnvAction := {| Lander.action := 2 |}.
Definition car_action (x : double) : MountainCar.EnvAction :=
  {| MountainCar.action := Vector.cons _ x _ (Vector.nil _) |}.

Definition lander_start : world Lander.EnvAction sim N :=
  start (0, 0) 0 lander_action.
Definition car_start (x : double) : world MountainCar.EnvAction sim N :=
  start (0, 0) 0 (car_action x).

(** A lander world whose agent has already counted 99997 steps. *)
Definition lander_late : world Lander.EnvAction sim N :=
  {| gym := (0, 0);
     agent := {| State := {| Data := [] |}; Action := lander_action;
                 TotalSteps := 99997; Deterministic := false;
                 internals := 0 |};
     returnList := [];
     episodes := 0;
     trace := [] |}.

(** The result of a run that returned. *)
Definition result {A : Type} (o : option A) (default : A) : A :=
  match o with Some x => x | None => default end.

(** The mountain-car [Train], with the configuration and the window of
    [main], against two-step episodes and an agent that always selects
    [x]. *)
Definition car_config : TrainingConfig := MountainCar.config default_config.
Abbreviation car_Train x numSteps w :=
  (MountainCar.Train (GA:=api 2) (AA:=agent_api (car_action x)) 100 env
     car_config MountainCar.consecutiveEpisodes numSteps w).
Abbreviation car_run_episode x :=
  (MountainCar.run_episode (GA:=api 2) (AA:=agent_api (car_action x))).
Abbreviation car_train_step x :=
  (MountainCar.train_step (GA:=api 2) (AA:=agent_api (car_action x))).

(** The lander [Train], with the configuration and the window of [main],
    against two-step episodes. *)
Definition lander_config : TrainingConfig := Lander.config default_config.
Abbreviation lander_Train numSteps w :=
  (Lander.Train (GA:=api 2) (AA:=agent_api lander_action) 100 env
     lander_config Lander.consecutiveEpisodes numSteps w).
Abbreviation lander_Train_fn :=
  (Lander.Train (GA:=api 2) (AA:=agent_api lander_action)).
Abbreviation lander_run_episode :=
  (Lander.run_episode (GA:=api 2) (AA:=agent_api lander_action)).
Abbreviation lander_train_step :=
  (Lander.train_step (GA:=api 2) (AA:=agent_api lander_action)).
End Toy.

(** ** Statements of the properties *)

Section StepStatements.
Context {Act G L : Type} {GA : GymApi G} {AA : AgentApi Act L}.
Local Abbreviation world := (world Act G L).

(** One pass of the training loop makes one environment step, stores one
    transition, the expected tuple, and increments the step counter. *)
Definition stores_one_transition (pack : Act -> mat)
    (train_step : handle -> TrainingConfig -> world -> double -> world * double)
    : Prop :=
  forall h config w episodeReturn,
    let w' := fst (train_step h config w episodeReturn) in
    exists new,
      trace w' = new ++ trace w
      /\ n_steps h new = 1
      /\ stores new = [expected_transition pack h w]
      /\ TotalSteps (agent w') = size_incr (TotalSteps (agent w))
      /\ (TotalSteps (agent w) < SIZE_MAX ->
          TotalSteps (agent w') = TotalSteps (agent w) + 1).

(** One pass of the training loop makes no update while the counter, as the
    agent holds it when the update would run, is below the exploration
    threshold; from the threshold on, with the flag off, it makes
    [count config] updates. *)
Definition updates_from_threshold (count : TrainingConfig -> size_t)
    (train_step : handle -> TrainingConfig -> world -> double -> world * double)
    : Prop :=
  forall h config w episodeReturn,
    let w' := fst (train_step h config w episodeReturn) in
    exists new,
      trace w' = new ++ trace w
      /\ n_steps h new = 1
      /\ (TotalSteps (agent w') < ExplorationSteps config ->
          n_updates new = 0)
      /\ (ExplorationSteps config <= TotalSteps (agent w') ->
          Deterministic (agent w) = false ->
          n_updates new = count config).

(** Throughout a call of [Train] the flag is off. *)
Definition trains_with_flag_off
    (Train : nat -> handle -> TrainingConfig -> size_t -> size_t -> world
             -> option world) : Prop :=
  forall fuel h config consecutiveEpisodes numSteps w w',
    Train fuel h config consecutiveEpisodes numSteps w = Some w' ->
    exists new,
      trace w' = new ++ trace w
      /\ Forall (eq false) (select_flags new)
      /\ Deterministic (agent w') = false.
End StepStatements.


Section EpisodeStatements.
Context {Act G L : Type} {GA : GymApi G} {AA : AgentApi Act L}.
Local Abbreviation world := (world Act G L).
Local Abbreviation episode_fn :=
  (nat -> handle -> TrainingConfig -> size_t -> world -> option world).

(** The window invariant. *)
Definition window_ok (consecutiveEpisodes : size_t) (w : world) : Prop :=
  N.of_nat (length (returnList w)) <= consecutiveEpisodes.

(** A completed episode leaves a window of at most [consecutiveEpisodes]
    returns, the most recent ones, and a progress line printed at its end
    carries the arithmetic mean of that window. *)
Definition window_kept_by_episode (run_episode : episode_fn)
    (progress_line : size_t -> double -> size_t -> double -> size_t -> line)
    : Prop :=
  forall fuel h config consecutiveEpisodes w w',
    window_ok consecutiveEpisodes w ->
    run_episode fuel h config consecutiveEpisodes w = Some w' ->
    exists new episodeReturn,
      trace w' = new ++ trace w
      /\ returnList w'
         = keep_last consecutiveEpisodes (returnList w ++ [episodeReturn])
      /\ window_ok consecutiveEpisodes w'
      /\ forall l, In l (printed new) ->
           l = progress_line (N.of_nat (length (returnList w')))
                 (arithmetic_mean (returnList w')) (episodes w')
                 episodeReturn (TotalSteps (agent w')).

(** [Train] keeps the window invariant. *)
Definition window_kept_by_Train
    (Train : nat -> handle -> TrainingConfig -> size_t -> size_t -> world
             -> option world) : Prop :=
  forall fuel h config consecutiveEpisodes numSteps w w',
    window_ok consecutiveEpisodes w ->
    Train fuel h config consecutiveEpisodes numSteps w = Some w' ->
    window_ok consecutiveEpisodes w'.

(** The return an episode records is the sum of the rewards of its steps,
    added in the order received to an accumulator that starts from 0 at
    the reset: the episode's calls are the reset, then the steps, then at
    most a progress line; the sum is pushed at the back of the list, whose
    front entry is then dropped if the list outgrew the window. *)
Definition return_is_reward_sum (run_episode : episode_fn) : Prop :=
  forall fuel h config consecutiveEpisodes w w',
    run_episode fuel h config consecutiveEpisodes w = Some w' ->
    exists prints steps,
      trace w' = prints ++ steps ++ EvReset h :: trace w
      /\ n_steps h prints = 0
      /\ 1 <= n_steps h steps
      /\ (forall h', n_resets h' steps = 0)
      /\ (let pushed := returnList w ++ [reward_sum h steps] in
          returnList w'
          = if consecutiveEpisodes <? N.of_nat (length pushed)
            then tl pushed else pushed)
      /\ (0 < consecutiveEpisodes ->
          last (returnList w') 0%float = reward_sum h steps).

(** As the specification words it: a progress line shows the episode
    count, the average return of the window and the step count. *)
Definition progress_shows_episode_count (run_episode : episode_fn) : Prop :=
  forall fuel h config consecutiveEpisodes w w' new l,
    run_episode fuel h config consecutiveEpisodes w = Some w' ->
    trace w' = new ++ trace w ->
    In l (printed new) ->
    In (Size (episodes w')) l
    /\ In (Dbl (arithmetic_mean (returnList w'))) l
    /\ In (Size (TotalSteps (agent w'))) l.

(** What a progress line does show.  The calls of an episode are the
    reset, then the steps of the episode, then at most a progress line;
    the line is printed at the end of every [period]-th episode and holds
    the number of returns in the window, their average, the return of the
    episode just finished (the sum of the rewards of those steps) and the
    step count. *)
Definition progress_shows_window (run_episode : episode_fn)
    (period : size_t)
    (progress_line : size_t -> double -> size_t -> double -> size_t -> line)
    : Prop :=
  forall fuel h config consecutiveEpisodes w w',
    run_episode fuel h config consecutiveEpisodes w = Some w' ->
    exists prints steps,
      trace w' = prints ++ steps ++ EvReset h :: trace w
      /\ n_steps h prints = 0
      /\ 1 <= n_steps h steps
      /\ (forall h', n_resets h' steps = 0)
      /\ printed steps = []
      /\ printed prints
         = (if episodes w' mod period =? 0
            then [progress_line (N.of_nat (length (returnList w')))
                    (arithmetic_mean (returnList w')) (episodes w')
                    (reward_sum h steps) (TotalSteps (agent w'))]
            else [])
      /\ forall l, In l (printed prints) ->
           In (Size (N.of_nat (length (returnList w')))) l
           /\ In (Dbl (arithmetic_mean (returnList w'))) l
           /\ In (Dbl (reward_sum h steps)) l
           /\ In (Size (TotalSteps (agent w'))) l.
End EpisodeStatements.

Section CarStatements.
Context {G L : Type} {GA : GymApi G} {AC : AgentApi MountainCar.EnvAction L}.
Local Abbreviation world := (world MountainCar.EnvAction G L).

(** The number an action of the mountain-car agent holds. *)
Definition scalar (a : MountainCar.EnvAction) : double :=
  Vector.hd (MountainCar.action a).

(** As the specification words it: in a training step the action sent is
    twice the selected one, the action stored is the selected one, and the
    two differ. *)
Definition executed_differs_from_stored : Prop :=
  forall h config (w : world) episodeReturn new a r d t,
    trace (fst (MountainCar.train_step h config w episodeReturn))
      = new ++ trace w ->
    In (EvStep h a r d) new ->
    In (EvStore t) new ->
    a = [(scalar (selected h w) * 2)%float]
    /\ tr_action t = selected h w
    /\ a <> [scalar (tr_action t)].

(** What holds: the action sent is twice the selected one and the action
    stored is the selected one; they differ whenever doubling changes the
    number. *)
Definition executed_is_twice_stored : Prop :=
  forall h config (w : world) episodeReturn new a r d t,
    trace (fst (MountainCar.train_step h config w episodeReturn))
      = new ++ trace w ->
    In (EvStep h a r d) new ->
    In (EvStore t) new ->
    a = [(scalar (selected h w) * 2)%float]
    /\ tr_action t = selected h w
    /\ ((scalar (selected h w) * 2)%float <> scalar (selected h w) ->
        a <> [scalar (tr_action t)]).

(** A pass of the testing loop sends twice the selected action and stores
    nothing. *)
Definition testing_sends_twice_selected : Prop :=
  forall (w : world),
    trace (test_pass MountainCar.pack w)
    = [EvStep envTest [(scalar (selected envTest w) * 2)%float]
         (reward envTest (stepped MountainCar.pack envTest w))
         (done envTest (stepped MountainCar.pack envTest w));
       EvSelect (Deterministic (agent w)) (selected envTest w)]
      ++ trace w.
End CarStatements.

Section RunStatements.
Context {Act G L : Type} {GA : GymApi G} {AA : AgentApi Act L}.
Local Abbreviation world := (world Act G L).
Local Abbreviation episode_fn :=
  (nat -> handle -> TrainingConfig -> size_t -> world -> option world).
Local Abbreviation Train_fn :=
  (nat -> handle -> TrainingConfig -> size_t -> size_t -> world
   -> option world).
Local Abbreviation test_loop_fn :=
  (nat -> world -> double -> size_t -> option (world * double * size_t)).


(** An evaluation block leaves the list of returns, the episode count and
    the agent's step counter as they are. *)
Definition testing_keeps_counts (testing : nat -> world -> option world)
    : Prop :=
  forall fuel w w',
    testing fuel w = Some w' ->
    returnList w' = returnList w
    /\ episodes w' = episodes w
    /\ TotalSteps (agent w') = TotalSteps (agent w).


(** A call of [Train] that finds the counter at or above [numSteps] runs
    no episode: it turns the flag off, prints its announcement and
    returns. *)
Definition no_episode_when_reached (Train : Train_fn) : Prop :=
  forall fuel h config consecutiveEpisodes numSteps w,
    numSteps <= TotalSteps (agent w) ->
    Train (S fuel) h config consecutiveEpisodes numSteps w
    = Some (Train_entry numSteps w).

(** [numSteps] bounds the agent's counter, which a call of [Train]
    continues from the value it finds: the call runs episodes while the
    counter is below [numSteps] and adds its own steps to the counter. *)
Definition budget_is_on_the_counter (Train : Train_fn)
    (episodes_to : handle -> TrainingConfig -> size_t -> size_t
                   -> world -> world -> Prop) : Prop :=
  forall fuel h config consecutiveEpisodes numSteps w w',
    Train fuel h config consecutiveEpisodes numSteps w = Some w' ->
    exists new,
      trace w' = new ++ trace w
      /\ episodes_to h config consecutiveEpisodes numSteps
           (Train_entry numSteps w) w'
      /\ numSteps <= TotalSteps (agent w')
      /\ size_wrap (TotalSteps (agent w'))
         = size_wrap (TotalSteps (agent w) + n_steps h new)
      /\ (TotalSteps (agent w) + n_steps h new < 2 ^ 64 ->
          TotalSteps (agent w') = TotalSteps (agent w) + n_steps h new)
      /\ (numSteps <= TotalSteps (agent w) ->
          n_steps h new = 0 /\ n_resets h new = 0).

(** As the specification words it: if every episode reaches the done flag
    after finitely many steps, [Train] returns, with the counter at least
    [numSteps]. *)
Definition Train_returns_if_episodes_end (Train : Train_fn)
    (run_episode : episode_fn) : Prop :=
  forall h config consecutiveEpisodes numSteps w,
    (forall w0, exists fuel w1,
       run_episode fuel h config consecutiveEpisodes w0 = Some w1) ->
    exists fuel w',
      Train fuel h config consecutiveEpisodes numSteps w = Some w'
      /\ numSteps <= TotalSteps (agent w').

(** If every episode the call begins (in a world it reached by completed
    episodes, the counter being below the budget) reaches the done flag
    after finitely many steps, the 64-bit counter being larger after it
    than before, [Train] returns; the counter is then at least [numSteps],
    and when it was below on entry it exceeds [numSteps] by less than the
    number of steps of the final episode, which was begun below the
    budget. *)
Definition Train_returns (Train : Train_fn) (run_episode : episode_fn)
    (episodes_to : handle -> TrainingConfig -> size_t -> size_t
                   -> world -> world -> Prop) : Prop :=
  forall h config consecutiveEpisodes numSteps w,
    (forall w0,
       episodes_to h config consecutiveEpisodes numSteps
         (Train_entry numSteps w) w0 ->
       TotalSteps (agent w0) < numSteps ->
       exists fuel w1,
         run_episode fuel h config consecutiveEpisodes w0 = Some w1
         /\ TotalSteps (agent w0) < TotalSteps (agent w1)) ->
    exists fuel w',
      Train fuel h config consecutiveEpisodes numSteps w = Some w'
      /\ numSteps <= TotalSteps (agent w')
      /\ (TotalSteps (agent w) < numSteps ->
          exists w_last fuel_last final,
            episodes_to h config consecutiveEpisodes numSteps
              (Train_entry numSteps w) w_last
            /\ TotalSteps (agent w_last) < numSteps
            /\ run_episode fuel_last h config consecutiveEpisodes w_last
               = Some w'
            /\ trace w' = final ++ trace w_last
            /\ TotalSteps (agent w') < numSteps + n_steps h final).
End RunStatements.

Section ProgramStatements.
Context {Act G L : Type}.
Local Abbreviation world := (world Act G L).

(** A run of [main] from the start world ends with at most
    [consecutiveEpisodes] returns in the list. *)
Definition main_keeps_window
    (main : nat -> TrainingConfig -> world -> option world)
    (consecutiveEpisodes : size_t) : Prop :=
  forall fuel default (g : G) (l : L) (a : Act) w_end,
    main fuel default (start g l a) = Some w_end ->
    window_ok consecutiveEpisodes w_end.
End ProgramStatements.

Section LanderStatements.
Context {G L : Type} {GA : GymApi G} {AL : AgentApi Lander.EnvAction L}.
Local Abbreviation world := (world Lander.EnvAction G L).

(** In the lander's [main] the second call of [Train] finds the counter
    where the first call left it, at 10000 or more, the evaluation in
    between not touching it; it runs episodes while that counter is below
    100000 and none if it is not; it adds its own steps to it. *)
Definition second_call_continues_the_count : Prop :=
  forall fuel default (w0 w_end : world),
    Lander.main fuel default w0 = Some w_end ->
    exists w1 w2 w3 new,
      Lander.Train fuel env (Lander.config default)
        Lander.consecutiveEpisodes 10000
        (connect env "localhost" "4040" "LunarLander-v2" w0) = Some w1
      /\ 10000 <= TotalSteps (agent w1)
      /\ Lander.testing1 fuel w1 = Some w2
      /\ TotalSteps (agent w2) = TotalSteps (agent w1)
      /\ Lander.Train fuel env (Lander.config default)
           Lander.consecutiveEpisodes 100000 w2 = Some w3
      /\ Lander.testing2 fuel w3 = Some w_end
      /\ trace w3 = new ++ trace w2
      /\ Lander.episodes_to env (Lander.config default)
           Lander.consecutiveEpisodes 100000 (Train_entry 100000 w2) w3
      /\ 100000 <= TotalSteps (agent w3)
      /\ (TotalSteps (agent w1) + n_steps env new < 2 ^ 64 ->
          TotalSteps (agent w3) = TotalSteps (agent w1) + n_steps env new)
      /\ (100000 <= TotalSteps (agent w1) ->
          n_steps env new = 0 /\ n_resets env new = 0).
End LanderStatements.

(** ** Shapes of observations and actions *)

Section ShapeStatements.
Context {Act G L : Type} {GA : GymApi G} {AA : AgentApi Act L}.
Local Abbreviation world := (world Act G L).
Local Abbreviation Train_fn :=
  (nat -> handle -> TrainingConfig -> size_t -> size_t -> world
   -> option world).

(** Modelled from the spec: "Observation: fixed-size numeric vector
    describing environment state (8 values for the lander task, 2 for the
    mountain-car task)".  Missing from the sources are the environment
    client ([gym/environment.hpp]) and the simulator behind it, which fill
    [env.observation]; this says of them that every observation holds as
    many values as the [State::dimension] of the environment type the
    program declares. *)
Definition observations_of (E : EnvironmentType) : Prop :=
  forall h (g : G), N.of_nat (length (observation h g)) = dimension E.

(** Every call made from [w] to [w'] satisfies [P]. *)
Definition calls_shaped (P : event Act -> Prop) (w w' : world) : Prop :=
  exists new, trace w' = new ++ trace w /\ Forall P new.

(** The state the agent selects from, in the training loop and in the
    testing loop alike, holds [n] values. *)
Definition agent_sees (n : N) : Prop :=
  forall h (w : world),
    N.of_nat (length (Data (State (agent (selecting h w))))) = n.

(** Every call of one pass of the training loop satisfies [P]. *)
Definition step_shaped (P : event Act -> Prop)
    (train_step : handle -> TrainingConfig -> world -> double -> world * double)
    : Prop :=
  forall h config w episodeReturn,
    calls_shaped P w (fst (train_step h config w episodeReturn)).

(** Every call of one pass of the testing loop satisfies [P]. *)
Definition test_pass_shaped (P : event Act -> Prop) (pack : Act -> mat)
    : Prop :=
  forall w, calls_shaped P w (test_pass pack w).

(** Every call of a call of [Train] satisfies [P]. *)
Definition Train_shaped (P : event Act -> Prop) (Train : Train_fn) : Prop :=
  forall fuel h config consecutiveEpisodes numSteps w w',
    Train fuel h config consecutiveEpisodes numSteps w = Some w' ->
    calls_shaped P w w'.

(** Every call of a run of [main] satisfies [P]. *)
Definition main_shaped (P : event Act -> Prop)
    (main : nat -> TrainingConfig -> world -> option world) : Prop :=
  forall fuel default w w',
    main fuel default w = Some w' -> calls_shaped P w w'.
End ShapeStatements.

(** Modelled from the spec: "Action: either a discrete index (lander) or a
    continuous scalar (mountain car), produced by the policy from an
    observation".  Missing from the sources is mlpack's policy behind
    [agent.SelectAction()]; this says of it that the index it selects is
    one of the [Action::size] actions of the environment type the program
    declares. *)
Definition selects_index_of {L : Type} {AL : AgentApi Lander.EnvAction L}
    (E : EnvironmentType) : Prop :=
  forall ag : Agent Lander.EnvAction L,
    Lander.action (fst (SelectAction_impl ag)) < size E.

(** What the lander program hands on: the action selected is an index
    below 4; a step sends that index, as one number; a stored transition
    holds states of 8 values and such an index. *)
Definition lander_event (e : event Lander.EnvAction) : Prop :=
  match e with
  | EvSelect _ a => Lander.action a < 4
  | EvStep _ sent _ _ => exists i, i < 4 /\ sent = [size_to_double i]
  | EvStore t =>
      N.of_nat (length (Data (tr_state t))) = 8
      /\ N.of_nat (length (Data (tr_nextState t))) = 8
      /\ Lander.action (tr_action t) < 4
  | _ => True
  end.

(** What the mountain-car program hands on: the action selected is one
    number; a step sends one number; a stored transition holds states of 2
    values and an action of one number. *)
Definition car_event (e : event MountainCar.EnvAction) : Prop :=
  match e with
  | EvSelect _ a => exists x, Vector.to_list (MountainCar.action a) = [x]
  | EvStep _ sent _ _ => exists x : double, sent = [x]
  | EvStore t =>
      N.of_nat (length (Data (tr_state t))) = 2
      /\ N.of_nat (length (Data (tr_nextState t))) = 2
      /\ exists x, Vector.to_list (MountainCar.action (tr_action t)) = [x]
  | _ => True
  end.

(** A simulator like [Toy.api] whose observations hold [n] values. *)
Module Sized.
Definition api (n len : N) : GymApi Toy.sim :=
  {| gym_connect := fun _ _ _ _ g => g;
     gym_monitor_start := fun _ _ _ _ g => g;
     gym_reset := fun h g => Toy.put h 0 g;
     gym_step := fun h _ g => Toy.put h (Toy.get h g + 1) g;
     gym_render := fun _ g => g;
     gym_close := fun _ g => g;
     observation := fun h g =>
                      repeat (size_to_double (Toy.get h g)) (N.to_nat n);
     reward := fun h g => size_to_double (Toy.get h g);
     done := fun h g => len <=? Toy.get h g;
     url := fun _ _ => "sized" |}.
End Sized.

(** ** More to read off a trace *)

Section CallKinds.
Context {Act : Type}.

(** Number of [close] calls on [h]. *)
Fixpoint n_closes (h : handle) (evs : list (event Act)) : N :=
  match evs with
  | [] => 0
  | EvClose h' :: evs' =>
      if handle_eqb h h' then N.succ (n_closes h evs') else n_closes h evs'
  | _ :: evs' => n_closes h evs'
  end.

(** Number of times the environment object [h] is constructed. *)
Fixpoint n_connects (h : handle) (evs : list (event Act)) : N :=
  match evs with
  | [] => 0
  | EvConnect h' _ _ _ :: evs' =>
      if handle_eqb h h' then N.succ (n_connects h evs') else n_connects h evs'
  | _ :: evs' => n_connects h evs'
  end.

(** The calls a training run on environment [h] is made of: resets and
    steps of [h], selections, stores, updates and printed lines. *)
Definition training_event (h : handle) (e : event Act) : Prop :=
  match e with
  | EvReset h' => h' = h
  | EvStep h' _ _ _ => h' = h
  | EvSelect _ _ | EvStore _ | EvUpdate | EvPrint _ => True
  | EvConnect _ _ _ _ | EvMonitorStart _ | EvRender _ | EvClose _ => False
  end.

(** The calls of the testing loop: steps of the test environment,
    selections and printed lines. *)
Definition evaluation_event (e : event Act) : Prop :=
  match e with
  | EvStep h' _ _ _ => h' = envTest
  | EvSelect _ _ | EvPrint _ => True
  | EvReset _ | EvStore _ | EvUpdate => False
  | EvConnect _ _ _ _ | EvMonitorStart _ | EvRender _ | EvClose _ => False
  end.

(** The returns of the episodes of [h] a trace holds, newest first: the
    rewards of the steps that follow a reset, up to the next reset, added in
    the order received from 0.  [pending] holds the rewards of the steps met
    so far, on the way back to their reset, oldest first. *)
Fixpoint episode_returns (h : handle) (evs : list (event Act))
    (pending : list double) : list double :=
  match evs with
  | [] => []
  | EvStep h' _ r _ :: evs' =>
      if handle_eqb h h' then episode_returns h evs' (r :: pending)
      else episode_returns h evs' pending
  | EvReset h' :: evs' =>
      if handle_eqb h h'
      then accumulate pending 0%float :: episode_returns h evs' []
      else episode_returns h evs' pending
  | _ :: evs' => episode_returns h evs' pending
  end.
End CallKinds.

(** The number of steps, out of [n] steps made from a counter at [t], after
    which the counter is at or past the threshold [E]. *)
Definition steps_from_threshold (t n E : N) : N := (t + n) - N.max t (E - 1).

(** The number of multiples of [p] among [e + 1, ..., e + k]. *)
Definition multiples_between (e k p : N) : N := (e + k) / p - e / p.

(** [returnList.push_back(episodeReturn);
     if (returnList.size() > consecutiveEpisodes)
       returnList.erase(returnList.begin());] *)
Definition window_push (consecutiveEpisodes : size_t) (rl : list double)
    (episodeReturn : double) : list double :=
  let rl := rl ++ [episodeReturn] in
  if consecutiveEpisodes <? N.of_nat (length rl) then tl rl else rl.

(** A simulator that never reports the end of an episode. *)
Module Endless.
Definition api : GymApi Toy.sim :=
  {| gym_connect := fun _ _ _ _ g => g;
     gym_monitor_start := fun _ _ _ _ g => g;
     gym_reset := fun h g => Toy.put h 0 g;
     gym_step := fun h _ g => Toy.put h (Toy.get h g + 1) g;
     gym_render := fun _ g => g;
     gym_close := fun _ g => g;
     observation := fun h g => [size_to_double (Toy.get h g)];
     reward := fun h g => size_to_double (Toy.get h g);
     done := fun _ _ => false;
     url := fun _ _ => "endless" |}.
End Endless.

(** ** Statements over whole calls *)

Section CallStatements.
Context {Act G L : Type} {GA : GymApi G} {AA : AgentApi Act L}.
Local Abbreviation world := (world Act G L).
Local Abbreviation Train_fn :=
  (nat -> handle -> TrainingConfig -> size_t -> size_t -> world
   -> option world).

(** The length of the list of returns after a call of [Train] that ran [k]
    episodes: a list that was longer than the window keeps its length,
    and a list within the window grows by [k] up to the window. *)
Definition window_length_rule (Train : Train_fn) : Prop :=
  forall fuel h config consecutiveEpisodes numSteps w w',
    Train fuel h config consecutiveEpisodes numSteps w = Some w' ->
    exists new,
      trace w' = new ++ trace w
      /\ let len := N.of_nat (length (returnList w)) in
         N.of_nat (length (returnList w'))
         = (if consecutiveEpisodes <? len then len
            else N.min consecutiveEpisodes (len + n_resets h new)).

(** After a call of [Train] that found the list within the window, the list
    holds the last [consecutiveEpisodes] of: the returns it held, then the
    returns of the episodes of the call, oldest first, each the sum of the
    rewards of its steps. *)
Definition window_holds_latest_returns (Train : Train_fn) : Prop :=
  forall fuel h config consecutiveEpisodes numSteps w w',
    window_ok consecutiveEpisodes w ->
    Train fuel h config consecutiveEpisodes numSteps w = Some w' ->
    exists new,
      trace w' = new ++ trace w
      /\ N.of_nat (length (episode_returns h new [])) = n_resets h new
      /\ returnList w'
         = keep_last consecutiveEpisodes
             (returnList w ++ rev (episode_returns h new [])).

(** With a window of 0 and an empty list, the list stays empty and every
    progress line of the call shows a count of 0 and the average [0 / 0],
    not a number. *)
Definition zero_window_prints_nan (Train : Train_fn)
    (progress_line : size_t -> double -> size_t -> double -> size_t -> line)
    : Prop :=
  forall fuel h config numSteps w w',
    returnList w = [] ->
    Train fuel h config 0 numSteps w = Some w' ->
    exists new,
      trace w' = new ++ trace w
      /\ returnList w' = []
      /\ forall l, In l (printed new) ->
           l = [Str "Training for "; Size numSteps; Str " steps."]
           \/ exists e r t, l = progress_line 0 PrimFloat.nan e r t.

(** A call of [Train] resets the environment once per episode and counts
    the episode; unless the episode counter wraps around, it prints its
    announcement and one progress line for every multiple of [period] the
    counter passes. *)
Definition progress_lines_counted (Train : Train_fn) (period : size_t)
    : Prop :=
  forall fuel h config consecutiveEpisodes numSteps w w',
    Train fuel h config consecutiveEpisodes numSteps w = Some w' ->
    exists new,
      trace w' = new ++ trace w
      /\ (episodes w + n_resets h new < 2 ^ 64 ->
          episodes w' = episodes w + n_resets h new
          /\ N.of_nat (length (printed new))
             = 1 + multiples_between (episodes w) (n_resets h new) period).

(** Unless the step counter wraps around, a call of [Train] makes
    [count config] updates for each of its steps that leaves the counter
    at or above the exploration threshold, and no other. *)
Definition updates_counted (Train : Train_fn)
    (count : TrainingConfig -> size_t) : Prop :=
  forall fuel h config consecutiveEpisodes numSteps w w',
    Train fuel h config consecutiveEpisodes numSteps w = Some w' ->
    exists new,
      trace w' = new ++ trace w
      /\ (TotalSteps (agent w) + n_steps h new < 2 ^ 64 ->
          n_updates new
          = count config
            * steps_from_threshold (TotalSteps (agent w)) (n_steps h new)
                (ExplorationSteps config)).

(** A call of [Train] on [h] resets and steps [h], selects, stores,
    updates and prints, and nothing else: it opens and closes no
    connection, starts no monitor, renders nothing and leaves the other
    environment alone. *)
Definition Train_calls_confined (Train : Train_fn) : Prop :=
  forall fuel h config consecutiveEpisodes numSteps w w',
    Train fuel h config consecutiveEpisodes numSteps w = Some w' ->
    exists new,
      trace w' = new ++ trace w
      /\ Forall (training_event h) new
      /\ (forall h', n_connects h' new = 0 /\ n_closes h' new = 0)
      /\ (forall h', h' <> h -> n_steps h' new = 0 /\ n_resets h' new = 0).

(** An evaluation block makes no update and leaves the training
    environment alone; it resets the test environment once, opens
    [connects] connections to it and closes [closes]; the flag is on when
    it ends. *)
Definition evaluation_calls (testing : nat -> world -> option world)
    (connects closes : N) : Prop :=
  forall fuel w w',
    testing fuel w = Some w' ->
    exists new,
      trace w' = new ++ trace w
      /\ n_updates new = 0
      /\ n_steps env new = 0 /\ n_resets env new = 0
      /\ n_connects env new = 0 /\ n_closes env new = 0
      /\ n_resets envTest new = 1
      /\ n_connects envTest new = connects
      /\ n_closes envTest new = closes
      /\ Deterministic (agent w') = true.

(** Over a run of [main]: one connection is opened for each environment;
    the training environment is never closed, the test environment is
    closed once, by the last call before the final line; the test
    environment is reset once per evaluation; every training step is
    stored and no other; at least [budget] steps are counted; unless the
    step counter wraps around, the updates are [count] for each training
    step from the [threshold]-th on. *)
Definition main_totals (main : nat -> TrainingConfig -> world -> option world)
    (evaluations budget count threshold : N) : Prop :=
  forall fuel default w w',
    main fuel default w = Some w' ->
    exists new,
      trace w' = EvPrint [Str (url envTest (gym w'))] :: EvClose envTest
                 :: new ++ trace w
      /\ n_connects env new = 1 /\ n_connects envTest new = 1
      /\ n_closes env new = 0 /\ n_closes envTest new = 0
      /\ n_resets envTest new = evaluations
      /\ N.of_nat (length (stores new)) = n_steps env new
      /\ budget <= TotalSteps (agent w')
      /\ (TotalSteps (agent w) + n_steps env new < 2 ^ 64 ->
          TotalSteps (agent w') = TotalSteps (agent w) + n_steps env new
          /\ n_updates new
             = count * steps_from_threshold (TotalSteps (agent w))
                         (n_steps env new) threshold).

(** If the environment never reports the end of an episode, a call of
    [Train] that finds the counter below its budget does not return. *)
Definition Train_needs_done (Train : Train_fn) : Prop :=
  forall h config consecutiveEpisodes numSteps w,
    (forall g, done h g = false) ->
    TotalSteps (agent w) < numSteps ->
    forall fuel,
      Train fuel h config consecutiveEpisodes numSteps w = None.

(** If the test environment never reports the end of an episode, an
    evaluation block does not return. *)
Definition testing_needs_done (testing : nat -> world -> option world)
    : Prop :=
  forall w,
    (forall g, done envTest g = false) ->
    forall fuel, testing fuel w = None.

(** Within a call of [Train] the environment reports done once per
    episode, the flags stored with the transitions are the flags
    reported, and the call ends on a step that reported done, if it made
    one. *)
Definition episodes_end_at_done (Train : Train_fn) : Prop :=
  forall fuel h config consecutiveEpisodes numSteps w w',
    Train fuel h config consecutiveEpisodes numSteps w = Some w' ->
    exists new,
      trace w' = new ++ trace w
      /\ N.of_nat (count_occ bool_dec (dones h new) true) = n_resets h new
      /\ map (@tr_isEnd Act) (stores new) = dones h new
      /\ (n_steps h new <> 0 -> done h (gym w') = true).
End CallStatements.
(** * Facts *)

(** Splits a conjunction into its parts, without entering them. *)
Ltac split_conj := repeat match goal with |- _ /\ _ => split end.

Lemma size_wrap_small (n : N) : n < 2 ^ 64 -> size_wrap n = n.
Proof. intros H. unfold size_wrap. apply N.mod_small. exact H. Qed.

Lemma size_wrap_lt (n : N) : size_wrap n < 2 ^ 64.
Proof. unfold size_wrap. apply N.mod_upper_bound. discriminate. Qed.

Lemma size_wrap_le (n : N) : size_wrap n <= n.
Proof. unfold size_wrap. apply N.Div0.mod_le. Qed.

Lemma size_wrap_add_l (a b : N) : size_wrap (size_wrap a + b) = size_wrap (a + b).
Proof. unfold size_wrap. apply N.Div0.add_mod_idemp_l. Qed.

Lemma size_incr_small (n : N) : n < SIZE_MAX -> size_incr n = n + 1.
Proof.
  unfold size_incr, SIZE_MAX. intros H. apply size_wrap_small.
  assert (0 < 2 ^ 64) by reflexivity. lia.
Qed.

Section TraceFacts.
Context {Act : Type}.
Implicit Types evs : list (event Act).

Lemma rewards_app h evs1 evs2 :
  rewards h (evs1 ++ evs2) = rewards h evs1 ++ rewards h evs2.
Proof.
  induction evs1 as [|e evs1 IH]; [reflexivity|].
  destruct e; simpl; try exact IH.
  destruct (handle_eqb h h0); simpl; now rewrite IH.
Qed.

Lemma dones_app h evs1 evs2 :
  dones h (evs1 ++ evs2) = dones h evs1 ++ dones h evs2.
Proof.
  induction evs1 as [|e evs1 IH]; [reflexivity|].
  destruct e; simpl; try exact IH.
  destruct (handle_eqb h h0); simpl; now rewrite IH.
Qed.

Lemma n_steps_app h evs1 evs2 :
  n_steps h (evs1 ++ evs2) = n_steps h evs1 + n_steps h evs2.
Proof.
  unfold n_steps. rewrite rewards_app, length_app. apply Nat2N.inj_add.
Qed.

Lemma stores_app evs1 evs2 :
  stores (evs1 ++ evs2) = stores evs1 ++ stores evs2.
Proof.
  induction evs1 as [|e evs1 IH]; [reflexivity|].
  destruct e; simpl; try exact IH. now rewrite IH.
Qed.

Lemma n_updates_app evs1 evs2 :
  n_updates (evs1 ++ evs2) = n_updates evs1 + n_updates evs2.
Proof.
  induction evs1 as [|e evs1 IH]; [reflexivity|].
  destruct e; simpl; try exact IH. rewrite IH. lia.
Qed.

Lemma n_resets_app h evs1 evs2 :
  n_resets h (evs1 ++ evs2) = n_resets h evs1 + n_resets h evs2.
Proof.
  induction evs1 as [|e evs1 IH]; [reflexivity|].
  destruct e; simpl; try exact IH.
  destruct (handle_eqb h h0); simpl; rewrite IH; lia.
Qed.

Lemma select_flags_app evs1 evs2 :
  select_flags (evs1 ++ evs2) = select_flags evs1 ++ select_flags evs2.
Proof.
  induction evs1 as [|e evs1 IH]; [reflexivity|].
  destruct e; simpl; try exact IH. now rewrite IH.
Qed.

Lemma printed_app evs1 evs2 :
  printed (evs1 ++ evs2) = printed evs1 ++ printed evs2.
Proof.
  induction evs1 as [|e evs1 IH]; [reflexivity|].
  destruct e; simpl; try exact IH. now rewrite IH.
Qed.

(** A run of updates holds nothing but updates. *)
Lemma updates_only (k : nat) :
  let evs := repeat (@EvUpdate Act) k in
  (forall h, rewards h evs = []) /\ (forall h, dones h evs = [])
  /\ stores evs = [] /\ n_updates evs = N.of_nat k
  /\ (forall h, n_resets h evs = 0) /\ select_flags evs = []
  /\ printed evs = [].
Proof.
  induction k as [|k IH]; simpl.
  - repeat split.
  - destruct IH as (H1 & H2 & H3 & H4 & H5 & H6 & H7).
    repeat split; auto. rewrite H4. lia.
Qed.
End TraceFacts.

Lemma handle_eqb_refl h : handle_eqb h h = true.
Proof. now destruct h. Qed.

Section DriverFacts.
Context {Act G L : Type} {GA : GymApi G} {AA : AgentApi Act L}.
Variable pack : Act -> mat.
Variable updates : TrainingConfig -> size_t.
Variable period : size_t.
Variable progress_line : size_t -> double -> size_t -> double -> size_t -> line.
Local Abbreviation world := (world Act G L).
Implicit Types w : world.

(** Updates touch the agent's private state and the trace only. *)
Lemma Update_iter (k : nat) config w :
  let w' := Nat.iter k (Update config) w in
  trace w' = repeat EvUpdate k ++ trace w
  /\ gym w' = gym w
  /\ State (agent w') = State (agent w)
  /\ Action (agent w') = Action (agent w)
  /\ TotalSteps (agent w') = TotalSteps (agent w)
  /\ Deterministic (agent w') = Deterministic (agent w)
  /\ returnList w' = returnList w
  /\ episodes w' = episodes w.
Proof.
  induction k as [|k IH]; simpl.
  - repeat split.
  - destruct IH as (H1 & H2 & H3 & H4 & H5 & H6 & H7 & H8).
    simpl. rewrite H1. repeat split; assumption.
Qed.

Lemma SelectAction_fields w :
  let w' := SelectAction w in
  trace w' = EvSelect (Deterministic (agent w)) (Action (agent w')) :: trace w
  /\ gym w' = gym w
  /\ State (agent w') = State (agent w)
  /\ TotalSteps (agent w') = TotalSteps (agent w)
  /\ Deterministic (agent w') = Deterministic (agent w)
  /\ returnList w' = returnList w
  /\ episodes w' = episodes w.
Proof.
  unfold SelectAction. destruct (SelectAction_impl (agent w)) as [x l].
  simpl. repeat split.
Qed.

Lemma train_step_spec h config w ret :
  let w' := fst (train_step pack updates h config w ret) in
  let k := if learns config w then N.to_nat (updates config) else 0%nat in
  snd (train_step pack updates h config w ret)
    = (ret + reward h (stepped pack h w))%float
  /\ trace w' = repeat EvUpdate k ++ step_events pack h w ++ trace w
  /\ gym w' = stepped pack h w
  /\ TotalSteps (agent w') = size_incr (TotalSteps (agent w))
  /\ Deterministic (agent w') = Deterministic (agent w)
  /\ returnList w' = returnList w
  /\ episodes w' = episodes w.
Proof.
  unfold train_step, learns, step_events, expected_transition, stepped, selected, selecting.
  set (w1 := set_State_Data (observation h (gym w)) w).
  destruct (SelectAction_fields w1) as (T & Gm & St & TS & Dt & RL & Ep).
  set (w2 := SelectAction w1) in *.
  simpl in *.
  rewrite Dt, TS.
  destruct (Deterministic (agent w) || _) eqn:E; simpl.
  - rewrite T, Gm, St. simpl. repeat split; congruence.
  - rewrite N2Nat.inj_iter.
    match goal with |- context [Nat.iter ?k ?f ?x] =>
      destruct (Update_iter k config x) as (H1 & H2 & H3 & H4 & H5 & H6 & H7 & H8) end.
    simpl in *. rewrite H1, H2, H5, H6, H7, H8, T, Gm, St. simpl.
    repeat split; congruence.
Qed.
End DriverFacts.

Section EpisodeFacts.
Context {Act G L : Type} {GA : GymApi G} {AA : AgentApi Act L}.
Variable pack : Act -> mat.
Variable updates : TrainingConfig -> size_t.
Local Abbreviation world := (world Act G L).
Implicit Types w : world.

(** What the events of one training step show. *)
Lemma step_events_observed h w :
  rewards h (step_events pack h w) = [reward h (stepped pack h w)]
  /\ dones h (step_events pack h w) = [done h (stepped pack h w)]
  /\ stores (step_events pack h w) = [expected_transition pack h w]
  /\ n_updates (step_events pack h w) = 0
  /\ (forall h', n_resets h' (step_events pack h w) = 0)
  /\ select_flags (step_events pack h w) = [Deterministic (agent w)]
  /\ printed (step_events pack h w) = [].
Proof.
  unfold step_events; simpl. rewrite handle_eqb_refl. repeat split.
Qed.

(** The inner loop: what it returns when it returns. *)
Lemma episode_loop_spec fuel : forall h config w ret w' ret',
  episode_loop pack updates fuel h config w ret = Some (w', ret') ->
  exists new,
    trace w' = new ++ trace w
    /\ ret' = fold_left PrimFloat.add (rev (rewards h new)) ret
    /\ TotalSteps (agent w')
       = size_wrap (TotalSteps (agent w) + n_steps h new)
    /\ 1 <= n_steps h new
    /\ Deterministic (agent w') = Deterministic (agent w)
    /\ returnList w' = returnList w
    /\ episodes w' = episodes w
    /\ printed new = []
    /\ (forall h', n_resets h' new = 0)
    /\ N.of_nat (length (stores new)) = n_steps h new
    /\ Forall (eq (Deterministic (agent w))) (select_flags new).
Proof.
  induction fuel as [|fuel IH]; intros h config w ret w' ret' H;
    [discriminate|].
  simpl in H.
  destruct (train_step_spec pack updates h config w ret)
    as (Hret & Htr & Hgym & Hts & Hdet & Hrl & Hep).
  destruct (train_step pack updates h config w ret) as [w1 ret1].
  simpl in Hret, Htr, Hgym, Hts, Hdet, Hrl, Hep.
  set (k := if learns config w then N.to_nat (updates config) else 0%nat) in Htr.
  destruct (updates_only (Act:=Act) k) as (U1 & U2 & U3 & U4 & U5 & U6 & U7).
  destruct (step_events_observed h w) as (S1 & S2 & S3 & S4 & S5 & S6 & S7).
  assert (Hone : exists new1,
    trace w1 = new1 ++ trace w
    /\ rewards h new1 = [reward h (stepped pack h w)]
    /\ printed new1 = [] /\ (forall h', n_resets h' new1 = 0)
    /\ N.of_nat (length (stores new1)) = 1
    /\ select_flags new1 = [Deterministic (agent w)]).
  { exists (repeat EvUpdate k ++ step_events pack h w).
    rewrite <- app_assoc. split; [exact Htr|].
    rewrite rewards_app, printed_app, stores_app, select_flags_app.
    rewrite U1, U3, U6, U7, S1, S3, S6, S7. simpl.
    repeat split. intros h'. rewrite n_resets_app, U5, S5. reflexivity. }
  destruct Hone as (new1 & T1 & R1 & P1 & N1 & St1 & F1).
  destruct (done h (gym w1)) eqn:Hdone.
  - inversion H; subst w' ret'; clear H.
    exists new1. unfold n_steps. rewrite R1. simpl.
    repeat split; auto; [reflexivity|].
    rewrite F1. constructor; auto.
  - apply IH in H.
    destruct H as (new & T & R & TS & Ge & D & RL & E & P & Nr & St & F).
    exists (new ++ new1).
    rewrite <- app_assoc, <- T1. split; [exact T|].
    rewrite rewards_app, rev_app_distr, R1. simpl.
    rewrite printed_app, P, P1, stores_app, length_app, select_flags_app.
    rewrite n_steps_app. unfold n_steps at 2 4 6. rewrite R1. simpl.
    repeat split; try congruence.
    + rewrite TS, Hts. unfold size_incr. rewrite size_wrap_add_l.
      f_equal. lia.
    + lia.
    + intros h'. rewrite n_resets_app, Nr, N1. reflexivity.
    + rewrite Nat2N.inj_add, St, St1. reflexivity.
    + apply Forall_app. split.
      * rewrite <- Hdet. exact F.
      * rewrite F1. constructor; auto.
Qed.
End EpisodeFacts.

Section WindowFacts.
Context {A : Type}.

Lemma keep_last_all (n : N) (l : list A) :
  N.of_nat (length l) <= n -> keep_last n l = l.
Proof.
  intros H. unfold keep_last.
  replace (length l - N.to_nat n)%nat with 0%nat by lia. reflexivity.
Qed.

Lemma keep_last_tl (n : N) (l : list A) :
  N.of_nat (length l) = n + 1 -> keep_last n l = tl l.
Proof.
  intros H. unfold keep_last.
  replace (length l - N.to_nat n)%nat with 1%nat by lia.
  destruct l; reflexivity.
Qed.

Lemma length_keep_last (n : N) (l : list A) :
  N.of_nat (length (keep_last n l)) <= n.
Proof. unfold keep_last. rewrite length_skipn. lia. Qed.
End WindowFacts.

Section ReturnFacts.
Context {Act G L : Type} {GA : GymApi G} {AA : AgentApi Act L}.
Variable pack : Act -> mat.
Variable updates : TrainingConfig -> size_t.
Variable period : size_t.
Variable progress_line : size_t -> double -> size_t -> double -> size_t -> line.
Local Abbreviation world := (world Act G L).
Implicit Types w : world.

(** What follows the inner loop, field by field. *)
Lemma record_return_spec cE ret w :
  let w' := record_return period progress_line cE ret w in
  let rl := returnList w ++ [ret] in
  returnList w' = (if cE <? N.of_nat (length rl) then tl rl else rl)
  /\ episodes w' = size_incr (episodes w)
  /\ gym w' = gym w
  /\ agent w' = agent w
  /\ trace w'
     = (if episodes w' mod period =? 0
        then [EvPrint (progress_line (N.of_nat (length (returnList w')))
                         (arithmetic_mean (returnList w')) (episodes w')
                         ret (TotalSteps (agent w')))]
        else [])
       ++ trace w.
Proof.
  unfold record_return, arithmetic_mean. simpl.
  destruct (cE <? N.of_nat (length (returnList w ++ [ret]))); simpl;
    destruct (size_incr (episodes w) mod period =? 0) eqn:E; simpl;
    rewrite ?E; repeat split.
Qed.

(** Under the window invariant the trimmed list is the last
    [consecutiveEpisodes] entries. *)
Lemma trimmed_is_keep_last (cE : size_t) (rl : list double) (ret : double) :
  N.of_nat (length rl) <= cE ->
  (if cE <? N.of_nat (length (rl ++ [ret]))
   then tl (rl ++ [ret]) else rl ++ [ret])
  = keep_last cE (rl ++ [ret]).
Proof.
  intros H. destruct (N.ltb_spec cE (N.of_nat (length (rl ++ [ret])))) as [Hlt|Hge].
  - symmetry. apply keep_last_tl. rewrite length_app in *. simpl in *. lia.
  - symmetry. apply keep_last_all. exact Hge.
Qed.

(** One episode: what it leaves behind when it completes. *)
Lemma run_episode_spec fuel h config cE w w' :
  run_episode pack updates period progress_line fuel h config cE w = Some w' ->
  exists steps,
    let ret := reward_sum h steps in
    let rl := returnList w ++ [ret] in
    trace w'
    = (if episodes w' mod period =? 0
       then [EvPrint (progress_line (N.of_nat (length (returnList w')))
                        (arithmetic_mean (returnList w')) (episodes w')
                        ret (TotalSteps (agent w')))]
       else [])
      ++ steps ++ EvReset h :: trace w
    /\ returnList w' = (if cE <? N.of_nat (length rl) then tl rl else rl)
    /\ episodes w' = size_incr (episodes w)
    /\ TotalSteps (agent w')
       = size_wrap (TotalSteps (agent w) + n_steps h steps)
    /\ 1 <= n_steps h steps
    /\ Deterministic (agent w') = Deterministic (agent w)
    /\ printed steps = []
    /\ (forall h', n_resets h' steps = 0)
    /\ N.of_nat (length (stores steps)) = n_steps h steps
    /\ Forall (eq (Deterministic (agent w))) (select_flags steps).
Proof.
  unfold run_episode. intros H.
  destruct (episode_loop pack updates fuel h config (reset h w) 0%float)
    as [[w1 ret]|] eqn:E; [|discriminate].
  inversion H; subst w'; clear H.
  apply episode_loop_spec in E.
  destruct E as (new & T & R & TS & Ge & D & RL & Ep & P & Nr & St & F).
  destruct (record_return_spec cE ret w1) as (R1 & R2 & R3 & R4 & R5).
  exists new. simpl in *.
  fold (accumulate (rev (rewards h new)) 0%float) in R.
  fold (reward_sum h new) in R. subst ret.
  rewrite R5, T, R1, R2, R4, RL, Ep.
  repeat split; auto.
Qed.
End ReturnFacts.

Section TrainFacts.
Context {Act G L : Type} {GA : GymApi G} {AA : AgentApi Act L}.
Variable pack : Act -> mat.
Variable updates : TrainingConfig -> size_t.
Variable period : size_t.
Variable progress_line : size_t -> double -> size_t -> double -> size_t -> line.
Local Abbreviation world := (world Act G L).
Implicit Types w : world.

Local Abbreviation run_episode' := (run_episode pack updates period progress_line).
Local Abbreviation train_loop' := (train_loop pack updates period progress_line).
Local Abbreviation episodes_to' := (episodes_to pack updates period progress_line).

(** More fuel never changes a result. *)
Lemma episode_loop_mono fuel : forall fuel' h config w ret r,
  (fuel <= fuel')%nat ->
  episode_loop pack updates fuel h config w ret = Some r ->
  episode_loop pack updates fuel' h config w ret = Some r.
Proof.
  induction fuel as [|fuel IH]; intros fuel' h config w ret r Hle H;
    [discriminate|].
  destruct fuel' as [|fuel']; [lia|].
  simpl in *.
  destruct (train_step pack updates h config w ret) as [w1 ret1].
  destruct (done h (gym w1)); [exact H|].
  apply IH; [lia|exact H].
Qed.

Lemma run_episode_mono fuel fuel' h config cE w w' :
  (fuel <= fuel')%nat ->
  run_episode' fuel h config cE w = Some w' ->
  run_episode' fuel' h config cE w = Some w'.
Proof.
  unfold run_episode. intros Hle H.
  destruct (episode_loop pack updates fuel h config (reset h w) 0%float)
    as [r|] eqn:E; [|discriminate].
  rewrite (episode_loop_mono fuel fuel' h config _ _ r Hle E). exact H.
Qed.

Lemma train_loop_mono fuel : forall fuel' h config cE numSteps w w',
  (fuel <= fuel')%nat ->
  train_loop' fuel h config cE numSteps w = Some w' ->
  train_loop' fuel' h config cE numSteps w = Some w'.
Proof.
  induction fuel as [|fuel IH]; intros fuel' h config cE numSteps w w' Hle H;
    [discriminate|].
  destruct fuel' as [|fuel']; [lia|].
  simpl in *.
  destruct (TotalSteps (agent w) <? numSteps); [|exact H].
  destruct (run_episode' fuel h config cE w) as [w1|] eqn:E; [|discriminate].
  rewrite (run_episode_mono fuel fuel' h config cE w w1); [|lia|exact E].
  apply IH; [lia|exact H].
Qed.

(** The loop is left as soon as the counter is not below the budget. *)
Lemma train_loop_exit fuel h config cE numSteps w :
  numSteps <= TotalSteps (agent w) ->
  train_loop' (S fuel) h config cE numSteps w = Some w.
Proof.
  intros H. simpl.
  destruct (N.ltb_spec (TotalSteps (agent w)) numSteps); [lia|reflexivity].
Qed.

(** The loop runs completed episodes, each begun below the budget, and
    stops at the first boundary at which the budget is reached. *)
Lemma train_loop_spec fuel : forall h config cE numSteps w w',
  train_loop' fuel h config cE numSteps w = Some w' ->
  numSteps <= TotalSteps (agent w')
  /\ episodes_to' h config cE numSteps w w'.
Proof.
  induction fuel as [|fuel IH]; intros h config cE numSteps w w' H;
    [discriminate|].
  simpl in H.
  destruct (N.ltb_spec (TotalSteps (agent w)) numSteps) as [Hlt|Hge].
  - destruct (run_episode' fuel h config cE w) as [w1|] eqn:E; [|discriminate].
    apply IH in H. destruct H as [Hn Hto].
    split; [exact Hn|].
    eapply episodes_more; eauto.
  - inversion H; subst w'. split; [exact Hge|constructor].
Qed.

(** A run of episodes that crosses the budget has a final episode, begun
    below the budget. *)
Lemma episodes_to_last h config cE numSteps w w' :
  episodes_to' h config cE numSteps w w' ->
  TotalSteps (agent w) < numSteps ->
  numSteps <= TotalSteps (agent w') ->
  exists w_last fuel,
    episodes_to' h config cE numSteps w w_last
    /\ TotalSteps (agent w_last) < numSteps
    /\ run_episode' fuel h config cE w_last = Some w'.
Proof.
  induction 1 as [w|w w1 w2 fuel Hlt Hep Hto IH]; intros Hbelow Hreach.
  - lia.
  - destruct (N.ltb_spec (TotalSteps (agent w1)) numSteps) as [Hlt1|Hge1].
    + destruct (IH Hlt1 Hreach) as (w_last & fuel' & Hto' & Hl & He).
      exists w_last, fuel'. repeat split; auto.
      eapply episodes_more; eauto.
    + inversion Hto; subst.
      * exists w, fuel. repeat split; auto. constructor.
      * lia.
Qed.

(** What a run of episodes adds up to. *)
Lemma episodes_to_spec h config cE numSteps w w' :
  episodes_to' h config cE numSteps w w' ->
  exists new,
    trace w' = new ++ trace w
    /\ size_wrap (TotalSteps (agent w'))
       = size_wrap (TotalSteps (agent w) + n_steps h new)
    /\ size_wrap (episodes w')
       = size_wrap (episodes w + n_resets h new)
    /\ n_resets h new <= n_steps h new
    /\ Deterministic (agent w') = Deterministic (agent w)
    /\ N.of_nat (length (stores new)) = n_steps h new
    /\ Forall (eq (Deterministic (agent w))) (select_flags new)
    /\ (N.of_nat (length (returnList w)) <= cE ->
        N.of_nat (length (returnList w')) <= cE)
    /\ (TotalSteps (agent w) < 2 ^ 64 -> TotalSteps (agent w') < 2 ^ 64)
    /\ (n_steps h new = 0 -> w' = w).
Proof.
  induction 1 as [w|w w1 w2 fuel Hlt Hep Hto IH].
  - exists []. simpl. rewrite !N.add_0_r.
    repeat split; auto. reflexivity.
  - destruct IH as (new2 & T2 & S2 & E2 & L2 & D2 & St2 & F2 & W2 & B2 & Z2).
    apply run_episode_spec in Hep.
    destruct Hep as (steps & T1 & R1 & E1 & S1 & G1 & D1 & P1 & N1 & St1 & F1).
    simpl in T1, R1.
    set (pr := if episodes w1 mod period =? 0
               then [EvPrint (progress_line (N.of_nat (length (returnList w1)))
                        (arithmetic_mean (returnList w1)) (episodes w1)
                        (reward_sum h steps) (TotalSteps (agent w1)))]
               else []) in T1.
    assert (Hpr : rewards h pr = [] /\ n_resets h pr = 0 /\ stores pr = []
                  /\ select_flags pr = []).
    { unfold pr. destruct (episodes w1 mod period =? 0); repeat split. }
    destruct Hpr as (Pa & Pb & Pc & Pd).
    exists (new2 ++ pr ++ steps ++ [EvReset h]).
    assert (Hn : n_steps h (new2 ++ pr ++ steps ++ [EvReset h])
                 = n_steps h steps + n_steps h new2).
    { rewrite !n_steps_app. unfold n_steps at 2 4. rewrite Pa. simpl. lia. }
    assert (Hr : n_resets h (new2 ++ pr ++ steps ++ [EvReset h])
                 = 1 + n_resets h new2).
    { rewrite !n_resets_app, Pb, N1. cbn [n_resets]. rewrite handle_eqb_refl. lia. }
    rewrite Hn, Hr.
    repeat split.
    + rewrite T2, T1. rewrite <- !app_assoc. reflexivity.
    + rewrite S2, S1, size_wrap_add_l. f_equal. lia.
    + rewrite E2, E1. unfold size_incr. rewrite size_wrap_add_l. f_equal. lia.
    + lia.
    + congruence.
    + rewrite !stores_app, !length_app, Pc. simpl.
      replace (length (stores steps) + 0)%nat with (length (stores steps)) by lia.
      rewrite Nat2N.inj_add, St2, St1. lia.
    + rewrite !select_flags_app, Pd. simpl. rewrite app_nil_r.
      apply Forall_app. split; [rewrite <- D1; exact F2|exact F1].
    + intros Hw. apply W2. rewrite R1.
      rewrite (trimmed_is_keep_last cE (returnList w) _ Hw).
      apply length_keep_last.
    + intros _. apply B2. rewrite S1. apply size_wrap_lt.
    + lia.
Qed.
End TrainFacts.

Section TerminationFacts.
Context {Act G L : Type} {GA : GymApi G} {AA : AgentApi Act L}.
Variable pack : Act -> mat.
Variable updates : TrainingConfig -> size_t.
Variable period : size_t.
Variable progress_line : size_t -> double -> size_t -> double -> size_t -> line.
Local Abbreviation world := (world Act G L).
Implicit Types w : world.

Local Abbreviation episodes_to' := (episodes_to pack updates period progress_line).

(** A run of episodes extended by one more episode. *)
Lemma episodes_to_snoc h config cE numSteps w w1 w2 fuel :
  episodes_to' h config cE numSteps w w1 ->
  TotalSteps (agent w1) < numSteps ->
  run_episode pack updates period progress_line fuel h config cE w1 = Some w2 ->
  episodes_to' h config cE numSteps w w2.
Proof.
  induction 1 as [w|w wa wb f Hlt Hep Hto IH]; intros Hb He.
  - eapply episodes_more; [exact Hb|exact He|constructor].
  - eapply episodes_more; [exact Hlt|exact Hep|]. apply IH; assumption.
Qed.

(** If every episode the loop begins completes and leaves the counter
    larger, the outer loop returns. *)
Lemma train_loop_terminates h config cE numSteps w_entry :
  (forall w, episodes_to' h config cE numSteps w_entry w ->
     TotalSteps (agent w) < numSteps ->
     exists fuel w',
       run_episode pack updates period progress_line fuel h config cE w
         = Some w'
       /\ TotalSteps (agent w) < TotalSteps (agent w')) ->
  exists fuel w',
    train_loop pack updates period progress_line fuel h config cE numSteps
      w_entry = Some w'.
Proof.
  intros Hep.
  assert (Hn : forall n w,
    episodes_to' h config cE numSteps w_entry w ->
    (N.to_nat (numSteps - TotalSteps (agent w)) <= n)%nat ->
    exists fuel w',
      train_loop pack updates period progress_line fuel h config cE numSteps w
        = Some w').
  { induction n as [|n IH]; intros w Hreach Hm.
    - exists 1%nat, w. apply train_loop_exit. lia.
    - destruct (N.ltb_spec (TotalSteps (agent w)) numSteps) as [Hlt|Hge].
      + destruct (Hep w Hreach Hlt) as (fe & w1 & He & Hgrow).
        destruct (IH w1) as (fl & w' & Hl);
          [eapply episodes_to_snoc; eauto|lia|].
        exists (S (Nat.max fe fl)), w'. simpl.
        destruct (N.ltb_spec (TotalSteps (agent w)) numSteps); [|lia].
        rewrite (run_episode_mono pack updates period progress_line
                   fe (Nat.max fe fl) h config cE w w1); [|lia|exact He].
        apply (train_loop_mono pack updates period progress_line fl); [lia|].
        exact Hl.
      + exists 1%nat, w. apply train_loop_exit. exact Hge. }
  apply (Hn _ w_entry (episodes_none _ _ _ _ _ _ _ _ _) (Nat.le_refl _)).
Qed.
End TerminationFacts.

Section TestingFacts.
Context {Act G L : Type} {GA : GymApi G} {AA : AgentApi Act L}.
Variable pack : Act -> mat.
Local Abbreviation world := (world Act G L).
Implicit Types w : world.

Lemma test_pass_spec w :
  let w' := test_pass pack w in
  trace w' = test_events pack w ++ trace w
  /\ gym w' = stepped pack envTest w
  /\ TotalSteps (agent w') = TotalSteps (agent w)
  /\ Deterministic (agent w') = Deterministic (agent w)
  /\ returnList w' = returnList w
  /\ episodes w' = episodes w.
Proof.
  unfold test_pass, test_events, stepped, selected, selecting.
  set (w1 := set_State_Data (observation envTest (gym w)) w).
  destruct (SelectAction_fields w1) as (T & Gm & St & TS & Dt & RL & Ep).
  simpl in *. rewrite T, Gm. repeat split; congruence.
Qed.

Lemma test_loop_step fuel w totalReward totalSteps :
  test_loop pack (S fuel) w totalReward totalSteps
  = let w1 := test_pass pack w in
    let totalReward := (totalReward + reward envTest (gym w1))%float in
    let totalSteps := size_incr totalSteps in
    if done envTest (gym w1)
    then Some (print (total_line totalSteps totalReward) w1,
               totalReward, totalSteps)
    else test_loop pack fuel w1 totalReward totalSteps.
Proof. reflexivity. Qed.

(** The testing loop: what it returns when it returns. *)
Lemma test_loop_spec fuel : forall w tr ts w' tr' ts',
  test_loop pack fuel w tr ts = Some (w', tr', ts') ->
  exists new k,
    trace w' = EvPrint (total_line ts' tr') :: new ++ trace w
    /\ tr' = fold_left PrimFloat.add (rev (rewards envTest new)) tr
    /\ ts' = size_wrap (ts + N.of_nat (S k))
    /\ dones envTest new = true :: repeat false k
    /\ (S k <= fuel)%nat
    /\ done envTest (gym w') = true
    /\ Forall (eq (Deterministic (agent w))) (select_flags new)
    /\ TotalSteps (agent w') = TotalSteps (agent w)
    /\ Deterministic (agent w') = Deterministic (agent w)
    /\ returnList w' = returnList w
    /\ episodes w' = episodes w
    /\ stores new = [] /\ n_updates new = 0 /\ printed new = []
    /\ (forall h, n_resets h new = 0)
    /\ n_steps env new = 0.
Proof.
  induction fuel as [|fuel IH]; intros w tr ts w' tr' ts' H; [discriminate|].
  rewrite test_loop_step in H. cbv zeta in H.
  destruct (test_pass_spec w) as (T & Gm & TS & Dt & RL & Ep).
  cbv zeta in T, Gm, TS, Dt, RL, Ep.
  destruct (done envTest (gym (test_pass pack w))) eqn:Hdone.
  - inversion H; subst w' tr' ts'; clear H.
    exists (test_events pack w), 0%nat.
    unfold print, log. cbn [trace gym agent returnList episodes].
    rewrite T. unfold size_incr.
    assert (Hev : dones envTest (test_events pack w) = [true]
                  /\ rewards envTest (test_events pack w)
                     = [reward envTest (gym (test_pass pack w))]).
    { rewrite Gm in *. unfold test_events. simpl. rewrite Hdone. split; reflexivity. }
    destruct Hev as [Hd Hr]. rewrite Hd, Hr.
    repeat split; auto; try lia.
    constructor; auto.
  - apply IH in H.
    destruct H as (new & k & T' & R' & S' & D' & Fu & Dn & F' & TS' & Dt' & RL'
                   & Ep' & St' & U' & P' & Nr' & Ns').
    exists (new ++ test_events pack w), (S k).
    rewrite T', T, <- app_assoc.
    rewrite rewards_app, dones_app, select_flags_app, stores_app,
      n_updates_app, printed_app, n_steps_app, rev_app_distr.
    assert (Hev : dones envTest (test_events pack w) = [false]
                  /\ rewards envTest (test_events pack w)
                     = [reward envTest (gym (test_pass pack w))]).
    { rewrite Gm in *. unfold test_events. simpl. rewrite Hdone. split; reflexivity. }
    destruct Hev as [Hd Hr]. rewrite Hd, Hr.
    rewrite D', St', U', P', Ns'. simpl.
    repeat split; auto; try congruence; try lia.
    + rewrite S'. unfold size_incr. rewrite size_wrap_add_l. f_equal. lia.
    + f_equal. clear. induction k; simpl; [reflexivity|]. now f_equal.
    + apply Forall_app. split; [rewrite <- Dt; exact F'|].
      constructor; auto.
    + intros h. rewrite n_resets_app, Nr'. reflexivity.
Qed.

End TestingFacts.

Section StepProperties.
Context {Act G L : Type} {GA : GymApi G} {AA : AgentApi Act L}.
Variable pack : Act -> mat.
Variable updates : TrainingConfig -> size_t.
Variable period : size_t.
Variable progress_line : size_t -> double -> size_t -> double -> size_t -> line.
Local Abbreviation world := (world Act G L).

(** The events of one pass, whatever the number of updates. *)
Lemma train_step_events h config (w : world) ret :
  let w' := fst (train_step pack updates h config w ret) in
  exists new,
    trace w' = new ++ trace w
    /\ n_steps h new = 1
    /\ stores new = [expected_transition pack h w]
    /\ n_updates new
       = (if learns config w then updates config else 0)
    /\ select_flags new = [Deterministic (agent w)].
Proof.
  destruct (train_step_spec pack updates h config w ret)
    as (_ & Htr & _).
  cbv zeta in *.
  set (k := if learns config w then N.to_nat (updates config) else 0%nat) in Htr.
  destruct (updates_only (Act:=Act) k) as (U1 & U2 & U3 & U4 & U5 & U6 & U7).
  destruct (step_events_observed pack h w) as (S1 & S2 & S3 & S4 & S5 & S6 & S7).
  exists (repeat EvUpdate k ++ step_events pack h w).
  rewrite <- app_assoc. split; [exact Htr|].
  rewrite n_steps_app, stores_app, n_updates_app, select_flags_app.
  unfold n_steps. rewrite U1, U3, U4, U6, S1, S3, S4, S6. simpl.
  repeat split.
  unfold k. destruct (learns config w); lia.
Qed.

Lemma generic_stores_one_transition :
  stores_one_transition pack (train_step pack updates).
Proof.
  intros h config w ret w'.
  destruct (train_step_events h config w ret) as (new & T & N1 & St & _).
  destruct (train_step_spec pack updates h config w ret)
    as (_ & _ & _ & Hts & _).
  exists new. repeat split; auto.
  intros Hlt. unfold w'. rewrite Hts. apply size_incr_small. exact Hlt.
Qed.

Lemma generic_updates_from_threshold :
  updates_from_threshold updates (train_step pack updates).
Proof.
  intros h config w ret w'.
  destruct (train_step_events h config w ret) as (new & T & N1 & _ & U & _).
  destruct (train_step_spec pack updates h config w ret)
    as (_ & _ & _ & Hts & _).
  exists new. fold w' in Hts. rewrite Hts, U. unfold learns.
  repeat split; auto.
  - intros Hlt. apply N.ltb_lt in Hlt. rewrite Hlt, orb_true_r. reflexivity.
  - intros Hge Hdet. apply N.ltb_ge in Hge. rewrite Hge, Hdet. reflexivity.
Qed.

Lemma generic_trains_with_flag_off :
  trains_with_flag_off (Train pack updates period progress_line).
Proof.
  intros fuel h config cE numSteps w w' H. unfold Train in H.
  apply train_loop_spec in H. destruct H as [_ Hto].
  apply episodes_to_spec in Hto.
  destruct Hto as (new & T & _ & _ & _ & D & _ & F & _).
  simpl in T, D, F.
  exists (new ++ [EvPrint [Str "Training for "; Size numSteps; Str " steps."]]).
  rewrite <- app_assoc. split; [exact T|].
  rewrite select_flags_app. simpl. rewrite app_nil_r. split; assumption.
Qed.
End StepProperties.

Section EpisodeProperties.
Context {Act G L : Type} {GA : GymApi G} {AA : AgentApi Act L}.
Variable pack : Act -> mat.
Variable updates : TrainingConfig -> size_t.
Variable period : size_t.
Variable progress_line : size_t -> double -> size_t -> double -> size_t -> line.
Local Abbreviation world := (world Act G L).
Local Abbreviation run_episode' := (run_episode pack updates period progress_line).

(** The progress line of an episode, as a stretch of trace. *)
Lemma progress_observed (b : bool) (l : line) (h : handle) :
  let pr := if b then [@EvPrint Act l] else [] in
  printed pr = (if b then [l] else [])
  /\ n_steps h pr = 0.
Proof. destruct b; split; reflexivity. Qed.

Lemma generic_window_kept_by_episode :
  window_kept_by_episode run_episode' progress_line.
Proof.
  intros fuel h config cE w w' Hw H.
  apply run_episode_spec in H.
  destruct H as (steps & T & R & E & S & Ge & D & P & Nr & St & F).
  cbv zeta in T, R.
  rewrite (trimmed_is_keep_last cE (returnList w) _ Hw) in R.
  match type of T with _ = ?pr ++ _ =>
    exists (pr ++ steps ++ [EvReset h]), (reward_sum h steps) end.
  split; [rewrite T, <- !app_assoc; reflexivity|].
  split; [exact R|].
  split; [unfold window_ok; rewrite R; apply length_keep_last|].
  intros l Hl. rewrite !printed_app, P in Hl. simpl in Hl.
  rewrite app_nil_r in Hl.
  destruct (episodes w' mod period =? 0); simpl in Hl.
  - destruct Hl as [Hl|[]]. symmetry. exact Hl.
  - destruct Hl.
Qed.

Lemma generic_window_kept_by_Train :
  window_kept_by_Train (Train pack updates period progress_line).
Proof.
  intros fuel h config cE numSteps w w' Hw H. unfold Train in H.
  apply train_loop_spec in H. destruct H as [_ Hto].
  apply episodes_to_spec in Hto.
  destruct Hto as (new & _ & _ & _ & _ & _ & _ & _ & W & _).
  apply W. exact Hw.
Qed.

Lemma last_of_trimmed (cE : size_t) (rl : list double) (x : double) :
  0 < cE ->
  last (if cE <? N.of_nat (length (rl ++ [x])) then tl (rl ++ [x])
        else rl ++ [x]) 0%float = x.
Proof.
  intros Hpos.
  destruct (N.ltb_spec cE (N.of_nat (length (rl ++ [x])))) as [Hlt|_].
  - destruct rl as [|y rl]; simpl in *; [lia|]. apply last_last.
  - apply last_last.
Qed.

Lemma generic_return_is_reward_sum : return_is_reward_sum run_episode'.
Proof.
  intros fuel h config cE w w' H.
  apply run_episode_spec in H.
  destruct H as (steps & T & R & E & S & Ge & D & P & Nr & St & F).
  cbv zeta in T, R.
  eexists. exists steps. split; [exact T|].
  split; [apply progress_observed|].
  repeat split; auto.
  intros Hpos. rewrite R. apply last_of_trimmed. exact Hpos.
Qed.

Lemma generic_progress_shows_window
    (Hline : forall size avg eps ret steps,
       In (Size size) (progress_line size avg eps ret steps)
       /\ In (Dbl avg) (progress_line size avg eps ret steps)
       /\ In (Dbl ret) (progress_line size avg eps ret steps)
       /\ In (Size steps) (progress_line size avg eps ret steps)) :
  progress_shows_window run_episode' period progress_line.
Proof.
  intros fuel h config cE w w' H.
  apply run_episode_spec in H.
  destruct H as (steps & T & R & E & S & Ge & D & P & Nr & St & F).
  cbv zeta in T, R.
  match type of T with _ = ?pr ++ _ => exists pr, steps end.
  split; [exact T|].
  destruct (progress_observed (episodes w' mod period =? 0)
              (progress_line (N.of_nat (length (returnList w')))
                 (arithmetic_mean (returnList w')) (episodes w')
                 (reward_sum h steps) (TotalSteps (agent w'))) h)
    as (Hp & Hn).
  cbv zeta in Hp, Hn.
  split; [exact Hn|]. split; [exact Ge|]. split; [exact Nr|].
  split; [exact P|]. split; [exact Hp|].
  rewrite Hp. intros l Hl.
  destruct (episodes w' mod period =? 0); [|destruct Hl].
  destruct Hl as [<-|[]]. apply Hline.
Qed.
End EpisodeProperties.


Section CarFacts.
Context {G L : Type} {GA : GymApi G} {AC : AgentApi MountainCar.EnvAction L}.
Local Abbreviation world := (world MountainCar.EnvAction G L).

(** The step and the store of one pass of the mountain-car loop. *)
Lemma car_step_and_store h config (w : world) ret new a r d t :
  trace (fst (MountainCar.train_step h config w ret)) = new ++ trace w ->
  In (EvStep h a r d) new ->
  In (EvStore t) new ->
  a = MountainCar.pack (selected h w) /\ t = expected_transition MountainCar.pack h w.
Proof.
  intros T Hs Ht.
  destruct (train_step_spec MountainCar.pack MountainCar.updates h config w ret)
    as (_ & Htr & _).
  cbv zeta in Htr. unfold MountainCar.train_step in T.
  rewrite T, app_assoc in Htr. apply app_inv_tail in Htr. subst new.
  apply in_app_or in Hs. apply in_app_or in Ht.
  split.
  - destruct Hs as [Hs|Hs].
    + apply repeat_spec in Hs. discriminate.
    + simpl in Hs. destruct Hs as [Hs|[Hs|[Hs|[]]]]; try discriminate.
      now inversion Hs.
  - destruct Ht as [Ht|Ht].
    + apply repeat_spec in Ht. discriminate.
    + simpl in Ht. destruct Ht as [Ht|[Ht|[Ht|[]]]]; try discriminate.
      now inversion Ht.
Qed.
End CarFacts.

Section RunProperties.
Context {Act G L : Type} {GA : GymApi G} {AA : AgentApi Act L}.
Variable pack : Act -> mat.
Variable updates : TrainingConfig -> size_t.
Variable period : size_t.
Variable progress_line : size_t -> double -> size_t -> double -> size_t -> line.
Local Abbreviation world := (world Act G L).
Local Abbreviation run_episode' := (run_episode pack updates period progress_line).
Local Abbreviation Train' := (Train pack updates period progress_line).
Local Abbreviation episodes_to' := (episodes_to pack updates period progress_line).

Lemma generic_no_episode_when_reached : no_episode_when_reached Train'.
Proof.
  intros fuel h config cE numSteps w H. unfold Train.
  apply train_loop_exit. exact H.
Qed.

Lemma generic_budget_is_on_the_counter :
  budget_is_on_the_counter Train' episodes_to'.
Proof.
  intros fuel h config cE numSteps w w' H. unfold Train in H.
  apply train_loop_spec in H. destruct H as [Hge Hto].
  fold (Train_entry numSteps w) in Hto.
  destruct (episodes_to_spec pack updates period progress_line _ _ _ _ _ _ Hto)
    as (new & T & S & _ & Lr & _ & _ & _ & _ & B & Z).
  simpl in T, S, B.
  set (announce := EvPrint [Str "Training for "; Size numSteps; Str " steps."]) in T.
  assert (Hn : n_steps h (new ++ [announce]) = n_steps h new).
  { rewrite n_steps_app. unfold n_steps at 2. simpl. lia. }
  assert (Hr : n_resets h (new ++ [announce]) = n_resets h new).
  { rewrite n_resets_app. simpl. lia. }
  exists (new ++ [announce]). rewrite Hn, Hr.
  split_conj.
  - rewrite T, <- app_assoc. reflexivity.
  - exact Hto.
  - exact Hge.
  - exact S.
  - intros Hsmall. rewrite (size_wrap_small _ Hsmall) in S.
    rewrite <- S. symmetry. apply size_wrap_small. apply B. lia.
  - intros Hreached. inversion Hto; subst.
    + change (trace (Train_entry numSteps w)) with (announce :: trace w) in T.
      assert (new = []) as ->.
      { apply (app_inv_tail (announce :: trace w)). symmetry. exact T. }
      split; reflexivity.
    + simpl in *. lia.
Qed.

Lemma generic_Train_returns :
  Train_returns Train' run_episode' episodes_to'.
Proof.
  intros h config cE numSteps w Hep.
  destruct (train_loop_terminates pack updates period progress_line
              h config cE numSteps (Train_entry numSteps w) Hep)
    as (fuel & w' & H).
  exists fuel, w'. split; [exact H|].
  apply train_loop_spec in H. destruct H as [Hge Hto].
  split; [exact Hge|].
  intros Hbelow.
  destruct (episodes_to_last pack updates period progress_line
              h config cE numSteps _ _ Hto Hbelow Hge)
    as (w_last & fl & Hto' & Hl & He).
  destruct (run_episode_spec pack updates period progress_line _ _ _ _ _ _ He)
    as (steps & T & _ & _ & S & _).
  cbv zeta in T.
  match type of T with _ = ?pr ++ _ =>
    exists w_last, fl, (pr ++ steps ++ [EvReset h]);
    assert (Hn : n_steps h (pr ++ steps ++ [EvReset h]) = n_steps h steps)
  end.
  { rewrite !n_steps_app.
    destruct (episodes w' mod period =? 0); unfold n_steps; simpl; lia. }
  rewrite Hn.
  split_conj; auto.
  - rewrite T, <- !app_assoc. reflexivity.
  - rewrite S. pose proof (size_wrap_le (TotalSteps (agent w_last) + n_steps h steps)).
    lia.
Qed.
End RunProperties.

Section TestingProperties.
Context {Act G L : Type} {GA : GymApi G} {AA : AgentApi Act L}.
Variable pack : Act -> mat.
Local Abbreviation world := (world Act G L).


End TestingProperties.

Section MainFacts.
Context {G L : Type} {GA : GymApi G}.
Context {AL : AgentApi Lander.EnvAction L}.
Context {AC : AgentApi MountainCar.EnvAction L}.

(** The loop body of the lander's [Train], written out. *)
Lemma lander_train_step_body h config (w : world Lander.EnvAction G L)
    (episodeReturn : double) :
  Lander.train_step h config w episodeReturn
  = let w := set_State_Data (observation h (gym w)) w in
    let w := SelectAction w in
    let action := [size_to_double (Lander.action (Action (agent w)))] in
    let w := step h action w in
    let nextState := {| Data := observation h (gym w) |} in
    let w := Store {| tr_state := State (agent w);
                      tr_action := Action (agent w);
                      tr_reward := reward h (gym w);
                      tr_nextState := nextState;
                      tr_isEnd := done h (gym w);
                      tr_discount := 0.99%float |} w in
    let episodeReturn := (episodeReturn + reward h (gym w))%float in
    let w := incr_TotalSteps w in
    if Deterministic (agent w)
       || (TotalSteps (agent w) <? ExplorationSteps config)
    then (w, episodeReturn)
    else (Update config w, episodeReturn).
Proof. reflexivity. Qed.

(** The loop body of the mountain car's [Train], written out. *)
Lemma car_train_step_body h config (w : world MountainCar.EnvAction G L)
    (episodeReturn : double) :
  MountainCar.train_step h config w episodeReturn
  = let w := set_State_Data (observation h (gym w)) w in
    let w := SelectAction w in
    let action :=
      [(Vector.hd (MountainCar.action (Action (agent w))) * 2)%float] in
    let w := step h action w in
    let nextState := {| Data := observation h (gym w) |} in
    let w := Store {| tr_state := State (agent w);
                      tr_action := Action (agent w);
                      tr_reward := reward h (gym w);
                      tr_nextState := nextState;
                      tr_isEnd := done h (gym w);
                      tr_discount := 0.99%float |} w in
    let episodeReturn := (episodeReturn + reward h (gym w))%float in
    let w := incr_TotalSteps w in
    if Deterministic (agent w)
       || (TotalSteps (agent w) <? ExplorationSteps config)
    then (w, episodeReturn)
    else (N.iter (UpdateInterval config) (Update config) w, episodeReturn).
Proof. reflexivity. Qed.





(** The evaluation blocks leave the counters and the list alone. *)
Lemma lander_testing1_counts :
  testing_keeps_counts (G:=G) (L:=L) Lander.testing1.
Proof.
  intros fuel w w' H. unfold Lander.testing1 in H.
  match type of H with
  | match Lander.test_loop _ ?ws _ _ with _ => _ end = _ =>
      destruct (Lander.test_loop fuel ws 0%float 0) as [[[we tr] ts]|] eqn:E;
      [|discriminate]
  end.
  inversion H; subst w'; clear H.
  apply test_loop_spec in E.
  destruct E as (new & k & _ & _ & _ & _ & _ & _ & _ & TS & _ & RL & Ep & _).
  simpl in *. split_conj; assumption.
Qed.

Lemma lander_testing2_counts :
  testing_keeps_counts (G:=G) (L:=L) Lander.testing2.
Proof.
  intros fuel w w' H. unfold Lander.testing2 in H.
  match type of H with
  | match Lander.test_loop _ ?ws _ _ with _ => _ end = _ =>
      destruct (Lander.test_loop fuel ws 0%float 0) as [[[we tr] ts]|] eqn:E;
      [|discriminate]
  end.
  inversion H; subst w'; clear H.
  apply test_loop_spec in E.
  destruct E as (new & k & _ & _ & _ & _ & _ & _ & _ & TS & _ & RL & Ep & _).
  simpl in *. split_conj; assumption.
Qed.

Lemma car_testing_counts :
  testing_keeps_counts (G:=G) (L:=L) MountainCar.testing.
Proof.
  intros fuel w w' H. unfold MountainCar.testing in H.
  match type of H with
  | match MountainCar.test_loop _ ?ws _ _ with _ => _ end = _ =>
      destruct (MountainCar.test_loop fuel ws 0%float 0)
        as [[[we tr] ts]|] eqn:E;
      [|discriminate]
  end.
  inversion H; subst w'; clear H.
  apply test_loop_spec in E.
  destruct E as (new & k & _ & _ & _ & _ & _ & _ & _ & TS & _ & RL & Ep & _).
  simpl in *. split_conj; assumption.
Qed.

Lemma lander_main_window :
  main_keeps_window (G:=G) (L:=L) Lander.main Lander.consecutiveEpisodes.
Proof.
  intros fuel default g l a w_end H. unfold Lander.main in H.
  set (w0 := connect env "localhost" "4040" "LunarLander-v2" (start g l a)) in *.
  destruct (Lander.Train fuel env (Lander.config default)
              Lander.consecutiveEpisodes 10000 w0) as [w1|] eqn:E1;
    [|discriminate].
  destruct (Lander.testing1 fuel w1) as [w2|] eqn:E2; [|discriminate].
  destruct (Lander.Train fuel env (Lander.config default)
              Lander.consecutiveEpisodes 100000 w2) as [w3|] eqn:E3;
    [|discriminate].
  assert (H0 : window_ok Lander.consecutiveEpisodes w0) by apply N.le_0_l.
  pose proof (generic_window_kept_by_Train _ _ _ _ _ _ _ _ _ _ _ H0 E1) as H1.
  destruct (lander_testing1_counts _ _ _ E2) as (R2 & _).
  assert (H2 : window_ok Lander.consecutiveEpisodes w2)
    by (unfold window_ok; rewrite R2; exact H1).
  pose proof (generic_window_kept_by_Train _ _ _ _ _ _ _ _ _ _ _ H2 E3) as H3.
  destruct (lander_testing2_counts _ _ _ H) as (R4 & _).
  unfold window_ok. rewrite R4. exact H3.
Qed.

Lemma car_main_window :
  main_keeps_window (G:=G) (L:=L) MountainCar.main
    MountainCar.consecutiveEpisodes.
Proof.
  intros fuel default g l a w_end H. unfold MountainCar.main in H.
  set (w0 := connect env "localhost" "4040" "MountainCarContinuous-v0"
               (start g l a)) in *.
  destruct (MountainCar.Train fuel env (MountainCar.config default)
              MountainCar.consecutiveEpisodes 10000 w0) as [w1|] eqn:E1;
    [|discriminate].
  assert (H0 : window_ok MountainCar.consecutiveEpisodes w0) by apply N.le_0_l.
  pose proof (generic_window_kept_by_Train _ _ _ _ _ _ _ _ _ _ _ H0 E1) as H1.
  destruct (car_testing_counts _ _ _ H) as (R2 & _).
  unfold window_ok. rewrite R2. exact H1.
Qed.

Lemma lander_second_call : second_call_continues_the_count (G:=G) (L:=L).
Proof.
  intros fuel default w0 w_end H. unfold Lander.main in H.
  set (w0' := connect env "localhost" "4040" "LunarLander-v2" w0) in *.
  destruct (Lander.Train fuel env (Lander.config default)
              Lander.consecutiveEpisodes 10000 w0') as [w1|] eqn:E1;
    [|discriminate].
  destruct (Lander.testing1 fuel w1) as [w2|] eqn:E2; [|discriminate].
  destruct (Lander.Train fuel env (Lander.config default)
              Lander.consecutiveEpisodes 100000 w2) as [w3|] eqn:E3;
    [|discriminate].
  destruct (lander_testing1_counts _ _ _ E2) as (_ & _ & Hsame).
  destruct (generic_budget_is_on_the_counter Lander.pack Lander.updates
              Lander.period Lander.progress_line _ _ _ _ _ _ _ E1)
    as (new1 & _ & _ & Hge1 & _).
  destruct (generic_budget_is_on_the_counter Lander.pack Lander.updates
              Lander.period Lander.progress_line _ _ _ _ _ _ _ E3)
    as (new & T & Hto & Hge & _ & Hadd & Hzero).
  rewrite Hsame in Hadd, Hzero.
  exists w1, w2, w3, new. split_conj; auto.
Qed.
End MainFacts.

Section ToyFacts.
Context {Act : Type} (a : Act).
Variable pack : Act -> mat.
Variable updates : TrainingConfig -> size_t.
Variable period : size_t.
Variable progress_line : size_t -> double -> size_t -> double -> size_t -> line.
Local Abbreviation world := (world Act Toy.sim N).
Local Abbreviation GA2 := (Toy.api 2).
Local Abbreviation AA2 := (Toy.agent_api a).

(** Against two-step episodes every episode completes, whatever world it
    starts in, and adds two to the counter. *)
Lemma toy_episode_completes config cE (w0 : world) :
  exists w1,
    run_episode (GA:=GA2) (AA:=AA2) pack updates period
      progress_line 2 env config cE w0 = Some w1
    /\ TotalSteps (agent w1)
       = size_incr (size_incr (TotalSteps (agent w0))).
Proof.
  unfold run_episode. cbn [episode_loop].
  destruct (train_step_spec (GA:=GA2) (AA:=AA2)
              pack updates env config (reset (GA:=GA2) env w0) 0%float)
    as (_ & _ & Hg1 & Ht1 & _).
  destruct (train_step (GA:=GA2) (AA:=AA2) pack updates env config
              (reset (GA:=GA2) env w0) 0%float) as [w1 r1].
  cbn [fst] in Hg1, Ht1.
  destruct (train_step_spec (GA:=GA2) (AA:=AA2)
              pack updates env config w1 r1)
    as (_ & _ & Hg2 & Ht2 & _).
  destruct (train_step (GA:=GA2) (AA:=AA2) pack updates env config w1 r1)
    as [w2 r2].
  cbn [fst] in Hg2, Ht2.
  assert (D1 : done (GymApi:=GA2) env (gym w1) = false)
    by (rewrite Hg1; reflexivity).
  assert (D2 : done (GymApi:=GA2) env (gym w2) = true).
  { rewrite Hg2. unfold stepped. rewrite Hg1. reflexivity. }
  rewrite D1, D2. eexists. split; [reflexivity|].
  destruct (record_return_spec period progress_line cE r2 w2)
    as (_ & _ & _ & Hag & _).
  cbv zeta in Hag. rewrite Hag, Ht2, Ht1. reflexivity.
Qed.

(** Two increments keep the counter even and in range. *)
Lemma size_incr_twice_even (n : N) :
  N.even n = true ->
  N.even (size_incr (size_incr n)) = true
  /\ size_incr (size_incr n) < SIZE_MAX.
Proof.
  intros He. unfold size_incr. rewrite size_wrap_add_l.
  apply N.even_spec in He. destruct He as [k ->].
  assert (E : size_wrap (2 * k + 1 + 1) = 2 * ((k + 1) mod 2 ^ 63)).
  { unfold size_wrap. change (2 ^ 64) with (2 * 2 ^ 63).
    replace (2 * k + 1 + 1) with (2 * (k + 1)) by lia.
    apply N.Div0.mul_mod_distr_l. }
  rewrite E. split.
  - rewrite N.even_mul. reflexivity.
  - pose proof (N.mod_upper_bound (k + 1) (2 ^ 63)) as Hb.
    assert (E63 : 2 ^ 63 = 9223372036854775808) by reflexivity.
    unfold SIZE_MAX. change (2 ^ 64) with 18446744073709551616.
    rewrite E63 in *. lia.
Qed.

(** With a budget of [SIZE_MAX], two-step episodes and an even counter the
    outer loop never returns: the counter stays even, so it never reaches
    the odd budget, and it wraps around before it could pass it. *)
Lemma toy_train_loop_diverges config cE (fuel : nat) :
  forall w0 : world,
    N.even (TotalSteps (agent w0)) = true ->
    TotalSteps (agent w0) < SIZE_MAX ->
    train_loop (GA:=GA2) (AA:=AA2) pack updates period progress_line fuel env
      config cE SIZE_MAX w0 = None.
Proof.
  induction fuel as [|fuel IH]; intros w0 He Hlt; [reflexivity|].
  simpl. destruct (N.ltb_spec (TotalSteps (agent w0)) SIZE_MAX); [|lia].
  destruct (run_episode pack updates period progress_line fuel env config cE w0)
    as [w1|] eqn:E; [|reflexivity].
  destruct (toy_episode_completes config cE w0) as (w1' & E' & Hts).
  assert (w1 = w1') as ->.
  { apply (run_episode_mono _ _ _ _ _ (Nat.max fuel 2)) in E; [|lia].
    apply (run_episode_mono _ _ _ _ _ (Nat.max fuel 2)) in E'; [|lia].
    congruence. }
  destruct (size_incr_twice_even _ He) as [He' Hlt'].
  apply IH; rewrite Hts; assumption.
Qed.
End ToyFacts.

(** ** Shapes of what the drivers hand on *)

Section ShapeFacts.
Context {Act G L : Type} {GA : GymApi G} {AA : AgentApi Act L}.
Variable pack : Act -> mat.
Variable updates : TrainingConfig -> size_t.
Variable period : size_t.
Variable progress_line : size_t -> double -> size_t -> double -> size_t -> line.
Variable P : event Act -> Prop.
Local Abbreviation world := (world Act G L).
Implicit Types w : world.

Hypothesis P_step : forall h w, Forall P (step_events pack h w).
Hypothesis P_test : forall w, Forall P (test_events pack w).
Hypothesis P_other : forall e,
  match e with
  | EvSelect _ _ | EvStep _ _ _ _ | EvStore _ => False
  | _ => True
  end -> P e.

Lemma shaped_refl w : calls_shaped P w w.
Proof. exists []. split; [reflexivity|constructor]. Qed.

Lemma shaped_trans w w1 w2 :
  calls_shaped P w w1 -> calls_shaped P w1 w2 -> calls_shaped P w w2.
Proof.
  intros (n1 & T1 & F1) (n2 & T2 & F2). exists (n2 ++ n1). split.
  - rewrite T2, T1, app_assoc. reflexivity.
  - apply Forall_app. split; assumption.
Qed.

Lemma shaped_more w w' new :
  trace w' = new ++ trace w -> Forall P new -> calls_shaped P w w'.
Proof. intros T F. exists new. split; assumption. Qed.

Lemma shaped_log (e : event Act) w w' :
  trace w' = e :: trace w ->
  match e with
  | EvSelect _ _ | EvStep _ _ _ _ | EvStore _ => False
  | _ => True
  end -> calls_shaped P w w'.
Proof.
  intros T He. apply (shaped_more _ _ [e]); [exact T|].
  constructor; [apply P_other; exact He|constructor].
Qed.

Lemma train_step_shaped : step_shaped P (train_step pack updates).
Proof.
  intros h config w ret.
  destruct (train_step_spec pack updates h config w ret) as (_ & T & _).
  cbv zeta in T. rewrite app_assoc in T.
  apply (shaped_more _ _ _ T). apply Forall_app. split; [|apply P_step].
  apply Forall_forall. intros e He. apply repeat_spec in He. subst e.
  apply P_other. exact I.
Qed.

Lemma test_pass_is_shaped : test_pass_shaped P pack.
Proof.
  intros w. destruct (test_pass_spec pack w) as (T & _). cbv zeta in T.
  apply (shaped_more _ _ _ T). apply P_test.
Qed.

Lemma episode_loop_shaped fuel : forall h config w ret w' ret',
  episode_loop pack updates fuel h config w ret = Some (w', ret') ->
  calls_shaped P w w'.
Proof.
  induction fuel as [|fuel IH]; intros h config w ret w' ret' H;
    [discriminate|].
  simpl in H.
  pose proof (train_step_shaped h config w ret) as S1.
  destruct (train_step pack updates h config w ret) as [w1 ret1].
  cbn [fst] in S1.
  destruct (done h (gym w1)).
  - inversion H; subst w' ret'. exact S1.
  - apply IH in H. apply (shaped_trans _ _ _ S1 H).
Qed.

Lemma run_episode_shaped fuel h config cE w w' :
  run_episode pack updates period progress_line fuel h config cE w = Some w' ->
  calls_shaped P w w'.
Proof.
  unfold run_episode. intros H.
  destruct (episode_loop pack updates fuel h config (reset h w) 0%float)
    as [[w1 ret]|] eqn:E; [|discriminate].
  inversion H; subst w'; clear H.
  apply episode_loop_shaped in E.
  apply (shaped_trans _ (reset h w)); [apply (shaped_log (EvReset h)); [reflexivity|exact I]|].
  apply (shaped_trans _ w1); [exact E|].
  destruct (record_return_spec period progress_line cE ret w1)
    as (_ & _ & _ & _ & T).
  cbv zeta in T. apply (shaped_more _ _ _ T).
  destruct (_ =? 0); [|constructor].
  constructor; [apply P_other; exact I|constructor].
Qed.

Lemma train_loop_shaped fuel : forall h config cE numSteps w w',
  train_loop pack updates period progress_line fuel h config cE numSteps w
  = Some w' ->
  calls_shaped P w w'.
Proof.
  induction fuel as [|fuel IH]; intros h config cE numSteps w w' H;
    [discriminate|].
  simpl in H. destruct (TotalSteps (agent w) <? numSteps).
  - destruct (run_episode pack updates period progress_line fuel h config cE w)
      as [w1|] eqn:E; [|discriminate].
    apply run_episode_shaped in E. apply IH in H.
    apply (shaped_trans _ _ _ E H).
  - inversion H; subst w'. apply shaped_refl.
Qed.

Lemma Train_is_shaped :
  Train_shaped P (Train pack updates period progress_line).
Proof.
  intros fuel h config cE numSteps w w' H. unfold Train in H.
  apply train_loop_shaped in H.
  refine (shaped_trans _ _ _ _ H).
  eapply (shaped_log (EvPrint _)); [reflexivity|exact I].
Qed.

Lemma test_loop_shaped fuel : forall w tr ts w' tr' ts',
  test_loop pack fuel w tr ts = Some (w', tr', ts') ->
  calls_shaped P w w'.
Proof.
  induction fuel as [|fuel IH]; intros w tr ts w' tr' ts' H; [discriminate|].
  rewrite test_loop_step in H. cbv zeta in H.
  pose proof (test_pass_is_shaped w) as S1.
  destruct (done envTest (gym (test_pass pack w))).
  - inversion H; subst w' tr' ts'; clear H.
    refine (shaped_trans _ _ _ S1 _). eapply (shaped_log (EvPrint _)); [reflexivity|exact I].
  - apply IH in H. apply (shaped_trans _ _ _ S1 H).
Qed.
End ShapeFacts.

Section SelectionFacts.
Context {Act G L : Type} {GA : GymApi G} {AA : AgentApi Act L}.
Implicit Types w : world Act G L.

Lemma selected_is_impl h w :
  selected h w
  = fst (SelectAction_impl
           (agent (set_State_Data (observation h (gym w)) w))).
Proof.
  unfold selected, selecting, SelectAction.
  destruct (SelectAction_impl _) as [x l]. reflexivity.
Qed.

Lemma selecting_state h w :
  State (agent (selecting h w)) = {| Data := observation h (gym w) |}.
Proof.
  unfold selecting.
  destruct (SelectAction_fields (set_State_Data (observation h (gym w)) w))
    as (_ & _ & St & _).
  cbv zeta in St. rewrite St. reflexivity.
Qed.
End SelectionFacts.

Section LanderShapes.
Context {G L : Type} {GA : GymApi G} {AL : AgentApi Lander.EnvAction L}.
Hypothesis Hobs : observations_of (G:=G) Lander.Environment.
Hypothesis Hsel : selects_index_of (L:=L) Lander.Environment.
Implicit Types w : world Lander.EnvAction G L.

Lemma lander_agent_sees :
  agent_sees (Act:=Lander.EnvAction) (G:=G) (L:=L) 8.
Proof. intros h w. rewrite selecting_state. apply Hobs. Qed.

Lemma lander_selected_below h w : Lander.action (selected h w) < 4.
Proof. rewrite selected_is_impl. apply Hsel. Qed.

Lemma lander_step_events h w :
  Forall lander_event (step_events Lander.pack h w).
Proof.
  unfold step_events. repeat constructor; cbn.
  - apply Hobs.
  - apply Hobs.
  - apply lander_selected_below.
  - exists (Lander.action (selected h w)).
    split; [apply lander_selected_below|reflexivity].
  - apply lander_selected_below.
Qed.

Lemma lander_test_events w :
  Forall lander_event (test_events Lander.pack w).
Proof.
  unfold test_events. repeat constructor; cbn.
  - exists (Lander.action (selected envTest w)).
    split; [apply lander_selected_below|reflexivity].
  - apply lander_selected_below.
Qed.

Lemma lander_other_events (e : event Lander.EnvAction) :
  match e with
  | EvSelect _ _ | EvStep _ _ _ _ | EvStore _ => False
  | _ => True
  end -> lander_event e.
Proof. destruct e; intros H; try contradiction; exact I. Qed.

Lemma lander_Train_shaped :
  Train_shaped (G:=G) (L:=L) lander_event Lander.Train.
Proof.
  apply Train_is_shaped;
    [apply lander_step_events|apply lander_other_events].
Qed.

Lemma lander_test_loop_shaped fuel w tr ts w' tr' ts' :
  Lander.test_loop fuel w tr ts = Some (w', tr', ts') ->
  calls_shaped lander_event w w'.
Proof.
  apply (test_loop_shaped Lander.pack lander_event lander_test_events
           lander_other_events).
Qed.

Lemma lander_testing1_shaped fuel w w' :
  Lander.testing1 fuel w = Some w' -> calls_shaped lander_event w w'.
Proof.
  intros H. unfold Lander.testing1 in H.
  match type of H with
  | match Lander.test_loop _ ?ws _ _ with _ => _ end = _ =>
      destruct (Lander.test_loop fuel ws 0%float 0) as [[[we tr] ts]|] eqn:E;
      [|discriminate]
  end.
  inversion H; subst w'; clear H.
  apply lander_test_loop_shaped in E.
  eapply (shaped_trans lander_event);
    [|eapply (shaped_log lander_event lander_other_events (EvPrint _));
      [reflexivity|exact I]].
  refine (shaped_trans lander_event _ _ _ _ E).
  eapply (shaped_trans lander_event);
    [|eapply (shaped_log lander_event lander_other_events (EvRender envTest));
      [reflexivity|exact I]].
  eapply (shaped_trans lander_event);
    [|eapply (shaped_log lander_event lander_other_events (EvReset envTest));
      [reflexivity|exact I]].
  eapply (shaped_trans lander_event);
    [|eapply (shaped_log lander_event lander_other_events
                (EvMonitorStart envTest)); [reflexivity|exact I]].
  eapply (shaped_log lander_event lander_other_events
            (EvConnect envTest _ _ _)); [reflexivity|exact I].
Qed.

Lemma lander_testing2_shaped fuel w w' :
  Lander.testing2 fuel w = Some w' -> calls_shaped lander_event w w'.
Proof.
  intros H. unfold Lander.testing2 in H.
  match type of H with
  | match Lander.test_loop _ ?ws _ _ with _ => _ end = _ =>
      destruct (Lander.test_loop fuel ws 0%float 0) as [[[we tr] ts]|] eqn:E;
      [|discriminate]
  end.
  inversion H; subst w'; clear H.
  apply lander_test_loop_shaped in E.
  eapply (shaped_trans lander_event);
    [|eapply (shaped_log lander_event lander_other_events (EvPrint _));
      [reflexivity|exact I]].
  eapply (shaped_trans lander_event);
    [|eapply (shaped_log lander_event lander_other_events (EvClose envTest));
      [reflexivity|exact I]].
  refine (shaped_trans lander_event _ _ _ _ E).
  eapply (shaped_trans lander_event);
    [|eapply (shaped_log lander_event lander_other_events (EvReset envTest));
      [reflexivity|exact I]].
  eapply (shaped_log lander_event lander_other_events
            (EvMonitorStart envTest)); [reflexivity|exact I].
Qed.

Lemma lander_main_shaped :
  main_shaped (G:=G) (L:=L) lander_event Lander.main.
Proof.
  intros fuel default w w' H. unfold Lander.main in H.
  destruct (Lander.Train fuel env _ _ 10000 _) as [w1|] eqn:E1;
    [|discriminate].
  destruct (Lander.testing1 fuel w1) as [w2|] eqn:E2; [|discriminate].
  destruct (Lander.Train fuel env _ _ 100000 w2) as [w3|] eqn:E3;
    [|discriminate].
  apply lander_Train_shaped in E1, E3.
  apply lander_testing1_shaped in E2.
  apply lander_testing2_shaped in H.
  refine (shaped_trans lander_event _ _ _ _ H).
  refine (shaped_trans lander_event _ _ _ _ E3).
  refine (shaped_trans lander_event _ _ _ _ E2).
  refine (shaped_trans lander_event _ _ _ _ E1).
  eapply (shaped_log lander_event lander_other_events
            (EvConnect env _ _ _)); [reflexivity|exact I].
Qed.
End LanderShapes.

Section CarShapes.
Context {G L : Type} {GA : GymApi G} {AC : AgentApi MountainCar.EnvAction L}.
Hypothesis Hobs : observations_of (G:=G) MountainCar.Environment.
Implicit Types w : world MountainCar.EnvAction G L.

Lemma car_agent_sees :
  agent_sees (Act:=MountainCar.EnvAction) (G:=G) (L:=L) 2.
Proof. intros h w. rewrite selecting_state. apply Hobs. Qed.

(** An action of the mountain car is one number. *)
Lemma car_action_scalar (a : MountainCar.EnvAction) :
  exists x, Vector.to_list (MountainCar.action a) = [x]
            /\ MountainCar.pack a = [(x * 2)%float].
Proof.
  destruct a as [v]. pattern v. apply Vector.caseS'. intros x v'.
  pattern v'. apply Vector.case0.
  exists x. split; reflexivity.
Qed.

Lemma car_step_events h w :
  Forall car_event (step_events MountainCar.pack h w).
Proof.
  unfold step_events.
  destruct (car_action_scalar (selected h w)) as (x & Hx & Hp).
  repeat constructor; cbn - [MountainCar.pack].
  - apply Hobs.
  - apply Hobs.
  - exists x. exact Hx.
  - exists (x * 2)%float. exact Hp.
  - exists x. exact Hx.
Qed.

Lemma car_test_events w :
  Forall car_event (test_events MountainCar.pack w).
Proof.
  unfold test_events.
  destruct (car_action_scalar (selected envTest w)) as (x & Hx & Hp).
  repeat constructor; cbn - [MountainCar.pack].
  - exists (x * 2)%float. exact Hp.
  - exists x. exact Hx.
Qed.

Lemma car_other_events (e : event MountainCar.EnvAction) :
  match e with
  | EvSelect _ _ | EvStep _ _ _ _ | EvStore _ => False
  | _ => True
  end -> car_event e.
Proof. destruct e; intros H; try contradiction; exact I. Qed.

Lemma car_Train_shaped :
  Train_shaped (G:=G) (L:=L) car_event MountainCar.Train.
Proof.
  apply Train_is_shaped; [apply car_step_events|apply car_other_events].
Qed.

Lemma car_testing_shaped fuel w w' :
  MountainCar.testing fuel w = Some w' -> calls_shaped car_event w w'.
Proof.
  intros H. unfold MountainCar.testing in H.
  match type of H with
  | match MountainCar.test_loop _ ?ws _ _ with _ => _ end = _ =>
      destruct (MountainCar.test_loop fuel ws 0%float 0)
        as [[[we tr] ts]|] eqn:E; [|discriminate]
  end.
  inversion H; subst w'; clear H.
  apply (test_loop_shaped MountainCar.pack car_event car_test_events
           car_other_events) in E.
  eapply (shaped_trans car_event);
    [|eapply (shaped_log car_event car_other_events (EvPrint _));
      [reflexivity|exact I]].
  eapply (shaped_trans car_event);
    [|eapply (shaped_log car_event car_other_events (EvClose envTest));
      [reflexivity|exact I]].
  refine (shaped_trans car_event _ _ _ _ E).
  eapply (shaped_trans car_event);
    [|eapply (shaped_log car_event car_other_events (EvRender envTest));
      [reflexivity|exact I]].
  eapply (shaped_trans car_event);
    [|eapply (shaped_log car_event car_other_events (EvReset envTest));
      [reflexivity|exact I]].
  eapply (shaped_log car_event car_other_events
            (EvConnect envTest _ _ _)); [reflexivity|exact I].
Qed.

Lemma car_main_shaped :
  main_shaped (G:=G) (L:=L) car_event MountainCar.main.
Proof.
  intros fuel default w w' H. unfold MountainCar.main in H.
  destruct (MountainCar.Train fuel env _ _ 10000 _) as [w1|] eqn:E1;
    [|discriminate].
  apply car_Train_shaped in E1.
  apply car_testing_shaped in H.
  refine (shaped_trans car_event _ _ _ _ H).
  refine (shaped_trans car_event _ _ _ _ E1).
  eapply (shaped_log car_event car_other_events
            (EvConnect env _ _ _)); [reflexivity|exact I].
Qed.
End CarShapes.
Section Specification.
Context {G L : Type} {GA : GymApi G}.
Context {AL : AgentApi Lander.EnvAction L}.
Context {AC : AgentApi MountainCar.EnvAction L}.

(** C1: in both training drivers, after every completed episode the list
    of returns holds at most [consecutiveEpisodes] entries, the most
    recent ones (the front entry is the one dropped), and the average a
    progress line shows is the arithmetic mean, sum divided by count, of
    the entries then in the list.  The list is empty when [main] starts;
    the bound is kept by every episode and so by every call of [Train], the
    evaluation between the lander's two calls leaves the list alone, and so
    the bound holds throughout a run of either [main]. *)
Theorem C1_window_and_average :
  (forall (g : G) (l : L) a cE, window_ok cE (start (Act:=Lander.EnvAction) g l a))
  /\ (forall (g : G) (l : L) a cE,
        window_ok cE (start (Act:=MountainCar.EnvAction) g l a))
  /\ window_kept_by_episode Lander.run_episode Lander.progress_line
  /\ window_kept_by_episode MountainCar.run_episode MountainCar.progress_line
  /\ window_kept_by_Train Lander.Train
  /\ window_kept_by_Train MountainCar.Train
  /\ testing_keeps_counts (G:=G) (L:=L) Lander.testing1
  /\ main_keeps_window (G:=G) (L:=L) Lander.main Lander.consecutiveEpisodes
  /\ main_keeps_window (G:=G) (L:=L) MountainCar.main
       MountainCar.consecutiveEpisodes.
Proof.
  split_conj.
  - intros. apply N.le_0_l.
  - intros. apply N.le_0_l.
  - apply generic_window_kept_by_episode.
  - apply generic_window_kept_by_episode.
  - apply generic_window_kept_by_Train.
  - apply generic_window_kept_by_Train.
  - apply lander_testing1_counts.
  - apply lander_main_window.
  - apply car_main_window.
Qed.

(** C2: during training every environment step stores exactly one
    transition, the tuple (current state, selected action, reward, next
    state, done flag, discount factor 0.99), and increments the agent's
    step counter by one (modulo 2^64, so by exactly one below [SIZE_MAX]),
    whether or not updates follow; in both programs. *)
Theorem C2_step_stores_one_transition :
  stores_one_transition Lander.pack Lander.train_step
  /\ stores_one_transition MountainCar.pack MountainCar.train_step.
Proof. split; apply generic_stores_one_transition. Qed.

(** C3: no update is made on a step while the agent's step counter is
    below [ExplorationSteps]; from the threshold on, the flag being off as
    it is throughout [Train], the lander program makes exactly one update
    per step and the mountain-car program exactly [UpdateInterval]. *)
Theorem C3_updates_after_exploration :
  updates_from_threshold (fun _ => 1) Lander.train_step
  /\ updates_from_threshold UpdateInterval MountainCar.train_step
  /\ trains_with_flag_off Lander.Train
  /\ trains_with_flag_off MountainCar.Train.
Proof.
  split_conj.
  - apply (generic_updates_from_threshold Lander.pack Lander.updates).
  - apply (generic_updates_from_threshold MountainCar.pack MountainCar.updates).
  - apply generic_trains_with_flag_off.
  - apply generic_trains_with_flag_off.
Qed.

(** C4: in both programs the return an episode records in the list is the
    sum of the rewards the environment gave over the steps of that
    episode, the accumulator starting from zero at the reset. *)
Theorem C4_episode_return_is_reward_sum :
  return_is_reward_sum Lander.run_episode
  /\ return_is_reward_sum MountainCar.run_episode.
Proof. split; apply generic_return_is_reward_sum. Qed.

(** C5, amended: every progress line holds the number of returns in the
    window, the average return over the window, the return of the episode
    just finished (the sum of the rewards of the steps since its reset)
    and the step count; the lander's line holds the episode count as well,
    the mountain-car's line does not stream it. *)
Theorem C5_progress_line_contents :
  progress_shows_window Lander.run_episode Lander.period Lander.progress_line
  /\ progress_shows_window MountainCar.run_episode MountainCar.period
       MountainCar.progress_line
  /\ progress_shows_episode_count Lander.run_episode
  /\ (forall size avg eps ret steps,
        MountainCar.progress_line size avg eps ret steps
        = [Str "Avg return in last "; Size size; Str " episodes: "; Dbl avg;
           Str "\t Episode return: "; Dbl ret;
           Str "\t Total steps: "; Size steps]).
Proof.
  assert (HL : progress_shows_window Lander.run_episode Lander.period
                 Lander.progress_line).
  { apply generic_progress_shows_window. intros. simpl. tauto. }
  split; [exact HL|].
  split; [apply generic_progress_shows_window; intros; simpl; tauto|].
  split; [|reflexivity].
  intros fuel h config cE w w' new l H HT Hin.
  destruct (HL fuel h config cE w w' H)
    as (prints & steps & T & _ & _ & _ & Ps & P & _).
  assert (Hnew : new = prints ++ steps ++ [EvReset h]).
  { apply (app_inv_tail (trace w)). rewrite <- HT, T, <- !app_assoc.
    reflexivity. }
  rewrite Hnew, !printed_app, Ps, P in Hin. cbn [printed app] in Hin.
  rewrite app_nil_r in Hin.
  destruct (episodes w' mod Lander.period =? 0); [|destruct Hin].
  destruct Hin as [<-|[]]. simpl. tauto.
Qed.


(** C7: the lander program declares an environment with observations of
    8 numbers and 4 discrete actions and a network of 4 outputs; given
    observations of the declared dimension and a policy that selects one
    of the declared actions, the state its agent selects from holds 8
    values and the action selected is an index below 4, and in every pass
    of its training and testing loops, every call of [Train] and every
    run of [main], each step sends that index as one number and each
    stored transition holds states of 8 values and such an index.  The
    mountain-car program declares an environment with observations of 2
    numbers and actions of 1 number and a policy network of 1 output;
    given observations of the declared dimension, the state its agent
    selects from holds 2 values, the action selected is one number, each
    step sends one number and each stored transition holds states of 2
    values and an action of one number. *)
Theorem C7_observation_and_action_spaces :
  (kind Lander.Environment = discrete
   /\ dimension Lander.Environment = 8
   /\ size Lander.Environment = 4
   /\ output_size Lander.network = Some 4
   /\ (observations_of (G:=G) Lander.Environment ->
       selects_index_of (L:=L) Lander.Environment ->
       agent_sees (Act:=Lander.EnvAction) (G:=G) (L:=L) 8
       /\ (forall h (w : world Lander.EnvAction G L),
             Lander.action (selected h w) < 4)
       /\ step_shaped (G:=G) (L:=L) lander_event Lander.train_step
       /\ test_pass_shaped (G:=G) (L:=L) lander_event Lander.pack
       /\ Train_shaped (G:=G) (L:=L) lander_event Lander.Train
       /\ main_shaped (G:=G) (L:=L) lander_event Lander.main))
  /\ (kind MountainCar.Environment = continuous
      /\ dimension MountainCar.Environment = 2
      /\ size MountainCar.Environment = 1
      /\ output_size MountainCar.policyNetwork = Some 1
      /\ (forall a, exists x : double,
            Vector.to_list (MountainCar.action a) = [x]
            /\ MountainCar.pack a = [(x * 2)%float])
      /\ (observations_of (G:=G) MountainCar.Environment ->
          agent_sees (Act:=MountainCar.EnvAction) (G:=G) (L:=L) 2
          /\ step_shaped (G:=G) (L:=L) car_event MountainCar.train_step
          /\ test_pass_shaped (G:=G) (L:=L) car_event MountainCar.pack
          /\ Train_shaped (G:=G) (L:=L) car_event MountainCar.Train
          /\ main_shaped (G:=G) (L:=L) car_event MountainCar.main)).
Proof.
  split.
  - do 4 (split; [reflexivity|]). intros Hobs Hsel. split_conj.
    + apply lander_agent_sees. exact Hobs.
    + apply lander_selected_below. exact Hsel.
    + apply train_step_shaped;
        [apply lander_step_events; assumption|apply lander_other_events].
    + apply test_pass_is_shaped. apply lander_test_events. exact Hsel.
    + apply lander_Train_shaped; assumption.
    + apply lander_main_shaped; assumption.
  - do 4 (split; [reflexivity|]). split; [apply car_action_scalar|].
    intros Hobs. split_conj.
    + apply car_agent_sees. exact Hobs.
    + apply train_step_shaped;
        [apply car_step_events; assumption|apply car_other_events].
    + apply test_pass_is_shaped. apply car_test_events.
    + apply car_Train_shaped; assumption.
    + apply car_main_shaped; assumption.
Qed.

(** C8, amended: in the mountain-car program every training step and every
    testing step sends the environment twice the number the agent
    selected, while the transition a training step stores records the
    selected action itself (testing stores nothing); the stored and the
    sent number differ whenever doubling changes the number. *)
Theorem C8_sent_action_is_doubled :
  executed_is_twice_stored (G:=G) (L:=L)
  /\ testing_sends_twice_selected (G:=G) (L:=L).
Proof.
  split.
  - intros h config w ret new a r d t T Hs Ht.
    destruct (car_step_and_store h config w ret new a r d t T Hs Ht)
      as [-> ->].
    simpl. split_conj; try reflexivity.
    intros Hne Heq. apply Hne. now inversion Heq.
  - intros w.
    destruct (test_pass_spec MountainCar.pack w) as (T & _).
    exact T.
Qed.

(** C9: [numSteps] bounds the agent's persistent step counter, not the
    steps of one call: a call of [Train] runs episodes while the counter it
    finds is below [numSteps] and adds its steps to it; in the lander's
    [main] the second call, with [numSteps = 100000], continues from the
    count the first phase reached; a call that finds [numSteps] reached
    runs no episode. *)
Theorem C9_budget_is_cumulative :
  budget_is_on_the_counter Lander.Train Lander.episodes_to
  /\ second_call_continues_the_count (G:=G) (L:=L)
  /\ no_episode_when_reached Lander.Train
  /\ budget_is_on_the_counter MountainCar.Train MountainCar.episodes_to
  /\ no_episode_when_reached MountainCar.Train.
Proof.
  split_conj.
  - apply generic_budget_is_on_the_counter.
  - apply lander_second_call.
  - apply generic_no_episode_when_reached.
  - apply generic_budget_is_on_the_counter.
  - apply generic_no_episode_when_reached.
Qed.

(** C10, amended: [Train] tests its budget between episodes only.  If
    every episode it begins reaches the done flag after finitely many steps
    and the 64-bit step counter does not wrap around during it (the counter
    is larger after the episode than before), [Train] returns, with the
    counter at least [numSteps]; when the counter was below [numSteps] on
    entry, the final episode was begun below the budget and the counter
    exceeds [numSteps] by less than that episode's number of steps.  In
    both programs. *)
Theorem C10_Train_returns :
  Train_returns Lander.Train Lander.run_episode Lander.episodes_to
  /\ Train_returns MountainCar.Train MountainCar.run_episode
       MountainCar.episodes_to.
Proof. split; apply generic_Train_returns. Qed.
End Specification.

(** ** Runs on the small collaborators *)

Local Abbreviation GA2 := (Toy.api 2).
Local Abbreviation AL2 := (Toy.agent_api Toy.lander_action).
Local Abbreviation AC2 := (Toy.agent_api (Toy.car_action 0.5%float)).
Local Abbreviation lander_world := (world Lander.EnvAction Toy.sim N).

(** C5 as worded fails on the mountain-car program: after 27 two-step
    episodes the 28th ends with a progress line that holds 25 (the window),
    the two returns and 56 (the steps), and not 28. *)
Lemma C5_counterexample :
  let w := Toy.result (Toy.car_Train 0.5%float 54 (Toy.car_start 0.5%float))
             (Toy.car_start 0.5%float) in
  let w' := Toy.result (Toy.car_run_episode 0.5%float 3 env Toy.car_config 25 w) w in
  let l := [Str "Avg return in last "; Size 25; Str " episodes: "; Dbl 3%float;
            Str "\t Episode return: "; Dbl 3%float;
            Str "\t Total steps: "; Size 56] in
  Toy.car_run_episode 0.5%float 3 env Toy.car_config 25 w = Some w'
  /\ episodes w = 27
  /\ episodes w' = 28
  /\ trace w' = EvPrint l :: tl (trace w')
  /\ ~ In (Size (episodes w')) l
  /\ ~ progress_shows_episode_count (Toy.car_run_episode 0.5%float).
Proof.
  cbv zeta.
  assert (Hrun : Toy.car_run_episode 0.5%float 3 env Toy.car_config 25
                   (Toy.result (Toy.car_Train 0.5%float 54 (Toy.car_start 0.5%float))
                      (Toy.car_start 0.5%float))
                 = Some (Toy.result
                           (Toy.car_run_episode 0.5%float 3 env Toy.car_config 25
                              (Toy.result (Toy.car_Train 0.5%float 54 (Toy.car_start 0.5%float))
                                 (Toy.car_start 0.5%float)))
                           (Toy.result (Toy.car_Train 0.5%float 54 (Toy.car_start 0.5%float))
                              (Toy.car_start 0.5%float)))).
  { vm_compute. reflexivity. }
  split; [exact Hrun|].
  split; [vm_compute; reflexivity|].
  split; [vm_compute; reflexivity|].
  split; [vm_compute; reflexivity|].
  assert (Hnot : ~ In (Size 28)
                   [Str "Avg return in last "; Size 25; Str " episodes: "; Dbl 3%float;
                    Str "\t Episode return: "; Dbl 3%float;
                    Str "\t Total steps: "; Size 56]).
  { simpl. intuition discriminate. }
  split; [exact Hnot|].
  intros Hspec.
  refine (Hnot (proj1 (Hspec _ _ _ _ _ _
                         [EvPrint _; _; _; _; _; _; _; EvReset env] _ Hrun _ _))).
  - vm_compute. reflexivity.
  - vm_compute. left. reflexivity.
Qed.

(** C8 as worded fails when the agent selects 0: the number sent, 0 * 2, is
    the number stored. *)
Lemma C8_counterexample :
  let w := Toy.car_start 0%float in
  let w' := fst (Toy.car_train_step 0%float env Toy.car_config w 0%float) in
  let t := {| tr_state := {| Data := [0%float] |};
              tr_action := Toy.car_action 0%float;
              tr_reward := 1%float;
              tr_nextState := {| Data := [1%float] |};
              tr_isEnd := false;
              tr_discount := 0.99%float |} in
  trace w' = [EvStore t; EvStep env [0%float] 1%float false;
              EvSelect false (Toy.car_action 0%float)]
  /\ [0%float] = [scalar (tr_action t)]
  /\ ~ executed_differs_from_stored (GA:=Toy.api 2) (AC:=Toy.agent_api (Toy.car_action 0%float)).
Proof.
  cbv zeta. split; [vm_compute; reflexivity|].
  split; [reflexivity|].
  intros Hspec.
  destruct (Hspec env Toy.car_config (Toy.car_start 0%float) 0%float
              [EvStore _; EvStep env [0%float] 1%float false; EvSelect false _]
              [0%float] 1%float false _ eq_refl
              (or_intror (or_introl eq_refl)) (or_introl eq_refl))
    as (_ & _ & Hne).
  apply Hne. reflexivity.
Qed.

(** The lander's [main], run from the start world against episodes of 1000
    steps: the first call of [Train] stops at 10000 steps and the second at
    100000 on the same counter, so the two calls make 100000 environment
    steps together, 90000 of them in the second. *)
Example lander_main_runs :
  match Lander.main (GA:=Toy.api 1000) (AA:=Toy.agent_api Toy.lander_action)
          1200 Toy.default_config Toy.lander_start with
  | Some w =>
      TotalSteps (agent w) = 100000
      /\ n_steps env (trace w) = 100000
      /\ episodes w = 100
      /\ N.of_nat (length (returnList w)) = 50
  | None => False
  end.
Proof. vm_compute. split_conj; reflexivity. Qed.

(** The mountain car's [main], run from the start world against episodes of
    999 steps: training stops at the first episode boundary past 10000. *)
Example car_main_runs :
  match MountainCar.main (GA:=Toy.api 999)
          (AA:=Toy.agent_api (Toy.car_action 0.5%float))
          1100 Toy.default_config (Toy.car_start 0.5%float) with
  | Some w =>
      TotalSteps (agent w) = 10989
      /\ episodes w = 11
      /\ N.of_nat (length (returnList w)) = 11
  | None => False
  end.
Proof. vm_compute. split_conj; reflexivity. Qed.

(** [Train] can overshoot its budget: with two-step episodes and a budget of
    3, it returns with the counter at 4. *)
Example train_overshoots :
  option_map (fun w => TotalSteps (agent w))
    (Toy.lander_Train 3 Toy.lander_start) = Some 4.
Proof. vm_compute. reflexivity. Qed.

(** C1 on the first episode of the lander against two-step episodes. *)
Lemma C1_witness :
  let w := Toy.lander_start in
  let w' := Toy.result (Toy.lander_run_episode 3 env Toy.lander_config 50 w) w in
  window_ok 50 w
  /\ Toy.lander_run_episode 3 env Toy.lander_config 50 w = Some w'
  /\ window_ok 50 w'.
Proof.
  cbv zeta.
  assert (Hw : window_ok 50 Toy.lander_start) by (vm_compute; discriminate).
  assert (Hrun : Toy.lander_run_episode 3 env Toy.lander_config 50
                   Toy.lander_start
                 = Some (Toy.result
                           (Toy.lander_run_episode 3 env Toy.lander_config 50
                              Toy.lander_start) Toy.lander_start))
    by (vm_compute; reflexivity).
  split; [exact Hw|]. split; [exact Hrun|].
  destruct (proj1 (proj2 (proj2
              (@C1_window_and_average Toy.sim N GA2 AL2 AC2)))
              _ _ _ _ _ _ Hw Hrun) as (new & ret & _ & _ & Hok & _).
  exact Hok.
Defined.

(** C2 on the first step of the lander. *)
Lemma C2_witness :
  let w := Toy.lander_start in
  let w' := fst (Toy.lander_train_step env Toy.lander_config w 0%float) in
  TotalSteps (agent w) < SIZE_MAX
  /\ TotalSteps (agent w') = TotalSteps (agent w) + 1.
Proof.
  cbv zeta.
  assert (H : TotalSteps (agent Toy.lander_start) < SIZE_MAX) by reflexivity.
  split; [exact H|].
  destruct (proj1 (@C2_step_stores_one_transition Toy.sim N GA2 AL2 AC2)
              env Toy.lander_config Toy.lander_start 0%float)
    as (new & _ & _ & _ & _ & Hincr).
  exact (Hincr H).
Defined.

(** C3 on the first step of the lander, once with the threshold of [main]
    (100: no update) and once with threshold 0 (one update). *)
Lemma C3_witness :
  let w := Toy.lander_start in
  let quiet := fst (Toy.lander_train_step env Toy.lander_config w 0%float) in
  let learnt := fst (Toy.lander_train_step env Toy.default_config w 0%float) in
  (TotalSteps (agent quiet) < ExplorationSteps Toy.lander_config
   /\ exists new, trace quiet = new ++ trace w /\ n_updates new = 0)
  /\ (ExplorationSteps Toy.default_config <= TotalSteps (agent learnt)
      /\ Deterministic (agent w) = false
      /\ exists new, trace learnt = new ++ trace w /\ n_updates new = 1).
Proof.
  cbv zeta. split.
  - assert (H : TotalSteps (agent (fst (Toy.lander_train_step env
                   Toy.lander_config Toy.lander_start 0%float)))
                < ExplorationSteps Toy.lander_config) by reflexivity.
    split; [exact H|].
    destruct (proj1 (@C3_updates_after_exploration Toy.sim N GA2 AL2 AC2)
                env Toy.lander_config Toy.lander_start 0%float)
      as (new & T & _ & Hnone & _).
    exists new. split; [exact T|exact (Hnone H)].
  - assert (H : ExplorationSteps Toy.default_config
                <= TotalSteps (agent (fst (Toy.lander_train_step env
                     Toy.default_config Toy.lander_start 0%float))))
      by (vm_compute; discriminate).
    split; [exact H|]. split; [reflexivity|].
    destruct (proj1 (@C3_updates_after_exploration Toy.sim N GA2 AL2 AC2)
                env Toy.default_config Toy.lander_start 0%float)
      as (new & T & _ & _ & Hone).
    exists new. split; [exact T|exact (Hone H eq_refl)].
Defined.

(** C4 on the first episode of the lander. *)
Lemma C4_witness :
  let w := Toy.lander_start in
  let w' := Toy.result (Toy.lander_run_episode 3 env Toy.lander_config 50 w) w in
  Toy.lander_run_episode 3 env Toy.lander_config 50 w = Some w'
  /\ 0 < 50
  /\ exists steps : list (event Lander.EnvAction),
       1 <= n_steps env steps
       /\ last (returnList w') 0%float = reward_sum env steps.
Proof.
  cbv zeta.
  assert (Hrun : Toy.lander_run_episode 3 env Toy.lander_config 50
                   Toy.lander_start
                 = Some (Toy.result
                           (Toy.lander_run_episode 3 env Toy.lander_config 50
                              Toy.lander_start) Toy.lander_start))
    by (vm_compute; reflexivity).
  assert (Hpos : 0 < 50) by reflexivity.
  split; [exact Hrun|]. split; [exact Hpos|].
  destruct (proj1 (@C4_episode_return_is_reward_sum Toy.sim N GA2 AL2 AC2)
              _ _ _ _ _ _ Hrun)
    as (prints & steps & _ & _ & Hone & _ & _ & Hlast).
  exists steps. split; [exact Hone|exact (Hlast Hpos)].
Defined.

(** C5, as amended, on the fifth episode of the lander, the first to print
    a progress line: the return it shows is 3, the rewards 1 and 2 of the
    two steps of that episode. *)
Lemma C5_witness :
  let w := Toy.result (Toy.lander_Train 8 Toy.lander_start) Toy.lander_start in
  let w' := Toy.result (Toy.lander_run_episode 3 env Toy.lander_config 50 w) w in
  Toy.lander_run_episode 3 env Toy.lander_config 50 w = Some w'
  /\ episodes w' = 5
  /\ exists prints steps,
       trace w' = prints ++ steps ++ EvReset env :: trace w
       /\ n_steps env prints = 0
       /\ (forall h', n_resets h' steps = 0)
       /\ printed prints
          = [Lander.progress_line 5 (arithmetic_mean (returnList w')) 5
               (reward_sum env steps) 10]
       /\ reward_sum env steps = 3%float.
Proof.
  cbv zeta.
  set (w := Toy.result (Toy.lander_Train 8 Toy.lander_start) Toy.lander_start).
  assert (Hrun : Toy.lander_run_episode 3 env Toy.lander_config 50 w
                 = Some (Toy.result
                           (Toy.lander_run_episode 3 env Toy.lander_config 50 w)
                           w))
    by (vm_compute; reflexivity).
  split; [exact Hrun|]. split; [vm_compute; reflexivity|].
  destruct (proj1 (@C5_progress_line_contents Toy.sim N GA2 AL2 AC2)
              _ _ _ _ _ _ Hrun) as (prints & steps & T & Hn & _ & Hr & _ & P & _).
  assert (Hfifth : (episodes (Toy.result
                               (Toy.lander_run_episode 3 env Toy.lander_config
                                  50 w) w) mod Lander.period =? 0) = true)
    by (vm_compute; reflexivity).
  assert (Hline : hd [] (printed (trace (Toy.result
                                          (Toy.lander_run_episode 3 env
                                             Toy.lander_config 50 w) w)))
                  = Lander.progress_line 5
                      (arithmetic_mean
                         (returnList (Toy.result
                                        (Toy.lander_run_episode 3 env
                                           Toy.lander_config 50 w) w)))
                      5 3%float 10)
    by (vm_compute; reflexivity).
  rewrite Hfifth in P.
  rewrite T, printed_app, P in Hline. cbn [app hd] in Hline.
  exists prints, steps. split_conj; [exact T|exact Hn|exact Hr|exact P|].
  unfold Lander.progress_line in Hline. congruence.
Defined.


(** C8, as amended, on the first step of the mountain car with an agent
    that selects 0.5: 1 is sent, 0.5 is stored. *)
Lemma C8_witness :
  let w := Toy.car_start 0.5%float in
  let w' := fst (Toy.car_train_step 0.5%float env Toy.car_config w 0%float) in
  let t := {| tr_state := {| Data := [0%float] |};
              tr_action := Toy.car_action 0.5%float;
              tr_reward := 1%float;
              tr_nextState := {| Data := [1%float] |};
              tr_isEnd := false;
              tr_discount := 0.99%float |} in
  trace w' = [EvStore t; EvStep env [1%float] 1%float false;
              EvSelect false (Toy.car_action 0.5%float)] ++ trace w
  /\ (scalar (selected (GA:=GA2) (AA:=AC2) env w) * 2)%float
     <> scalar (selected (GA:=GA2) (AA:=AC2) env w)
  /\ [1%float] <> [scalar (tr_action t)].
Proof.
  cbv zeta.
  set (t := {| tr_state := {| Data := [0%float] |};
               tr_action := Toy.car_action 0.5%float;
               tr_reward := 1%float;
               tr_nextState := {| Data := [1%float] |};
               tr_isEnd := false;
               tr_discount := 0.99%float |}).
  assert (T : trace (fst (Toy.car_train_step 0.5%float env Toy.car_config
                            (Toy.car_start 0.5%float) 0%float))
              = [EvStore t; EvStep env [1%float] 1%float false;
                 EvSelect false (Toy.car_action 0.5%float)]
                ++ trace (Toy.car_start 0.5%float))
    by (vm_compute; reflexivity).
  assert (Hne : (scalar (selected (GA:=GA2) (AA:=AC2) env
                           (Toy.car_start 0.5%float)) * 2)%float
                <> scalar (selected (GA:=GA2) (AA:=AC2) env
                             (Toy.car_start 0.5%float)))
    by (vm_compute; intro H; discriminate H).
  split; [exact T|]. split; [exact Hne|].
  destruct (proj1 (@C8_sent_action_is_doubled Toy.sim N GA2 AC2)
              env Toy.car_config (Toy.car_start 0.5%float) 0%float
              _ [1%float] 1%float false t T
              (or_intror (or_introl eq_refl)) (or_introl eq_refl))
    as (_ & _ & Hdiff).
  exact (Hdiff Hne).
Defined.

(** C9 on the lander against two-step episodes: a call of [Train] with a
    budget of 3 from the start world; [main] run from a world whose agent
    has already counted 99997 steps, so that the first call finds its budget
    reached; a call with budget 0. *)
Lemma C9_witness :
  let w := Toy.lander_start in
  let w' := Toy.result (Toy.lander_Train 3 w) w in
  let late := Toy.lander_late in
  let w_end := Toy.result (Lander.main (GA:=GA2) (AA:=AL2) 5
                             Toy.default_config late) late in
  (Toy.lander_Train 3 w = Some w'
   /\ TotalSteps (agent w) + n_steps env (trace w') < 2 ^ 64
   /\ TotalSteps (agent w')
      = TotalSteps (agent w) + n_steps env (trace w'))
  /\ (Lander.main (GA:=GA2) (AA:=AL2) 5 Toy.default_config late = Some w_end
      /\ exists w1 w2 w3 : lander_world,
           10000 <= TotalSteps (agent w1)
           /\ TotalSteps (agent w2) = TotalSteps (agent w1)
           /\ 100000 <= TotalSteps (agent w3))
  /\ (0 <= TotalSteps (agent w)
      /\ Lander.Train (GA:=GA2) (AA:=AL2) 1 env Toy.lander_config 50 0 w
         = Some (Train_entry 0 w)).
Proof.
  cbv zeta.
  pose proof (@C9_budget_is_cumulative Toy.sim N GA2 AL2 AC2)
    as (Hbudget & Hmain & Hnone & _).
  split_conj.
  - vm_compute. reflexivity.
  - vm_compute. reflexivity.
  - assert (Hrun : Toy.lander_Train 3 Toy.lander_start
                   = Some (Toy.result (Toy.lander_Train 3 Toy.lander_start)
                             Toy.lander_start))
      by (vm_compute; reflexivity).
    destruct (Hbudget _ _ _ _ _ _ _ Hrun) as (new & T & _ & _ & _ & Hadd & _).
    change (trace Toy.lander_start) with (@nil (event Lander.EnvAction)) in T.
    rewrite app_nil_r in T. rewrite <- T in Hadd.
    apply Hadd. vm_compute. reflexivity.
  - vm_compute. reflexivity.
  - assert (Hrun : Lander.main (GA:=GA2) (AA:=AL2) 5 Toy.default_config
                     Toy.lander_late
                   = Some (Toy.result
                             (Lander.main (GA:=GA2) (AA:=AL2) 5
                                Toy.default_config Toy.lander_late)
                             Toy.lander_late))
      by (vm_compute; reflexivity).
    destruct (Hmain _ _ _ _ Hrun)
      as (w1 & w2 & w3 & new & _ & H1 & _ & H2 & _ & _ & _ & _ & H3 & _).
    exists w1, w2, w3. split_conj; assumption.
  - vm_compute. discriminate.
  - apply Hnone. vm_compute. discriminate.
Defined.

(** C10 as worded fails when the budget is [SIZE_MAX]: against two-step
    episodes every episode completes, yet from the start world the step
    counter only takes even values, wraps around to 0 after 2^64 - 2, and
    [Train] never returns. *)
Lemma C10_counterexample :
  (forall w0 : lander_world,
     exists w1, Toy.lander_run_episode 2 env Toy.lander_config 50 w0 = Some w1)
  /\ TotalSteps (agent Toy.lander_start) = 0
  /\ (forall fuel,
        Lander.Train (GA:=GA2) (AA:=AL2) fuel env Toy.lander_config 50
          SIZE_MAX Toy.lander_start = None)
  /\ ~ Train_returns_if_episodes_end Toy.lander_Train_fn
        Toy.lander_run_episode.
Proof.
  assert (Hall : forall w0 : lander_world,
            exists w1,
              Toy.lander_run_episode 2 env Toy.lander_config 50 w0 = Some w1).
  { intros w0.
    destruct (toy_episode_completes Toy.lander_action Lander.pack
                Lander.updates Lander.period Lander.progress_line
                Toy.lander_config 50 w0) as (w1 & E & _).
    exists w1. exact E. }
  assert (Hdiv : forall fuel,
            Lander.Train (GA:=GA2) (AA:=AL2) fuel env Toy.lander_config 50
              SIZE_MAX Toy.lander_start = None).
  { intros fuel. unfold Lander.Train, Train.
    apply toy_train_loop_diverges; reflexivity. }
  split; [exact Hall|]. split; [reflexivity|]. split; [exact Hdiv|].
  intros Hspec.
  destruct (Hspec env Toy.lander_config 50 SIZE_MAX Toy.lander_start)
    as (fuel & w' & Hrun & _).
  - intros w0. destruct (Hall w0) as (w1 & E). exists 2%nat, w1. exact E.
  - rewrite Hdiv in Hrun. discriminate Hrun.
Qed.

(** Against two-step episodes every episode begun with the counter below 3
    completes and leaves the counter larger. *)
Lemma toy_episode_grows (w0 : lander_world) :
  TotalSteps (agent w0) < 3 ->
  exists fuel w1,
    Toy.lander_run_episode fuel env Toy.lander_config 50 w0 = Some w1
    /\ TotalSteps (agent w0) < TotalSteps (agent w1).
Proof.
  intros H.
  destruct (toy_episode_completes Toy.lander_action Lander.pack Lander.updates
              Lander.period Lander.progress_line Toy.lander_config 50 w0)
    as (w1 & E & Hts).
  exists 2%nat, w1. split; [exact E|].
  rewrite Hts. unfold size_incr.
  assert (E64 : 2 ^ 64 = 18446744073709551616) by reflexivity.
  rewrite (size_wrap_small (TotalSteps (agent w0) + 1)) by lia.
  rewrite size_wrap_small by lia. lia.
Qed.

(** C10 on the lander against two-step episodes, with a budget of 3. *)
Lemma C10_witness :
  (forall w0 : lander_world,
     TotalSteps (agent w0) < 3 ->
     exists fuel w1,
       Toy.lander_run_episode fuel env Toy.lander_config 50 w0 = Some w1
       /\ TotalSteps (agent w0) < TotalSteps (agent w1))
  /\ TotalSteps (agent Toy.lander_start) < 3
  /\ exists fuel w',
       Lander.Train (GA:=GA2) (AA:=AL2) fuel env Toy.lander_config 50 3
         Toy.lander_start = Some w'
       /\ 3 <= TotalSteps (agent w')
       /\ exists final : list (event Lander.EnvAction),
            TotalSteps (agent w') < 3 + n_steps env final.
Proof.
  assert (Hbelow : TotalSteps (agent Toy.lander_start) < 3) by reflexivity.
  split; [exact toy_episode_grows|]. split; [exact Hbelow|].
  destruct (proj1 (@C10_Train_returns Toy.sim N GA2 AL2 AC2)
              env Toy.lander_config 50 3 Toy.lander_start
              (fun w0 _ => toy_episode_grows w0))
    as (fuel & w' & Hrun & Hge & Hlast).
  exists fuel, w'. split; [exact Hrun|]. split; [exact Hge|].
  destruct (Hlast Hbelow) as (w_last & fl & final & _ & _ & _ & _ & Hover).
  exists final. exact Hover.
Defined.

(** C7 on the lander's [main] against two-step episodes with observations
    of 8 values and an agent that always selects index 2, from a world
    whose agent has already counted 99997 steps, and on the first training
    step of the mountain car against observations of 2 values. *)
Lemma C7_witness :
  let w := Toy.lander_late in
  let w' := Toy.result (Lander.main (GA:=Sized.api 8 2) (AA:=AL2) 5
                          Toy.default_config w) w in
  let c := Toy.car_start 0.5%float in
  let c' := fst (MountainCar.train_step (GA:=Sized.api 2 2) (AA:=AC2) env
                   Toy.car_config c 0%float) in
  (observations_of (GA:=Sized.api 8 2) Lander.Environment
   /\ selects_index_of (AL:=AL2) Lander.Environment
   /\ Lander.main (GA:=Sized.api 8 2) (AA:=AL2) 5 Toy.default_config w
      = Some w'
   /\ N.of_nat (length (stores (trace w'))) = 4
   /\ Forall lander_event (trace w'))
  /\ (observations_of (GA:=Sized.api 2 2) MountainCar.Environment
      /\ N.of_nat (length (stores (trace c'))) = 1
      /\ Forall car_event (trace c')).
Proof.
  cbv zeta.
  assert (Hobs8 : observations_of (GA:=Sized.api 8 2) Lander.Environment)
    by (intros h g; cbn; rewrite repeat_length; reflexivity).
  assert (Hsel : selects_index_of (AL:=AL2) Lander.Environment)
    by (intros ag; reflexivity).
  assert (Hobs2 : observations_of (GA:=Sized.api 2 2) MountainCar.Environment)
    by (intros h g; cbn; rewrite repeat_length; reflexivity).
  assert (Hrun : Lander.main (GA:=Sized.api 8 2) (AA:=AL2) 5
                   Toy.default_config Toy.lander_late
                 = Some (Toy.result
                           (Lander.main (GA:=Sized.api 8 2) (AA:=AL2) 5
                              Toy.default_config Toy.lander_late)
                           Toy.lander_late))
    by (vm_compute; reflexivity).
  split.
  - split; [exact Hobs8|]. split; [exact Hsel|]. split; [exact Hrun|].
    split; [vm_compute; reflexivity|].
    destruct (@C7_observation_and_action_spaces Toy.sim N (Sized.api 8 2)
                AL2 AC2) as ((_ & _ & _ & _ & Hl) & _).
    destruct (Hl Hobs8 Hsel) as (_ & _ & _ & _ & _ & Hmain).
    destruct (Hmain _ _ _ _ Hrun) as (new & T & F).
    change (trace Toy.lander_late) with (@nil (event Lander.EnvAction)) in T.
    rewrite app_nil_r in T. rewrite T. exact F.
  - split; [exact Hobs2|]. split; [vm_compute; reflexivity|].
    destruct (@C7_observation_and_action_spaces Toy.sim N (Sized.api 2 2)
                AL2 AC2) as (_ & (_ & _ & _ & _ & _ & Hc)).
    destruct (Hc Hobs2) as (_ & Hstep & _).
    destruct (Hstep env Toy.car_config (Toy.car_start 0.5%float) 0%float)
      as (new & T & F).
    change (trace (Toy.car_start 0.5%float))
      with (@nil (event MountainCar.EnvAction)) in T.
    rewrite app_nil_r in T. rewrite T. exact F.
Defined.

(** * Further properties of the drivers *)

Section CallFacts.
Context {Act : Type}.
Implicit Types evs steps rest : list (event Act).

Lemma n_closes_app h evs1 evs2 :
  n_closes h (evs1 ++ evs2) = n_closes h evs1 + n_closes h evs2.
Proof.
  induction evs1 as [|e evs1 IH]; [reflexivity|].
  destruct e; cbn [app n_closes]; try exact IH.
  destruct (handle_eqb h h0); rewrite IH; lia.
Qed.

Lemma n_connects_app h evs1 evs2 :
  n_connects h (evs1 ++ evs2) = n_connects h evs1 + n_connects h evs2.
Proof.
  induction evs1 as [|e evs1 IH]; [reflexivity|].
  destruct e; cbn [app n_connects]; try exact IH.
  destruct (handle_eqb h h0); rewrite IH; lia.
Qed.

Lemma handle_eqb_neq (h h' : handle) : h' <> h -> handle_eqb h' h = false.
Proof. destruct h, h'; intros H; try reflexivity; now elim H. Qed.

(** A stretch of training calls on [h] holds no connect, render, monitor
    start or close, and no reset or step of another environment. *)
Lemma training_events_confined h evs :
  Forall (training_event h) evs ->
  (forall h', n_closes h' evs = 0)
  /\ (forall h', n_connects h' evs = 0)
  /\ (forall h', h' <> h -> n_steps h' evs = 0 /\ n_resets h' evs = 0).
Proof.
  induction 1 as [|e evs He _ IH].
  - split_conj; intros; split_conj; reflexivity.
  - destruct IH as (C & K & S).
    destruct e; cbn [training_event] in He; try contradiction;
      split_conj; intros; cbn [n_closes n_connects]; auto;
      try (unfold n_steps; cbn [rewards n_resets]; apply S; assumption).
    + unfold n_steps. cbn [rewards n_resets]. subst h0.
      rewrite (handle_eqb_neq _ _ H). apply S. assumption.
    + unfold n_steps. cbn [rewards n_resets]. subst h0.
      rewrite (handle_eqb_neq _ _ H). apply S. assumption.
Qed.

(** The returns of a trace whose newest calls are one whole episode: a
    reset of [h], then steps without a reset, then calls that are neither. *)
Lemma episode_returns_steps h steps : forall rest pending,
  (forall h', n_resets h' steps = 0) ->
  episode_returns h (steps ++ EvReset h :: rest) pending
  = accumulate (rev (rewards h steps) ++ pending) 0%float
    :: episode_returns h rest [].
Proof.
  induction steps as [|e steps IH]; intros rest pending Hr.
  - cbn. rewrite handle_eqb_refl. reflexivity.
  - assert (Hr' : forall h', n_resets h' steps = 0).
    { intros h'. specialize (Hr h'). destruct e; cbn in Hr; auto.
      destruct (handle_eqb h' h0); [|exact Hr].
      destruct (n_resets h' steps); discriminate. }
    destruct e; cbn [app episode_returns rewards]; try (apply IH; exact Hr').
    + specialize (Hr h0). cbn in Hr. rewrite handle_eqb_refl in Hr.
      destruct (n_resets h0 steps); discriminate.
    + destruct (handle_eqb h h0).
      * rewrite IH by exact Hr'. cbn [rev]. rewrite <- app_assoc. reflexivity.
      * apply IH. exact Hr'.
Qed.

Lemma episode_returns_prints h (b : bool) (l : line) evs pending :
  episode_returns h ((if b then [@EvPrint Act l] else []) ++ evs) pending
  = episode_returns h evs pending.
Proof. destruct b; reflexivity. Qed.
End CallFacts.

(** ** Counting *)

Lemma steps_from_threshold_one (t E k : N) :
  (if t + 1 <? E then 0 else k) = k * steps_from_threshold t 1 E.
Proof.
  unfold steps_from_threshold.
  destruct (N.ltb_spec (t + 1) E) as [H|H].
  - replace (t + 1 - N.max t (E - 1)) with 0 by lia. lia.
  - replace (t + 1 - N.max t (E - 1)) with 1 by lia. lia.
Qed.

Lemma steps_from_threshold_add (t n1 n2 E : N) :
  steps_from_threshold t n1 E + steps_from_threshold (t + n1) n2 E
  = steps_from_threshold t (n1 + n2) E.
Proof. unfold steps_from_threshold. lia. Qed.

Lemma multiples_between_one (e p : N) :
  0 < p ->
  multiples_between e 1 p = if (e + 1) mod p =? 0 then 1 else 0.
Proof.
  intros Hp. unfold multiples_between.
  pose proof (N.div_mod e p ltac:(lia)) as He.
  pose proof (N.mod_upper_bound e p ltac:(lia)) as Hr.
  set (q := e / p) in *. set (r := e mod p) in *.
  destruct (N.eq_dec (r + 1) p) as [Heq|Hne].
  - assert (Hd : (e + 1) / p = q + 1).
    { symmetry. apply (N.div_unique _ _ _ 0); [lia|nia]. }
    assert (Hm : (e + 1) mod p = 0).
    { symmetry. apply (N.mod_unique _ _ (q + 1)); [lia|nia]. }
    rewrite Hd, Hm. simpl. lia.
  - assert (Hd : (e + 1) / p = q).
    { symmetry. apply (N.div_unique _ _ _ (r + 1)); [lia|nia]. }
    assert (Hm : (e + 1) mod p = r + 1).
    { symmetry. apply (N.mod_unique _ _ q); [lia|nia]. }
    rewrite Hd, Hm.
    destruct (N.eqb_spec (r + 1) 0); lia.
Qed.

Lemma multiples_between_add (e k1 k2 p : N) :
  multiples_between e k1 p + multiples_between (e + k1) k2 p
  = multiples_between e (k1 + k2) p.
Proof.
  unfold multiples_between.
  assert (H1 : e / p <= (e + k1) / p) by (apply N.Div0.div_le_mono; lia).
  assert (H2 : (e + k1) / p <= (e + k1 + k2) / p)
    by (apply N.Div0.div_le_mono; lia).
  rewrite N.add_assoc. lia.
Qed.

Section CallsOfTheDriver.
Context {Act G L : Type} {GA : GymApi G} {AA : AgentApi Act L}.
Variable pack : Act -> mat.
Variable updates : TrainingConfig -> size_t.
Variable period : size_t.
Variable progress_line : size_t -> double -> size_t -> double -> size_t -> line.
Local Abbreviation world := (world Act G L).
Implicit Types w : world.
Implicit Types new : list (event Act).

Local Abbreviation run_episode' := (run_episode pack updates period progress_line).
Local Abbreviation Train' := (Train pack updates period progress_line).
Local Abbreviation episodes_to' := (episodes_to pack updates period progress_line).

(** The calls of one pass of the training loop. *)
Lemma train_step_calls h config w ret new :
  trace (fst (train_step pack updates h config w ret)) = new ++ trace w ->
  Forall (training_event h) new
  /\ n_steps h new = 1
  /\ n_updates new = (if learns config w then updates config else 0).
Proof.
  intros T.
  destruct (train_step_spec pack updates h config w ret) as (_ & Htr & _).
  cbv zeta in Htr. rewrite T, app_assoc in Htr. apply app_inv_tail in Htr.
  subst new.
  set (k := if learns config w then N.to_nat (updates config) else 0%nat).
  destruct (updates_only (Act:=Act) k) as (U1 & _ & _ & U4 & _).
  destruct (step_events_observed pack h w) as (S1 & _ & _ & S4 & _).
  split_conj.
  - apply Forall_app. split.
    + apply Forall_forall. intros e He. apply repeat_spec in He. subst e.
      exact I.
    + unfold step_events. repeat constructor.
  - rewrite n_steps_app. unfold n_steps. rewrite U1, S1. reflexivity.
  - rewrite n_updates_app, U4, S4. unfold k.
    destruct (learns config w); lia.
Qed.

(** The calls of the inner loop: training calls on [h] only, and as many
    updates as the steps from the threshold on allow. *)
Lemma episode_loop_calls fuel : forall h config w ret w' ret' new,
  episode_loop pack updates fuel h config w ret = Some (w', ret') ->
  trace w' = new ++ trace w ->
  Forall (training_event h) new
  /\ (Deterministic (agent w) = false ->
      TotalSteps (agent w) + n_steps h new < 2 ^ 64 ->
      n_updates new
      = updates config
        * steps_from_threshold (TotalSteps (agent w)) (n_steps h new)
            (ExplorationSteps config)).
Proof.
  induction fuel as [|fuel IH]; intros h config w ret w' ret' new H T;
    [discriminate|].
  simpl in H.
  destruct (train_step_events pack updates h config w ret)
    as (new1 & T1 & _).
  destruct (train_step_spec pack updates h config w ret)
    as (_ & _ & _ & Hts & Hdet & _).
  pose proof (train_step_calls h config w ret new1 T1) as (F1 & N1 & U1).
  destruct (train_step pack updates h config w ret) as [w1 ret1].
  cbn [fst] in T1, Hts, Hdet.
  assert (Hone : Deterministic (agent w) = false ->
                 TotalSteps (agent w) + 1 < 2 ^ 64 ->
                 n_updates new1
                 = updates config
                   * steps_from_threshold (TotalSteps (agent w)) 1
                       (ExplorationSteps config)
                 /\ TotalSteps (agent w1) = TotalSteps (agent w) + 1).
  { intros Hd Hs.
    assert (Hi : size_incr (TotalSteps (agent w)) = TotalSteps (agent w) + 1)
      by (apply size_wrap_small; exact Hs).
    split; [|rewrite Hts; exact Hi].
    rewrite U1. unfold learns. rewrite Hd, Hi. cbn [orb].
    rewrite <- steps_from_threshold_one.
    destruct (TotalSteps (agent w) + 1 <? ExplorationSteps config);
      reflexivity. }
  destruct (done h (gym w1)).
  - inversion H; subst w' ret'; clear H.
    rewrite T1 in T. apply app_inv_tail in T. subst new.
    split; [exact F1|]. intros Hd Hs. rewrite N1 in *.
    apply Hone; assumption.
  - destruct (episode_loop_spec pack updates _ _ _ _ _ _ _ H)
      as (new' & T' & _ & _ & Ge & _).
    destruct (IH _ _ _ _ _ _ new' H T') as (F' & U').
    rewrite T', T1, app_assoc in T. apply app_inv_tail in T. subst new.
    split; [apply Forall_app; split; assumption|].
    rewrite n_steps_app, N1, n_updates_app. intros Hd Hs.
    destruct (Hone Hd ltac:(lia)) as (Hu1 & Hts1).
    rewrite U', Hu1, Hts1; [|congruence|lia].
    rewrite <- N.mul_add_distr_l. f_equal.
    rewrite N.add_comm.
    rewrite (N.add_comm (n_steps h new') 1).
    apply steps_from_threshold_add.
Qed.

(** The calls of one episode. *)
Lemma run_episode_calls fuel h config cE w w' new :
  run_episode' fuel h config cE w = Some w' ->
  trace w' = new ++ trace w ->
  Forall (training_event h) new
  /\ n_resets h new = 1
  /\ 1 <= n_steps h new
  /\ TotalSteps (agent w')
     = size_wrap (TotalSteps (agent w) + n_steps h new)
  /\ episodes w' = size_incr (episodes w)
  /\ Deterministic (agent w') = Deterministic (agent w)
  /\ N.of_nat (length (printed new))
     = (if size_incr (episodes w) mod period =? 0 then 1 else 0)
  /\ (Deterministic (agent w) = false ->
      TotalSteps (agent w) + n_steps h new < 2 ^ 64 ->
      n_updates new
      = updates config
        * steps_from_threshold (TotalSteps (agent w)) (n_steps h new)
            (ExplorationSteps config))
  /\ (exists episodeReturn,
        (forall rest, episode_returns h (new ++ rest) []
                      = episodeReturn :: episode_returns h rest [])
        /\ returnList w'
           = (if cE <? N.of_nat (length (returnList w ++ [episodeReturn]))
              then tl (returnList w ++ [episodeReturn])
              else returnList w ++ [episodeReturn])).
Proof.
  intros H T.
  pose proof (run_episode_spec pack updates period progress_line _ _ _ _ _ _ H)
    as (steps & T0 & R & E & S & Ge & D & P & Nr & _).
  cbv zeta in T0, R.
  unfold run_episode in H.
  destruct (episode_loop pack updates fuel h config (reset h w) 0%float)
    as [[w1 ret]|] eqn:EL; [|discriminate].
  inversion H; subst w'; clear H.
  destruct (record_return_spec period progress_line cE ret w1)
    as (_ & _ & _ & Hag & Htr).
  cbv zeta in Hag, Htr.
  (* the steps of the inner loop are the [steps] above *)
  destruct (episode_loop_spec pack updates _ _ _ _ _ _ _ EL)
    as (steps' & Ts & _).
  assert (steps' = steps) as ->.
  { rewrite Htr, Ts in T0.
    change (trace (reset h w)) with (EvReset h :: trace w) in T0.
    destruct (_ =? 0) in T0; cbn [app] in T0;
      [injection T0 as _ T0|];
      apply app_inv_tail in T0; exact T0. }
  destruct (episode_loop_calls _ _ _ _ _ _ _ steps EL Ts) as (Fs & Us).
  rewrite E in T0 |- *.
  set (b := size_incr (episodes w) mod period =? 0) in *.
  set (pr := if b then [EvPrint _] else []) in T0.
  assert (Hnew : new = pr ++ steps ++ [EvReset h]).
  { apply (app_inv_tail (trace w)). rewrite <- T, T0, <- !app_assoc.
    reflexivity. }
  assert (Hpr : Forall (training_event h) pr /\ n_steps h pr = 0
                /\ n_resets h pr = 0 /\ n_updates pr = 0
                /\ N.of_nat (length (printed pr)) = (if b then 1 else 0)).
  { unfold pr. destruct b; split_conj; try reflexivity; repeat constructor. }
  destruct Hpr as (Fp & Sp & Rp & Up & Pp).
  assert (Hn : n_steps h new = n_steps h steps).
  { rewrite Hnew, !n_steps_app, Sp. unfold n_steps at 2. simpl. lia. }
  rewrite Hn.
  split_conj; auto.
  - rewrite Hnew. repeat (apply Forall_app; split); auto.
    repeat constructor.
  - rewrite Hnew, !n_resets_app, Rp, Nr. cbn [n_resets].
    rewrite handle_eqb_refl. reflexivity.
  - rewrite Hnew, !printed_app, P, !length_app. simpl.
    rewrite Nat.add_0_r. exact Pp.
  - intros Hd Hs.
    rewrite Hnew, !n_updates_app, Up. simpl (n_updates [EvReset h]).
    rewrite N.add_0_l, N.add_0_r. apply Us; assumption.
  - exists (reward_sum h steps). split; [|exact R].
    intros rest. rewrite Hnew, <- !app_assoc.
    unfold pr. rewrite episode_returns_prints.
    cbn [app]. rewrite episode_returns_steps by exact Nr.
    rewrite app_nil_r. reflexivity.
Qed.
End CallsOfTheDriver.

(** ** The window of returns *)

Lemma window_push_length (cE : size_t) (rl : list double) (r : double) :
  N.of_nat (length (window_push cE rl r))
  = (if cE <? N.of_nat (length rl) + 1 then N.of_nat (length rl)
     else N.of_nat (length rl) + 1).
Proof.
  unfold window_push. cbv zeta. rewrite length_app. cbn [length].
  replace (N.of_nat (length rl + 1)) with (N.of_nat (length rl) + 1) by lia.
  destruct (cE <? N.of_nat (length rl) + 1).
  - destruct rl; cbn [app tl length]; [reflexivity|].
    rewrite length_app. cbn [length]. lia.
  - rewrite length_app. cbn [length]. lia.
Qed.

Lemma window_pushes_length (cE : size_t) (rs : list double) :
  forall rl,
    N.of_nat (length (fold_left (window_push cE) rs rl))
    = (if cE <? N.of_nat (length rl) then N.of_nat (length rl)
       else N.min cE (N.of_nat (length rl) + N.of_nat (length rs))).
Proof.
  induction rs as [|r rs IH]; intros rl; cbn [fold_left length].
  - destruct (N.ltb_spec cE (N.of_nat (length rl))); lia.
  - rewrite IH, window_push_length.
    repeat match goal with
           | |- context [?a <? ?b] => destruct (N.ltb_spec a b)
           end; lia.
Qed.

Lemma keep_last_app {A : Type} (n : N) (l r : list A) :
  keep_last n (keep_last n l ++ r) = keep_last n (l ++ r).
Proof.
  unfold keep_last.
  rewrite length_app, length_skipn, length_app.
  set (k := N.to_nat n).
  destruct (Nat.le_gt_cases (length l) k) as [Hle|Hgt].
  - replace (length l - k)%nat with 0%nat by lia. cbn [skipn].
    replace (length l - 0)%nat with (length l) by lia. reflexivity.
  - replace (length l - (length l - k))%nat with k by lia.
    rewrite (skipn_app (length l + length r - k)).
    replace (length l + length r - k - length l)%nat with (length r - k)%nat
      by lia.
    rewrite !skipn_app, length_skipn.
    replace (length l - (length l - k))%nat with k by lia.
    rewrite skipn_skipn.
    replace (k + length r - k - k)%nat with (length r - k)%nat by lia.
    f_equal. f_equal. lia.
Qed.

Lemma window_pushes_keep_last (cE : size_t) (rs : list double) :
  forall rl,
    N.of_nat (length rl) <= cE ->
    fold_left (window_push cE) rs rl = keep_last cE (rl ++ rs).
Proof.
  induction rs as [|r rs IH]; intros rl H; cbn [fold_left].
  - rewrite app_nil_r. symmetry. apply keep_last_all. exact H.
  - unfold window_push at 2. cbv zeta.
    rewrite (trimmed_is_keep_last cE rl r H).
    rewrite IH by apply length_keep_last.
    rewrite keep_last_app, <- app_assoc. reflexivity.
Qed.

Section CallsOfTrain.
Context {Act G L : Type} {GA : GymApi G} {AA : AgentApi Act L}.
Variable pack : Act -> mat.
Variable updates : TrainingConfig -> size_t.
Variable period : size_t.
Variable progress_line : size_t -> double -> size_t -> double -> size_t -> line.
Local Abbreviation world := (world Act G L).
Implicit Types w : world.
Implicit Types new : list (event Act).

Local Abbreviation run_episode' := (run_episode pack updates period progress_line).
Local Abbreviation Train' := (Train pack updates period progress_line).
Local Abbreviation episodes_to' := (episodes_to pack updates period progress_line).

Lemma app_eq_self {A : Type} (l new : list A) : l = new ++ l -> new = [].
Proof. intros H. apply (app_inv_tail l). symmetry. exact H. Qed.

(** What a run of completed episodes adds up to. *)
Lemma episodes_to_calls h config cE numSteps w w' :
  episodes_to' h config cE numSteps w w' ->
  forall new,
    trace w' = new ++ trace w ->
    Forall (training_event h) new
    /\ n_resets h new <= n_steps h new
    /\ Deterministic (agent w') = Deterministic (agent w)
    /\ (Deterministic (agent w) = false ->
        TotalSteps (agent w) + n_steps h new < 2 ^ 64 ->
        TotalSteps (agent w') = TotalSteps (agent w) + n_steps h new
        /\ n_updates new
           = updates config
             * steps_from_threshold (TotalSteps (agent w)) (n_steps h new)
                 (ExplorationSteps config))
    /\ (0 < period ->
        episodes w + n_resets h new < 2 ^ 64 ->
        episodes w' = episodes w + n_resets h new
        /\ N.of_nat (length (printed new))
           = multiples_between (episodes w) (n_resets h new) period)
    /\ (exists rs,
          (forall rest, episode_returns h (new ++ rest) []
                        = rs ++ episode_returns h rest [])
          /\ N.of_nat (length rs) = n_resets h new
          /\ returnList w' = fold_left (window_push cE) (rev rs) (returnList w)).
Proof.
  induction 1 as [w|w w1 w2 fuel Hlt Hep Hto IH]; intros new T.
  - apply app_eq_self in T. subst new. cbn [n_steps rewards length n_resets
      n_updates printed app]. rewrite !N.add_0_r.
    split_conj; auto; try reflexivity; try lia.
    + intros _ _. split; [reflexivity|].
      replace (steps_from_threshold _ _ _) with 0
        by (unfold steps_from_threshold, n_steps; cbn [rewards length]; lia).
      lia.
    + intros _ _. split; [reflexivity|].
      unfold multiples_between. rewrite N.add_0_r. lia.
    + exists []. split_conj; reflexivity.
  - destruct (run_episode_spec pack updates period progress_line _ _ _ _ _ _ Hep)
      as (steps & T1 & _).
    cbv zeta in T1. rewrite app_assoc in T1.
    change (?a ++ EvReset h :: trace w) with (a ++ [EvReset h] ++ trace w) in T1.
    rewrite app_assoc in T1.
    match type of T1 with _ = ?n1 ++ trace w => set (new1 := n1) in T1 end.
    destruct (run_episode_calls pack updates period progress_line
                _ _ _ _ _ _ new1 Hep T1)
      as (F1 & R1 & G1 & S1 & E1 & D1 & P1 & U1 & (r1 & Q1 & W1)).
    destruct (episodes_to_spec pack updates period progress_line _ _ _ _ _ _ Hto)
      as (new2 & T2 & _).
    destruct (IH new2 T2) as (F2 & L2 & D2 & SU2 & EP2 & (rs2 & Q2 & Ln2 & W2)).
    assert (new = new2 ++ new1) as ->.
    { apply (app_inv_tail (trace w)). rewrite <- T, T2, T1, app_assoc.
      reflexivity. }
    clearbody new1. clear T T1 T2 steps.
    rewrite n_steps_app, n_resets_app, n_updates_app, printed_app, length_app, R1.
    split_conj.
    + apply Forall_app; split; assumption.
    + lia.
    + congruence.
    + intros Hd Hs.
      assert (Hts : TotalSteps (agent w1)
                    = TotalSteps (agent w) + n_steps h new1).
      { rewrite S1. apply size_wrap_small. lia. }
      destruct (SU2 ltac:(congruence) ltac:(lia)) as (Sa & Sb).
      rewrite Sa, Sb, (U1 Hd ltac:(lia)), Hts. split; [lia|].
      rewrite <- N.mul_add_distr_l. f_equal.
      rewrite (N.add_comm (steps_from_threshold _ _ _)),
        (N.add_comm (n_steps h new2)).
      apply steps_from_threshold_add.
    + intros Hp He.
      assert (Hes : episodes w1 = episodes w + 1).
      { rewrite E1. apply size_wrap_small. lia. }
      destruct (EP2 Hp ltac:(lia)) as (Ea & Eb).
      rewrite Ea, Hes. split; [lia|].
      rewrite Nat2N.inj_add, Eb, P1, Hes.
      replace (size_incr (episodes w)) with (episodes w + 1)
        by (symmetry; apply size_wrap_small; lia).
      rewrite <- (multiples_between_one _ _ Hp).
      rewrite N.add_comm, (N.add_comm (n_resets h new2)).
      apply multiples_between_add.
    + exists (rs2 ++ [r1]). split_conj.
      * intros rest. rewrite <- !app_assoc, Q2, Q1. reflexivity.
      * rewrite length_app. cbn [length]. lia.
      * rewrite rev_app_distr. cbn [rev app fold_left].
        rewrite W2, W1. reflexivity.
Qed.

Lemma episode_returns_last_print h (l : line) new :
  forall pending,
    episode_returns h (new ++ [EvPrint l]) pending
    = episode_returns h new pending.
Proof.
  induction new as [|e new IHe]; intros pending; [reflexivity|].
  destruct e; cbn [app episode_returns];
    repeat match goal with
           | |- context [handle_eqb ?a ?b] => destruct (handle_eqb a b)
           end; rewrite ?IHe; reflexivity.
Qed.

(** The calls of [Train]: its announcement, then completed episodes. *)
Lemma Train_calls fuel h config cE numSteps w w' new :
  Train' fuel h config cE numSteps w = Some w' ->
  trace w' = new ++ trace w ->
  exists eps,
    new = eps ++ [EvPrint [Str "Training for "; Size numSteps; Str " steps."]]
    /\ trace w' = eps ++ trace (Train_entry numSteps w)
    /\ n_steps h new = n_steps h eps
    /\ n_resets h new = n_resets h eps
    /\ n_updates new = n_updates eps
    /\ N.of_nat (length (printed new)) = 1 + N.of_nat (length (printed eps))
    /\ episode_returns h new [] = episode_returns h eps []
    /\ numSteps <= TotalSteps (agent w')
    /\ episodes_to' h config cE numSteps (Train_entry numSteps w) w'.
Proof.
  intros H T. unfold Train in H.
  apply train_loop_spec in H. destruct H as [Hge Hto].
  fold (Train_entry numSteps w) in Hto.
  destruct (episodes_to_spec pack updates period progress_line _ _ _ _ _ _ Hto)
    as (eps & Te & _).
  exists eps.
  assert (new = eps ++ [EvPrint [Str "Training for "; Size numSteps;
                                 Str " steps."]]) as ->.
  { apply (app_inv_tail (trace w)). rewrite <- T, Te, <- app_assoc.
    reflexivity. }
  rewrite n_steps_app, n_resets_app, n_updates_app, printed_app, length_app.
  split_conj; auto.
  - unfold n_steps at 2. cbn. lia.
  - cbn. lia.
  - cbn. lia.
  - cbn [printed length]. lia.
  - apply episode_returns_last_print.
Qed.
End CallsOfTrain.

(** ** Done flags, and the lines of a window of 0 *)

Lemma count_true_repeat_false (k : nat) :
  count_occ bool_dec (repeat false k) true = 0%nat.
Proof. induction k as [|k IH]; [reflexivity|exact IH]. Qed.

Lemma count_true_app (l1 l2 : list bool) :
  count_occ bool_dec (l1 ++ l2) true
  = (count_occ bool_dec l1 true + count_occ bool_dec l2 true)%nat.
Proof. apply count_occ_app. Qed.

Lemma mean_of_none : arithmetic_mean [] = PrimFloat.nan.
Proof. vm_compute. reflexivity. Qed.

Section DonesOfTrain.
Context {Act G L : Type} {GA : GymApi G} {AA : AgentApi Act L}.
Variable pack : Act -> mat.
Variable updates : TrainingConfig -> size_t.
Variable period : size_t.
Variable progress_line : size_t -> double -> size_t -> double -> size_t -> line.
Local Abbreviation world := (world Act G L).
Implicit Types w : world.
Implicit Types new : list (event Act).

Local Abbreviation run_episode' := (run_episode pack updates period progress_line).
Local Abbreviation Train' := (Train pack updates period progress_line).
Local Abbreviation episodes_to' := (episodes_to pack updates period progress_line).

Lemma train_step_dones h config w ret new :
  trace (fst (train_step pack updates h config w ret)) = new ++ trace w ->
  dones h new = [done h (gym (fst (train_step pack updates h config w ret)))]
  /\ map (@tr_isEnd Act) (stores new) = dones h new.
Proof.
  intros T.
  destruct (train_step_spec pack updates h config w ret) as (_ & Htr & Hg & _).
  cbv zeta in Htr, Hg. rewrite T, app_assoc in Htr. apply app_inv_tail in Htr.
  subst new. rewrite Hg.
  set (k := if learns config w then N.to_nat (updates config) else 0%nat).
  destruct (updates_only (Act:=Act) k) as (_ & U2 & U3 & _).
  destruct (step_events_observed pack h w) as (_ & S2 & S3 & _).
  rewrite dones_app, stores_app, U2, U3, S2, S3. split; reflexivity.
Qed.

(** The inner loop stops on the first step that reports done. *)
Lemma episode_loop_dones fuel : forall h config w ret w' ret' new,
  episode_loop pack updates fuel h config w ret = Some (w', ret') ->
  trace w' = new ++ trace w ->
  (exists k, dones h new = true :: repeat false k)
  /\ map (@tr_isEnd Act) (stores new) = dones h new
  /\ done h (gym w') = true.
Proof.
  induction fuel as [|fuel IH]; intros h config w ret w' ret' new H T;
    [discriminate|].
  simpl in H.
  destruct (train_step_events pack updates h config w ret)
    as (new1 & T1 & _).
  pose proof (train_step_dones h config w ret new1 T1) as (D1 & M1).
  destruct (train_step pack updates h config w ret) as [w1 ret1].
  cbn [fst] in T1, D1.
  destruct (done h (gym w1)) eqn:Hd.
  - inversion H; subst w' ret'; clear H.
    rewrite T1 in T. apply app_inv_tail in T. subst new.
    split_conj; [exists 0%nat; exact D1|exact M1|exact Hd].
  - destruct (episode_loop_spec pack updates _ _ _ _ _ _ _ H)
      as (new' & T' & _).
    destruct (IH _ _ _ _ _ _ new' H T') as ((k & D') & M' & Hd').
    rewrite T', T1, app_assoc in T. apply app_inv_tail in T. subst new.
    rewrite dones_app, stores_app, map_app, M', M1, D', D1.
    split_conj; [|reflexivity|exact Hd'].
    exists (S k). cbn [app]. f_equal.
    change (false :: repeat false k) with (repeat false (S k)).
    rewrite <- repeat_cons. reflexivity.
Qed.

(** The parts of an episode's calls: the reset, the steps of the inner
    loop, and the progress line, if one is printed. *)
Lemma run_episode_parts fuel h config cE w w' new :
  run_episode' fuel h config cE w = Some w' ->
  trace w' = new ++ trace w ->
  exists steps pr ret,
    new = pr ++ steps ++ [EvReset h]
    /\ (exists k, dones h steps = true :: repeat false k)
    /\ map (@tr_isEnd Act) (stores steps) = dones h steps
    /\ done h (gym w') = true
    /\ (forall h', dones h' pr = []) /\ stores pr = []
    /\ returnList w' = window_push cE (returnList w) ret
    /\ (forall l, In l (printed new) ->
          l = progress_line (N.of_nat (length (returnList w')))
                (arithmetic_mean (returnList w')) (episodes w') ret
                (TotalSteps (agent w'))).
Proof.
  intros H T. unfold run_episode in H.
  destruct (episode_loop pack updates fuel h config (reset h w) 0%float)
    as [[w1 ret]|] eqn:EL; [|discriminate].
  inversion H; subst w'; clear H.
  destruct (record_return_spec period progress_line cE ret w1)
    as (Hrl & _ & Hg & _ & Htr).
  cbv zeta in Hrl, Hg, Htr.
  destruct (episode_loop_spec pack updates _ _ _ _ _ _ _ EL)
    as (steps & Ts & _ & _ & _ & _ & RL1 & _ & P & _).
  destruct (episode_loop_dones _ _ _ _ _ _ _ steps EL Ts) as (D & M & Hd).
  set (w' := record_return period progress_line cE ret w1) in *.
  set (ln := progress_line (N.of_nat (length (returnList w')))
               (arithmetic_mean (returnList w')) (episodes w') ret
               (TotalSteps (agent w'))) in *.
  set (pr := if episodes w' mod period =? 0 then [EvPrint ln] else [])
    in Htr.
  exists steps, pr, ret.
  assert (Hnew : new = pr ++ steps ++ [EvReset h]).
  { apply (app_inv_tail (trace w)). rewrite <- T, Htr, Ts, <- !app_assoc.
    reflexivity. }
  split_conj; auto.
  - rewrite Hg. exact Hd.
  - intros h'. unfold pr. destruct (_ =? 0); reflexivity.
  - unfold pr. destruct (_ =? 0); reflexivity.
  - rewrite Hrl, RL1. reflexivity.
  - intros l Hl. rewrite Hnew, !printed_app, P in Hl. cbn [printed app] in Hl.
    rewrite app_nil_r in Hl. unfold pr in Hl.
    destruct (_ =? 0) in Hl; cbn [printed] in Hl; [|contradiction].
    destruct Hl as [<-|[]]. reflexivity.
Qed.

Lemma run_episode_dones fuel h config cE w w' new :
  run_episode' fuel h config cE w = Some w' ->
  trace w' = new ++ trace w ->
  count_occ bool_dec (dones h new) true = 1%nat
  /\ map (@tr_isEnd Act) (stores new) = dones h new
  /\ done h (gym w') = true.
Proof.
  intros H T.
  destruct (run_episode_parts _ _ _ _ _ _ _ H T)
    as (steps & pr & ret & -> & (k & D) & M & Hd & Dp & Sp & _).
  rewrite !dones_app, !stores_app, Dp, Sp, !map_app, M, D.
  cbn [app dones stores map]. rewrite !app_nil_r.
  split_conj; auto.
  cbn [count_occ]. destruct (bool_dec true true) as [_|N]; [|congruence].
  rewrite count_true_repeat_false. reflexivity.
Qed.

Lemma episodes_to_dones h config cE numSteps w w' :
  episodes_to' h config cE numSteps w w' ->
  forall new,
    trace w' = new ++ trace w ->
    N.of_nat (count_occ bool_dec (dones h new) true) = n_resets h new
    /\ map (@tr_isEnd Act) (stores new) = dones h new
    /\ (n_steps h new <> 0 -> done h (gym w') = true).
Proof.
  induction 1 as [w|w w1 w2 fuel Hlt Hep Hto IH]; intros new T.
  - apply app_eq_self in T. subst new. split_conj; try reflexivity.
    intros N. exfalso. apply N. reflexivity.
  - destruct (run_episode_spec pack updates period progress_line _ _ _ _ _ _ Hep)
      as (steps & T1 & _).
    cbv zeta in T1. rewrite app_assoc in T1.
    change (?a ++ EvReset h :: trace w) with (a ++ [EvReset h] ++ trace w) in T1.
    rewrite app_assoc in T1.
    match type of T1 with _ = ?n1 ++ trace w => set (new1 := n1) in T1 end.
    destruct (run_episode_dones _ _ _ _ _ _ new1 Hep T1) as (C1 & M1 & Hd1).
    destruct (run_episode_calls pack updates period progress_line
                _ _ _ _ _ _ new1 Hep T1) as (_ & R1 & _).
    destruct (episodes_to_spec pack updates period progress_line _ _ _ _ _ _ Hto)
      as (new2 & T2 & _ & _ & _ & _ & _ & _ & _ & _ & Z2).
    destruct (IH new2 T2) as (C2 & M2 & Hd2).
    assert (new = new2 ++ new1) as ->.
    { apply (app_inv_tail (trace w)). rewrite <- T, T2, T1, app_assoc.
      reflexivity. }
    rewrite dones_app, stores_app, map_app, count_true_app, n_resets_app,
      M1, M2, C1, R1, Nat2N.inj_add, C2.
    split_conj; auto.
    intros _. destruct (N.eq_dec (n_steps h new2) 0) as [Z|NZ].
    + rewrite (Z2 Z). exact Hd1.
    + apply Hd2. exact NZ.
Qed.

(** With a window of 0 the list stays empty and the progress lines show
    no number. *)
Lemma episodes_to_zero_window h config numSteps w w' :
  episodes_to' h config 0 numSteps w w' ->
  forall new,
    trace w' = new ++ trace w ->
    returnList w = [] ->
    returnList w' = []
    /\ forall l, In l (printed new) ->
         exists e r t, l = progress_line 0 PrimFloat.nan e r t.
Proof.
  induction 1 as [w|w w1 w2 fuel Hlt Hep Hto IH]; intros new T Hrl.
  - apply app_eq_self in T. subst new. split; [exact Hrl|].
    intros l [].
  - destruct (run_episode_spec pack updates period progress_line _ _ _ _ _ _ Hep)
      as (steps & T1 & _).
    cbv zeta in T1. rewrite app_assoc in T1.
    change (?a ++ EvReset h :: trace w) with (a ++ [EvReset h] ++ trace w) in T1.
    rewrite app_assoc in T1.
    match type of T1 with _ = ?n1 ++ trace w => set (new1 := n1) in T1 end.
    destruct (run_episode_parts _ _ _ _ _ _ new1 Hep T1)
      as (_ & _ & ret & _ & _ & _ & _ & _ & _ & W1 & P1).
    rewrite Hrl in W1. change (returnList w1 = []) in W1.
    destruct (episodes_to_spec pack updates period progress_line _ _ _ _ _ _ Hto)
      as (new2 & T2 & _).
    destruct (IH new2 T2 W1) as (W2 & P2).
    assert (new = new2 ++ new1) as ->.
    { apply (app_inv_tail (trace w)). rewrite <- T, T2, T1, app_assoc.
      reflexivity. }
    split; [exact W2|].
    intros l Hl. rewrite printed_app in Hl. apply in_app_or in Hl.
    destruct Hl as [Hl|Hl]; [apply P2; exact Hl|].
    apply P1 in Hl. rewrite W1, mean_of_none in Hl. cbn [length N.of_nat] in Hl.
    eauto.
Qed.
End DonesOfTrain.

(** ** Properties of a call of [Train] *)

Section TrainProperties.
Context {Act G L : Type} {GA : GymApi G} {AA : AgentApi Act L}.
Variable pack : Act -> mat.
Variable updates : TrainingConfig -> size_t.
Variable period : size_t.
Variable progress_line : size_t -> double -> size_t -> double -> size_t -> line.
Hypothesis period_pos : 0 < period.
Local Abbreviation world := (world Act G L).
Implicit Types w : world.
Implicit Types new : list (event Act).

Local Abbreviation run_episode' := (run_episode pack updates period progress_line).
Local Abbreviation Train' := (Train pack updates period progress_line).
Local Abbreviation episodes_to' := (episodes_to pack updates period progress_line).

(** Everything the lemmas above say of a call of [Train], on one list of
    new calls. *)
Lemma Train_totals fuel h config cE numSteps w w' :
  Train' fuel h config cE numSteps w = Some w' ->
  exists new eps rs,
    trace w' = new ++ trace w
    /\ new = eps ++ [EvPrint [Str "Training for "; Size numSteps; Str " steps."]]
    /\ Forall (training_event h) new
    /\ n_resets h new <= n_steps h new
    /\ Deterministic (agent w') = false
    /\ numSteps <= TotalSteps (agent w')
    /\ N.of_nat (length (stores new)) = n_steps h new
    /\ (TotalSteps (agent w) + n_steps h new < 2 ^ 64 ->
        TotalSteps (agent w') = TotalSteps (agent w) + n_steps h new
        /\ n_updates new
           = updates config
             * steps_from_threshold (TotalSteps (agent w)) (n_steps h new)
                 (ExplorationSteps config))
    /\ (episodes w + n_resets h new < 2 ^ 64 ->
        episodes w' = episodes w + n_resets h new
        /\ N.of_nat (length (printed new))
           = 1 + multiples_between (episodes w) (n_resets h new) period)
    /\ episode_returns h new [] = rs
    /\ N.of_nat (length rs) = n_resets h new
    /\ returnList w' = fold_left (window_push cE) (rev rs) (returnList w)
    /\ N.of_nat (count_occ bool_dec (dones h new) true) = n_resets h new
    /\ map (@tr_isEnd Act) (stores new) = dones h new
    /\ (n_steps h new <> 0 -> done h (gym w') = true)
    /\ (cE = 0 -> returnList w = [] ->
        forall l, In l (printed eps) ->
          exists e r t, l = progress_line 0 PrimFloat.nan e r t).
Proof.
  intros H.
  assert (Hex : exists new, trace w' = new ++ trace w).
  { unfold Train in H. apply train_loop_spec in H. destruct H as [_ Hto].
    apply episodes_to_spec in Hto. destruct Hto as (eps & Te & _).
    exists (eps ++ [EvPrint [Str "Training for "; Size numSteps;
                             Str " steps."]]).
    rewrite Te, <- app_assoc. reflexivity. }
  destruct Hex as (new & T).
  destruct (Train_calls pack updates period progress_line _ _ _ _ _ _ _ new H T)
    as (eps & Hnew & Te & Hs & Hr & Hu & Hp & Hq & Hge & Hto).
  destruct (episodes_to_calls pack updates period progress_line
              _ _ _ _ _ _ Hto eps Te)
    as (F & Lr & D & SU & EP & (rs & Q & Ln & W)).
  destruct (episodes_to_dones pack updates period progress_line
              _ _ _ _ _ _ Hto eps Te) as (Cd & Md & Hd).
  destruct (episodes_to_spec pack updates period progress_line _ _ _ _ _ _ Hto)
    as (eps' & Te' & _ & _ & _ & _ & St & _).
  assert (eps' = eps) as ->.
  { apply (app_inv_tail (trace (Train_entry numSteps w))).
    rewrite <- Te, <- Te'. reflexivity. }
  change (TotalSteps (agent (Train_entry numSteps w)))
    with (TotalSteps (agent w)) in SU.
  change (episodes (Train_entry numSteps w)) with (episodes w) in EP.
  change (returnList (Train_entry numSteps w)) with (returnList w) in W.
  change (Deterministic (agent (Train_entry numSteps w))) with false in D, SU.
  exists new, eps, rs.
  rewrite Hs, Hr, Hu, Hp, Hq.
  split_conj.
  - exact T.
  - exact Hnew.
  - rewrite Hnew. apply Forall_app. split; [exact F|]. repeat constructor.
  - exact Lr.
  - exact D.
  - exact Hge.
  - rewrite Hnew, stores_app. cbn [stores]. rewrite app_nil_r. exact St.
  - intros HS. destruct (SU eq_refl HS) as (Sa & Sb). split; assumption.
  - intros HE. destruct (EP period_pos HE) as (Ea & Eb).
    split; [exact Ea|]. rewrite Eb. reflexivity.
  - specialize (Q []). rewrite app_nil_r in Q. cbn [episode_returns] in Q.
    rewrite app_nil_r in Q. exact Q.
  - exact Ln.
  - exact W.
  - rewrite Hnew, dones_app. cbn [dones]. rewrite app_nil_r. exact Cd.
  - rewrite Hnew, dones_app, stores_app. cbn [dones stores].
    rewrite !app_nil_r. exact Md.
  - exact Hd.
  - intros -> Hrl.
    apply (episodes_to_zero_window pack updates period progress_line
             _ _ _ _ _ Hto eps Te Hrl).
Qed.

Lemma generic_window_length_rule : window_length_rule Train'.
Proof.
  intros fuel h config cE numSteps w w' H.
  destruct (Train_totals _ _ _ _ _ _ _ H)
    as (new & eps & rs & T & _ & _ & _ & _ & _ & _ & _ & _ & _ & Ln & W & _).
  exists new. split; [exact T|]. cbv zeta.
  rewrite W, window_pushes_length, length_rev, Ln. reflexivity.
Qed.

Lemma generic_window_holds_latest_returns :
  window_holds_latest_returns Train'.
Proof.
  intros fuel h config cE numSteps w w' Hw H.
  destruct (Train_totals _ _ _ _ _ _ _ H)
    as (new & eps & rs & T & _ & _ & _ & _ & _ & _ & _ & _ & Q & Ln & W & _).
  exists new. rewrite Q. split_conj; auto.
  rewrite W. apply window_pushes_keep_last. exact Hw.
Qed.

Lemma generic_zero_window_prints_nan :
  zero_window_prints_nan Train' progress_line.
Proof.
  intros fuel h config numSteps w w' Hrl H.
  destruct (Train_totals _ _ _ _ _ _ _ H)
    as (new & eps & rs & T & Hnew & _ & _ & _ & _ & _ & _ & _ & _ & Ln & W
        & _ & _ & _ & Z).
  exists new. split_conj; auto.
  - rewrite W, Hrl.
    rewrite (window_pushes_keep_last 0 (rev rs) []) by (cbn; lia).
    unfold keep_last. rewrite N.sub_0_r || rewrite Nat.sub_0_r.
    apply skipn_all.
  - intros l Hl. rewrite Hnew, printed_app in Hl. apply in_app_or in Hl.
    destruct Hl as [Hl|Hl].
    + right. apply (Z eq_refl Hrl). exact Hl.
    + left. destruct Hl as [<-|[]]. reflexivity.
Qed.

Lemma generic_progress_lines_counted : progress_lines_counted Train' period.
Proof.
  intros fuel h config cE numSteps w w' H.
  destruct (Train_totals _ _ _ _ _ _ _ H)
    as (new & eps & rs & T & _ & _ & _ & _ & _ & _ & _ & EP & _).
  exists new. split; assumption.
Qed.

Lemma generic_updates_counted : updates_counted Train' updates.
Proof.
  intros fuel h config cE numSteps w w' H.
  destruct (Train_totals _ _ _ _ _ _ _ H)
    as (new & eps & rs & T & _ & _ & _ & _ & _ & _ & SU & _).
  exists new. split; [exact T|]. intros HS. apply SU. exact HS.
Qed.

Lemma generic_Train_calls_confined : Train_calls_confined Train'.
Proof.
  intros fuel h config cE numSteps w w' H.
  destruct (Train_totals _ _ _ _ _ _ _ H)
    as (new & eps & rs & T & _ & F & _).
  destruct (training_events_confined h new F) as (C & K & S).
  exists new. split_conj; auto.
Qed.

Lemma generic_episodes_end_at_done : episodes_end_at_done Train'.
Proof.
  intros fuel h config cE numSteps w w' H.
  destruct (Train_totals _ _ _ _ _ _ _ H)
    as (new & eps & rs & T & _ & _ & _ & _ & _ & _ & _ & _ & _ & _ & _
        & Cd & Md & Hd & _).
  exists new. split_conj; auto.
Qed.

(** Without a done flag the inner loop runs out of any fuel. *)
Lemma episode_loop_needs_done h config :
  (forall g, done h g = false) ->
  forall fuel w ret, episode_loop pack updates fuel h config w ret = None.
Proof.
  intros Hnever. induction fuel as [|fuel IH]; intros w ret; [reflexivity|].
  simpl. destruct (train_step pack updates h config w ret) as [w1 ret1].
  rewrite Hnever. apply IH.
Qed.

Lemma generic_Train_needs_done : Train_needs_done Train'.
Proof.
  clear period_pos.
  intros h config cE numSteps w Hnever Hlt fuel. unfold Train.
  destruct fuel as [|fuel]; [reflexivity|]. simpl.
  destruct (N.ltb_spec (TotalSteps (agent w)) numSteps) as [_|Hge]; [|lia].
  unfold run_episode. rewrite episode_loop_needs_done by exact Hnever.
  reflexivity.
Qed.
End TrainProperties.

(** ** The evaluation blocks *)

Section EvaluationFacts.
Context {Act G L : Type} {GA : GymApi G} {AA : AgentApi Act L}.
Variable pack : Act -> mat.
Local Abbreviation world := (world Act G L).
Implicit Types w : world.
Implicit Types loop : list (event Act).

Lemma evaluation_events_quiet loop :
  Forall evaluation_event loop ->
  n_updates loop = 0 /\ stores loop = [] /\ n_steps env loop = 0
  /\ (forall h, n_resets h loop = 0 /\ n_connects h loop = 0
                /\ n_closes h loop = 0).
Proof.
  induction 1 as [|e loop He _ IH].
  - split_conj; try reflexivity. intros h. split_conj; reflexivity.
  - destruct IH as (U & S & N & R).
    destruct e; cbn [evaluation_event] in He; try contradiction;
      unfold n_steps in *;
      cbn [n_updates stores rewards n_resets n_connects n_closes];
      try (split_conj; assumption).
    subst h. cbn [handle_eqb]. split_conj; assumption.
Qed.

(** The calls of the testing loop, and what it leaves alone. *)
Lemma test_loop_calls fuel : forall w tr ts w' tr' ts',
  test_loop pack fuel w tr ts = Some (w', tr', ts') ->
  exists loop,
    trace w' = loop ++ trace w
    /\ Forall evaluation_event loop
    /\ TotalSteps (agent w') = TotalSteps (agent w)
    /\ Deterministic (agent w') = Deterministic (agent w).
Proof.
  induction fuel as [|fuel IH]; intros w tr ts w' tr' ts' H; [discriminate|].
  rewrite test_loop_step in H. cbv zeta in H.
  destruct (test_pass_spec pack w) as (T & _ & TS & Dt & _).
  cbv zeta in T, TS, Dt.
  assert (Fp : Forall (@evaluation_event Act) (test_events pack w))
    by (unfold test_events; repeat constructor).
  destruct (done envTest (gym (test_pass pack w))).
  - inversion H; subst w' tr' ts'; clear H.
    exists (EvPrint (total_line (size_incr ts)
                       (tr + reward envTest (gym (test_pass pack w)))%float)
              :: test_events pack w).
    split_conj.
    + rewrite <- app_comm_cons, <- T. reflexivity.
    + constructor; [exact I|exact Fp].
    + exact TS.
    + exact Dt.
  - apply IH in H. destruct H as (loop & T' & F' & TS' & Dt').
    exists (loop ++ test_events pack w). split_conj.
    + rewrite T', T, app_assoc. reflexivity.
    + apply Forall_app. split; assumption.
    + congruence.
    + congruence.
Qed.

(** Without a done flag the testing loop runs out of any fuel. *)
Lemma test_loop_needs_done :
  (forall g, done envTest g = false) ->
  forall fuel w tr ts, test_loop pack fuel w tr ts = None.
Proof.
  intros Hnever. induction fuel as [|fuel IH]; intros w tr ts; [reflexivity|].
  rewrite test_loop_step. cbv zeta. rewrite Hnever. apply IH.
Qed.
End EvaluationFacts.

(** ** The two programs *)

Section ProgramTotals.
Context {G L : Type} {GA : GymApi G}.
Context {AL : AgentApi Lander.EnvAction L}.
Context {AC : AgentApi MountainCar.EnvAction L}.

(** Opens an evaluation block: names the world the loop returns and the
    calls of the loop. *)
Ltac open_evaluation H pack loop T F TS D :=
  match type of H with
  | match ?tl _ ?ws _ _ with _ => _ end = _ =>
      let E := fresh "E" in
      let we := fresh "we" in
      destruct (tl _ ws 0%float 0) as [[[we ?] ?]|] eqn:E; [|discriminate];
      inversion H; subst; clear H;
      apply (test_loop_calls pack) in E;
      destruct E as (loop & T & F & TS & D)
  end.

Lemma lander_testing1_detail fuel (w w' : world Lander.EnvAction G L) :
  Lander.testing1 fuel w = Some w' ->
  exists loop,
    trace w' = EvPrint [Str (url envTest (gym w'))] :: loop
               ++ [EvRender envTest; EvReset envTest; EvMonitorStart envTest;
                   EvConnect envTest "localhost" "4040" "LunarLander-v2"]
               ++ trace w
    /\ Forall evaluation_event loop
    /\ TotalSteps (agent w') = TotalSteps (agent w)
    /\ Deterministic (agent w') = true.
Proof.
  intros H. unfold Lander.testing1 in H.
  open_evaluation H Lander.pack loop T F TS D.
  exists loop. split_conj.
  - unfold print, close, log, set_gym. cbn [trace gym]. rewrite T.
    reflexivity.
  - exact F.
  - exact TS.
  - exact D.
Qed.

Lemma lander_testing2_detail fuel (w w' : world Lander.EnvAction G L) :
  Lander.testing2 fuel w = Some w' ->
  exists loop,
    trace w' = EvPrint [Str (url envTest (gym w'))] :: EvClose envTest :: loop
               ++ [EvReset envTest; EvMonitorStart envTest] ++ trace w
    /\ Forall evaluation_event loop
    /\ TotalSteps (agent w') = TotalSteps (agent w)
    /\ Deterministic (agent w') = true.
Proof.
  intros H. unfold Lander.testing2 in H.
  open_evaluation H Lander.pack loop T F TS D.
  exists loop. split_conj.
  - unfold print, close, log, set_gym. cbn [trace gym]. rewrite T.
    reflexivity.
  - exact F.
  - exact TS.
  - exact D.
Qed.

Lemma car_testing_detail fuel (w w' : world MountainCar.EnvAction G L) :
  MountainCar.testing fuel w = Some w' ->
  exists loop,
    trace w' = EvPrint [Str (url envTest (gym w'))] :: EvClose envTest :: loop
               ++ [EvRender envTest; EvReset envTest;
                   EvConnect envTest "localhost" "4040"
                     "MountainCarContinuous-v0"]
               ++ trace w
    /\ Forall evaluation_event loop
    /\ TotalSteps (agent w') = TotalSteps (agent w)
    /\ Deterministic (agent w') = true.
Proof.
  intros H. unfold MountainCar.testing in H.
  open_evaluation H MountainCar.pack loop T F TS D.
  exists loop. split_conj.
  - unfold print, close, log, set_gym. cbn [trace gym]. rewrite T.
    reflexivity.
  - exact F.
  - exact TS.
  - exact D.
Qed.

(** Splits the counts of a list of calls along its parts and evaluates
    them on the calls written out. *)
Ltac tally :=
  unfold n_steps in *;
  repeat first
    [ rewrite n_connects_app | rewrite n_closes_app | rewrite n_resets_app
    | rewrite rewards_app | rewrite n_updates_app | rewrite stores_app
    | rewrite length_app | rewrite Nat2N.inj_add
    | progress cbn [n_connects n_closes n_resets n_updates stores rewards
                    length handle_eqb app] ].

Ltac quiet F :=
  let U := fresh "U" in
  let S := fresh "S" in
  let N := fresh "N" in
  let R := fresh "R" in
  destruct (evaluation_events_quiet _ F) as (U & S & N & R);
  pose proof (fun h => proj1 (R h));
  pose proof (fun h => proj1 (proj2 (R h)));
  pose proof (fun h => proj2 (proj2 (R h))).

Lemma lander_testing1_calls :
  evaluation_calls (G:=G) (L:=L) Lander.testing1 1 0.
Proof.
  intros fuel w w' H.
  destruct (lander_testing1_detail _ _ _ H) as (loop & T & F & _ & D).
  quiet F.
  eexists. split; [rewrite T, app_comm_cons, app_assoc; reflexivity|].
  tally. rewrite ?U, ?S, ?N, ?H0, ?H1, ?H2. split_conj; auto.
Qed.

Lemma lander_testing2_calls :
  evaluation_calls (G:=G) (L:=L) Lander.testing2 0 1.
Proof.
  intros fuel w w' H.
  destruct (lander_testing2_detail _ _ _ H) as (loop & T & F & _ & D).
  quiet F.
  eexists. split; [rewrite T, !app_comm_cons, app_assoc; reflexivity|].
  tally. rewrite ?U, ?S, ?N, ?H0, ?H1, ?H2. split_conj; auto.
Qed.

Lemma car_testing_calls :
  evaluation_calls (G:=G) (L:=L) MountainCar.testing 1 1.
Proof.
  intros fuel w w' H.
  destruct (car_testing_detail _ _ _ H) as (loop & T & F & _ & D).
  quiet F.
  eexists. split; [rewrite T, !app_comm_cons, app_assoc; reflexivity|].
  tally. rewrite ?U, ?S, ?N, ?H0, ?H1, ?H2. split_conj; auto.
Qed.
(** What a call of [Train] on [env] adds to the counts of [main]. *)
Lemma Train_tally {Act : Type} {AA : AgentApi Act L}
    (pack : Act -> mat) (updates : TrainingConfig -> size_t) (period : size_t)
    (progress_line : size_t -> double -> size_t -> double -> size_t -> line)
    fuel config cE numSteps (w w' : world Act G L) :
  0 < period ->
  Train pack updates period progress_line fuel env config cE numSteps w
  = Some w' ->
  exists new,
    trace w' = new ++ trace w
    /\ (forall h, n_connects h new = 0)
    /\ (forall h, n_closes h new = 0)
    /\ n_resets envTest new = 0
    /\ N.of_nat (length (stores new)) = n_steps env new
    /\ numSteps <= TotalSteps (agent w')
    /\ (TotalSteps (agent w) + n_steps env new < 2 ^ 64 ->
        TotalSteps (agent w') = TotalSteps (agent w) + n_steps env new
        /\ n_updates new
           = updates config
             * steps_from_threshold (TotalSteps (agent w)) (n_steps env new)
                 (ExplorationSteps config)).
Proof.
  intros Hp H.
  destruct (Train_totals pack updates period progress_line Hp _ _ _ _ _ _ _ H)
    as (new & eps & rs & T & _ & F & _ & _ & Hge & St & SU & _).
  destruct (training_events_confined env new F) as (C & K & S).
  exists new. split_conj; auto.
  apply (S envTest). discriminate.
Qed.

Lemma lander_main_totals :
  main_totals (G:=G) (L:=L) Lander.main 2 100000 1 100.
Proof.
  intros fuel default w w' H. unfold Lander.main in H.
  destruct (Lander.Train fuel env _ _ 10000 _) as [w1|] eqn:E1;
    [|discriminate].
  destruct (Lander.testing1 fuel w1) as [w2|] eqn:E2; [|discriminate].
  destruct (Lander.Train fuel env _ _ 100000 w2) as [w3|] eqn:E3;
    [|discriminate].
  apply (Train_tally Lander.pack Lander.updates Lander.period
           Lander.progress_line) in E1; [|reflexivity].
  apply (Train_tally Lander.pack Lander.updates Lander.period
           Lander.progress_line) in E3; [|reflexivity].
  destruct E1 as (new1 & T1 & K1 & C1 & R1 & S1 & _ & U1).
  destruct E3 as (new3 & T3 & K3 & C3 & R3 & S3 & B3 & U3).
  destruct (lander_testing1_detail _ _ _ E2) as (loop2 & T2 & F2 & TS2 & _).
  destruct (lander_testing2_detail _ _ _ H) as (loop4 & T4 & F4 & TS4 & _).
  destruct (evaluation_events_quiet _ F2) as (Q2u & Q2s & Q2n & Q2r).
  destruct (evaluation_events_quiet _ F4) as (Q4u & Q4s & Q4n & Q4r).
  change (trace (connect env "localhost" "4040" "LunarLander-v2" w))
    with ([EvConnect env "localhost" "4040" "LunarLander-v2"] ++ trace w)
    in T1.
  change (TotalSteps (agent (connect env "localhost" "4040"
                               "LunarLander-v2" w)))
    with (TotalSteps (agent w)) in U1.
  change (ExplorationSteps (Lander.config default)) with 100 in U1, U3.
  change (Lander.updates (Lander.config default)) with 1 in U1, U3.
  exists (loop4 ++ [EvReset envTest; EvMonitorStart envTest] ++ new3
          ++ (EvPrint [Str (url envTest (gym w2))] :: loop2
                ++ [EvRender envTest; EvReset envTest; EvMonitorStart envTest;
                    EvConnect envTest "localhost" "4040" "LunarLander-v2"])
          ++ new1 ++ [EvConnect env "localhost" "4040" "LunarLander-v2"]).
  split.
  { rewrite T4, T3, T2, T1, <- !app_assoc, <- !app_comm_cons, <- !app_assoc.
    reflexivity. }
  tally.
  rewrite ?K1, ?C1, ?R1, ?K3, ?C3, ?R3, ?Q2u, ?Q2s, ?Q2n, ?Q4u, ?Q4s, ?Q4n,
    ?(proj1 (Q2r _)), ?(proj1 (proj2 (Q2r _))), ?(proj2 (proj2 (Q2r _))),
    ?(proj1 (Q4r _)), ?(proj1 (proj2 (Q4r _))), ?(proj2 (proj2 (Q4r _))).
  cbn [length N.of_nat].
  split_conj; try reflexivity.
  - lia.
  - rewrite TS4. exact B3.
  - intros HS.
    destruct (U1 ltac:(lia)) as (Ua & Ub).
    destruct (U3 ltac:(lia)) as (Uc & Ud).
    rewrite TS4, Uc, TS2, Ua, Ud, Ub, TS2, Ua. split; [lia|].
    unfold steps_from_threshold. lia.
Qed.

Lemma car_main_totals :
  main_totals (G:=G) (L:=L) MountainCar.main 1 10000 1 3200.
Proof.
  intros fuel default w w' H. unfold MountainCar.main in H.
  destruct (MountainCar.Train fuel env _ _ 10000 _) as [w1|] eqn:E1;
    [|discriminate].
  apply (Train_tally MountainCar.pack MountainCar.updates MountainCar.period
           MountainCar.progress_line) in E1; [|reflexivity].
  destruct E1 as (new1 & T1 & K1 & C1 & R1 & S1 & B1 & U1).
  destruct (car_testing_detail _ _ _ H) as (loop2 & T2 & F2 & TS2 & _).
  destruct (evaluation_events_quiet _ F2) as (Q2u & Q2s & Q2n & Q2r).
  change (trace (connect env "localhost" "4040" "MountainCarContinuous-v0" w))
    with ([EvConnect env "localhost" "4040" "MountainCarContinuous-v0"]
          ++ trace w) in T1.
  change (TotalSteps (agent (connect env "localhost" "4040"
                               "MountainCarContinuous-v0" w)))
    with (TotalSteps (agent w)) in U1.
  change (ExplorationSteps (MountainCar.config default)) with 3200 in U1.
  change (MountainCar.updates (MountainCar.config default)) with 1 in U1.
  exists (loop2 ++ [EvRender envTest; EvReset envTest;
                    EvConnect envTest "localhost" "4040"
                      "MountainCarContinuous-v0"]
          ++ new1
          ++ [EvConnect env "localhost" "4040" "MountainCarContinuous-v0"]).
  split.
  { rewrite T2, T1, <- !app_assoc. reflexivity. }
  tally.
  rewrite ?K1, ?C1, ?R1, ?Q2u, ?Q2s, ?Q2n,
    ?(proj1 (Q2r _)), ?(proj1 (proj2 (Q2r _))), ?(proj2 (proj2 (Q2r _))).
  cbn [length N.of_nat].
  split_conj; try reflexivity.
  - lia.
  - rewrite TS2. exact B1.
  - intros HS.
    destruct (U1 ltac:(lia)) as (Ua & Ub).
    rewrite TS2, Ua, Ub. split; [lia|].
    unfold steps_from_threshold. lia.
Qed.

Lemma lander_testing_needs_done :
  testing_needs_done (G:=G) (L:=L) Lander.testing1
  /\ testing_needs_done (G:=G) (L:=L) Lander.testing2.
Proof.
  split; intros w Hnever fuel.
  - unfold Lander.testing1, Lander.test_loop.
    rewrite (test_loop_needs_done Lander.pack Hnever). reflexivity.
  - unfold Lander.testing2, Lander.test_loop.
    rewrite (test_loop_needs_done Lander.pack Hnever). reflexivity.
Qed.

Lemma car_testing_needs_done :
  testing_needs_done (G:=G) (L:=L) MountainCar.testing.
Proof.
  intros w Hnever fuel. unfold MountainCar.testing, MountainCar.test_loop.
  rewrite (test_loop_needs_done MountainCar.pack Hnever). reflexivity.
Qed.
End ProgramTotals.

(** ** Further properties of the two programs *)

Section FurtherProperties.
Context {G L : Type} {GA : GymApi G}.
Context {AL : AgentApi Lander.EnvAction L}.
Context {AC : AgentApi MountainCar.EnvAction L}.

(** X1: in both programs a call of [Train] that runs [k] episodes leaves a
    list of returns that was longer than [consecutiveEpisodes] at its
    length (one entry is pushed and one erased per episode), and makes a
    list within the window [k] entries longer, up to
    [consecutiveEpisodes]. *)
Theorem X1_window_length :
  window_length_rule (G:=G) (L:=L) Lander.Train
  /\ window_length_rule (G:=G) (L:=L) MountainCar.Train.
Proof.
  split; apply generic_window_length_rule; reflexivity.
Qed.

(** X2: in both programs, after a call of [Train] that found the list of
    returns within the window, the list holds the last
    [consecutiveEpisodes] of the returns it held followed by the returns
    of the call's episodes in the order they were run, each the sum, from
    0 and in the order received, of the rewards of the steps between one
    reset and the next. *)
Theorem X2_window_holds_latest_returns :
  window_holds_latest_returns (G:=G) (L:=L) Lander.Train
  /\ window_holds_latest_returns (G:=G) (L:=L) MountainCar.Train.
Proof.
  split; apply generic_window_holds_latest_returns; reflexivity.
Qed.

(** X3: in both programs a call of [Train] with [consecutiveEpisodes = 0]
    on an empty list of returns leaves the list empty, and every progress
    line it prints shows a count of 0 and the average [0.0 / 0], not a
    number. *)
Theorem X3_zero_window_prints_nan :
  zero_window_prints_nan (G:=G) (L:=L) Lander.Train Lander.progress_line
  /\ zero_window_prints_nan (G:=G) (L:=L) MountainCar.Train
       MountainCar.progress_line.
Proof.
  split; apply generic_zero_window_prints_nan; reflexivity.
Qed.

(** X4: a call of [Train] resets its environment once per episode and
    adds the number of episodes to [episodes]; unless that counter wraps
    around, the call prints its announcement and one progress line for
    every multiple of 5 (lander) or 4 (mountain car) the counter
    reaches. *)
Theorem X4_progress_lines_counted :
  progress_lines_counted (G:=G) (L:=L) Lander.Train 5
  /\ progress_lines_counted (G:=G) (L:=L) MountainCar.Train 4.
Proof.
  split; apply generic_progress_lines_counted; reflexivity.
Qed.

(** X5: unless the step counter wraps around, a call of [Train] makes one
    update (lander) or [UpdateInterval] updates (mountain car) for each of
    its steps that leaves the counter at or above [ExplorationSteps], and
    no other update: with a counter at [t] on entry and [n] steps, that is
    [t + n - max t (ExplorationSteps - 1)] steps. *)
Theorem X5_updates_counted :
  updates_counted (G:=G) (L:=L) Lander.Train (fun _ => 1)
  /\ updates_counted (G:=G) (L:=L) MountainCar.Train UpdateInterval.
Proof.
  split.
  - apply (generic_updates_counted Lander.pack Lander.updates Lander.period
             Lander.progress_line). reflexivity.
  - apply (generic_updates_counted MountainCar.pack MountainCar.updates
             MountainCar.period MountainCar.progress_line). reflexivity.
Qed.

(** X6: a call of [Train] on an environment resets and steps that
    environment, selects, stores, updates and prints, and makes no other
    call: it opens and closes no connection, starts no monitor, renders
    nothing, and neither steps nor resets the other environment. *)
Theorem X6_Train_calls_confined :
  Train_calls_confined (G:=G) (L:=L) Lander.Train
  /\ Train_calls_confined (G:=G) (L:=L) MountainCar.Train.
Proof.
  split; apply generic_Train_calls_confined; reflexivity.
Qed.

(** X7: an evaluation block of either [main] makes no update, neither
    steps, resets, opens nor closes the training environment, resets the
    test environment once and ends with the flag on; the lander's first
    block opens the connection to the test environment and leaves it
    open, its second block opens none and closes it, the mountain car's
    block opens and closes it. *)
Theorem X7_evaluation_calls :
  evaluation_calls (G:=G) (L:=L) Lander.testing1 1 0
  /\ evaluation_calls (G:=G) (L:=L) Lander.testing2 0 1
  /\ evaluation_calls (G:=G) (L:=L) MountainCar.testing 1 1.
Proof.
  split_conj.
  - apply lander_testing1_calls.
  - apply lander_testing2_calls.
  - apply car_testing_calls.
Qed.

(** X8: a run of either [main] ends by closing the test environment and
    printing its url; before that it opens one connection per
    environment and closes none, so the training environment is never
    closed; it resets the test environment twice (lander) or once
    (mountain car); it stores one transition per training step and none
    for a test step; it ends with at least 100000 (lander) or 10000
    (mountain car) steps counted; and, unless the counter wraps around,
    the counter grows by the training steps and one update is made for
    each training step that leaves it at or above 100 (lander) or 3200
    (mountain car). *)
Theorem X8_main_totals :
  main_totals (G:=G) (L:=L) Lander.main 2 100000 1 100
  /\ main_totals (G:=G) (L:=L) MountainCar.main 1 10000 1 3200.
Proof.
  split.
  - apply lander_main_totals.
  - apply car_main_totals.
Qed.

(** X9: within a call of [Train] the environment reports done exactly
    once per episode, the flag stored with each transition is the flag
    the step reported, and a call that made a step returns with the
    environment reporting done. *)
Theorem X9_episodes_end_at_done :
  episodes_end_at_done (G:=G) (L:=L) Lander.Train
  /\ episodes_end_at_done (G:=G) (L:=L) MountainCar.Train.
Proof.
  split; apply generic_episodes_end_at_done; reflexivity.
Qed.

(** X10: [Train] has no bound on the steps of an episode: if the
    environment never reports done, a call that finds the step counter
    below [numSteps] does not return, whatever the fuel. *)
Theorem X10_Train_needs_done :
  Train_needs_done (G:=G) (L:=L) Lander.Train
  /\ Train_needs_done (G:=G) (L:=L) MountainCar.Train.
Proof.
  split; apply generic_Train_needs_done.
Qed.

(** X11: the testing loops have no bound either: if the test environment
    never reports done, no evaluation block returns, and so neither
    [main] does, whatever the fuel. *)
Theorem X11_testing_needs_done :
  testing_needs_done (G:=G) (L:=L) Lander.testing1
  /\ testing_needs_done (G:=G) (L:=L) Lander.testing2
  /\ testing_needs_done (G:=G) (L:=L) MountainCar.testing
  /\ (forall default,
        testing_needs_done (G:=G) (L:=L)
          (fun fuel => Lander.main fuel default))
  /\ (forall default,
        testing_needs_done (G:=G) (L:=L)
          (fun fuel => MountainCar.main fuel default)).
Proof.
  destruct lander_testing_needs_done as (H1 & H2).
  pose proof car_testing_needs_done as H3.
  split_conj; auto.
  - intros default w Hnever fuel. unfold Lander.main.
    destruct (Lander.Train fuel env _ _ 10000 _) as [w1|]; [|reflexivity].
    rewrite (H1 w1 Hnever). reflexivity.
  - intros default w Hnever fuel. unfold MountainCar.main.
    destruct (MountainCar.Train fuel env _ _ 10000 _) as [w1|]; [|reflexivity].
    apply (H3 w1 Hnever).
Qed.
End FurtherProperties.

(** ** The further properties on the small collaborators *)

(** X1 on the lander against two-step episodes, with a window of 1 and a
    budget of 7: four episodes, one return kept. *)
Lemma X1_witness :
  let w := Toy.lander_start in
  let w' := Toy.result (Toy.lander_Train_fn 100 env Toy.lander_config 1 7 w)
              w in
  Toy.lander_Train_fn 100 env Toy.lander_config 1 7 w = Some w'
  /\ n_resets env (trace w') = 4
  /\ N.of_nat (length (returnList w')) = N.min 1 (n_resets env (trace w')).
Proof.
  cbv zeta.
  assert (Hrun : Toy.lander_Train_fn 100 env Toy.lander_config 1 7
                   Toy.lander_start
                 = Some (Toy.result
                           (Toy.lander_Train_fn 100 env Toy.lander_config 1 7
                              Toy.lander_start) Toy.lander_start))
    by (vm_compute; reflexivity).
  split; [exact Hrun|]. split; [vm_compute; reflexivity|].
  destruct (proj1 (@X1_window_length Toy.sim N GA2 AL2 AC2) _ _ _ _ _ _ _ Hrun)
    as (new & T & Hlen).
  change (trace Toy.lander_start) with (@nil (event Lander.EnvAction)) in T.
  rewrite app_nil_r in T. rewrite <- T in Hlen. exact Hlen.
Defined.

(** X2 on the same run: the list holds the return of the last episode. *)
Lemma X2_witness :
  let w := Toy.lander_start in
  let w' := Toy.result (Toy.lander_Train_fn 100 env Toy.lander_config 1 7 w)
              w in
  window_ok 1 w
  /\ Toy.lander_Train_fn 100 env Toy.lander_config 1 7 w = Some w'
  /\ episode_returns env (trace w') [] = [3; 3; 3; 3]%float
  /\ returnList w'
     = keep_last 1 (rev (episode_returns env (trace w') [])).
Proof.
  cbv zeta.
  assert (Hok : window_ok 1 Toy.lander_start) by (vm_compute; discriminate).
  assert (Hrun : Toy.lander_Train_fn 100 env Toy.lander_config 1 7
                   Toy.lander_start
                 = Some (Toy.result
                           (Toy.lander_Train_fn 100 env Toy.lander_config 1 7
                              Toy.lander_start) Toy.lander_start))
    by (vm_compute; reflexivity).
  split; [exact Hok|]. split; [exact Hrun|].
  split; [vm_compute; reflexivity|].
  destruct (proj1 (@X2_window_holds_latest_returns Toy.sim N GA2 AL2 AC2)
              _ _ _ _ _ _ _ Hok Hrun) as (new & T & _ & Hrl).
  change (trace Toy.lander_start) with (@nil (event Lander.EnvAction)) in T.
  rewrite app_nil_r in T. rewrite <- T in Hrl.
  change (returnList Toy.lander_start) with (@nil double) in Hrl.
  rewrite app_nil_l in Hrl. exact Hrl.
Defined.

(** X3 on the lander against two-step episodes, with a window of 0 and a
    budget of 11: the fifth episode prints a line with count 0 and
    average nan. *)
Lemma X3_witness :
  let w := Toy.lander_start in
  let w' := Toy.result (Toy.lander_Train_fn 100 env Toy.lander_config 0 11 w)
              w in
  returnList w = []
  /\ Toy.lander_Train_fn 100 env Toy.lander_config 0 11 w = Some w'
  /\ In (Lander.progress_line 0 PrimFloat.nan 5 3%float 10)
        (printed (trace w'))
  /\ returnList w' = []
  /\ forall l, In l (printed (trace w')) ->
       l = [Str "Training for "; Size 11; Str " steps."]
       \/ exists e r t, l = Lander.progress_line 0 PrimFloat.nan e r t.
Proof.
  cbv zeta.
  assert (Hrun : Toy.lander_Train_fn 100 env Toy.lander_config 0 11
                   Toy.lander_start
                 = Some (Toy.result
                           (Toy.lander_Train_fn 100 env Toy.lander_config 0 11
                              Toy.lander_start) Toy.lander_start))
    by (vm_compute; reflexivity).
  assert (Hempty : returnList Toy.lander_start = []) by reflexivity.
  split; [exact Hempty|]. split; [exact Hrun|].
  split; [vm_compute; left; reflexivity|].
  destruct (proj1 (@X3_zero_window_prints_nan Toy.sim N GA2 AL2 AC2)
              _ _ _ _ _ _ Hempty Hrun) as (new & T & Hrl & Hl).
  change (trace Toy.lander_start) with (@nil (event Lander.EnvAction)) in T.
  rewrite app_nil_r in T. rewrite <- T in Hl. split; [exact Hrl|exact Hl].
Defined.

(** X4 on the lander against two-step episodes with a budget of 104: 52
    episodes, the announcement and 10 progress lines. *)
Lemma X4_witness :
  let w := Toy.lander_start in
  let w' := Toy.result (Toy.lander_Train 104 w) w in
  Toy.lander_Train 104 w = Some w'
  /\ episodes w + n_resets env (trace w') < 2 ^ 64
  /\ episodes w' = episodes w + n_resets env (trace w')
  /\ N.of_nat (length (printed (trace w')))
     = 1 + multiples_between (episodes w) (n_resets env (trace w')) 5.
Proof.
  cbv zeta.
  assert (Hrun : Toy.lander_Train 104 Toy.lander_start
                 = Some (Toy.result (Toy.lander_Train 104 Toy.lander_start)
                           Toy.lander_start))
    by (vm_compute; reflexivity).
  assert (Hlt : episodes Toy.lander_start
                + n_resets env
                    (trace (Toy.result (Toy.lander_Train 104 Toy.lander_start)
                              Toy.lander_start)) < 2 ^ 64)
    by (vm_compute; reflexivity).
  split; [exact Hrun|]. split; [exact Hlt|].
  destruct (proj1 (@X4_progress_lines_counted Toy.sim N GA2 AL2 AC2)
              _ _ _ _ _ _ _ Hrun) as (new & T & Hp).
  change (trace Toy.lander_start) with (@nil (event Lander.EnvAction)) in T.
  rewrite app_nil_r in T. rewrite <- T in Hp. exact (Hp Hlt).
Defined.

(** X5 on the same run: 104 steps from a counter at 0 with a threshold of
    100, so 5 updates. *)
Lemma X5_witness :
  let w := Toy.lander_start in
  let w' := Toy.result (Toy.lander_Train 104 w) w in
  Toy.lander_Train 104 w = Some w'
  /\ TotalSteps (agent w) + n_steps env (trace w') < 2 ^ 64
  /\ steps_from_threshold 0 (n_steps env (trace w')) 100 = 5
  /\ n_updates (trace w')
     = 1 * steps_from_threshold (TotalSteps (agent w))
             (n_steps env (trace w')) (ExplorationSteps Toy.lander_config).
Proof.
  cbv zeta.
  assert (Hrun : Toy.lander_Train 104 Toy.lander_start
                 = Some (Toy.result (Toy.lander_Train 104 Toy.lander_start)
                           Toy.lander_start))
    by (vm_compute; reflexivity).
  assert (Hlt : TotalSteps (agent Toy.lander_start)
                + n_steps env
                    (trace (Toy.result (Toy.lander_Train 104 Toy.lander_start)
                              Toy.lander_start)) < 2 ^ 64)
    by (vm_compute; reflexivity).
  split; [exact Hrun|]. split; [exact Hlt|].
  split; [vm_compute; reflexivity|].
  destruct (proj1 (@X5_updates_counted Toy.sim N GA2 AL2 AC2)
              _ _ _ _ _ _ _ Hrun) as (new & T & Hu).
  change (trace Toy.lander_start) with (@nil (event Lander.EnvAction)) in T.
  rewrite app_nil_r in T. rewrite <- T in Hu. exact (Hu Hlt).
Defined.

(** X6 on the lander against two-step episodes with a budget of 3. *)
Lemma X6_witness :
  let w := Toy.lander_start in
  let w' := Toy.result (Toy.lander_Train 3 w) w in
  Toy.lander_Train 3 w = Some w'
  /\ Forall (training_event env) (trace w')
  /\ n_steps envTest (trace w') = 0.
Proof.
  cbv zeta.
  assert (Hrun : Toy.lander_Train 3 Toy.lander_start
                 = Some (Toy.result (Toy.lander_Train 3 Toy.lander_start)
                           Toy.lander_start))
    by (vm_compute; reflexivity).
  split; [exact Hrun|].
  destruct (proj1 (@X6_Train_calls_confined Toy.sim N GA2 AL2 AC2)
              _ _ _ _ _ _ _ Hrun) as (new & T & F & _ & S).
  change (trace Toy.lander_start) with (@nil (event Lander.EnvAction)) in T.
  rewrite app_nil_r in T. rewrite <- T in F, S.
  split; [exact F|]. apply (S envTest). discriminate.
Defined.

(** X7 on the lander's first evaluation against two-step episodes. *)
Lemma X7_witness :
  let w := Toy.lander_start in
  let w' := Toy.result (Lander.testing1 (GA:=GA2) (AA:=AL2) 5 w) w in
  Lander.testing1 (GA:=GA2) (AA:=AL2) 5 w = Some w'
  /\ n_updates (trace w') = 0
  /\ n_steps env (trace w') = 0
  /\ n_connects envTest (trace w') = 1
  /\ n_closes envTest (trace w') = 0.
Proof.
  cbv zeta.
  assert (Hrun : Lander.testing1 (GA:=GA2) (AA:=AL2) 5 Toy.lander_start
                 = Some (Toy.result
                           (Lander.testing1 (GA:=GA2) (AA:=AL2) 5
                              Toy.lander_start) Toy.lander_start))
    by (vm_compute; reflexivity).
  split; [exact Hrun|].
  destruct (proj1 (@X7_evaluation_calls Toy.sim N GA2 AL2 AC2) _ _ _ Hrun)
    as (new & T & U & S & _ & _ & _ & _ & K & C & _).
  change (trace Toy.lander_start) with (@nil (event Lander.EnvAction)) in T.
  rewrite app_nil_r in T. rewrite <- T in U, S, K, C.
  split_conj; assumption.
Defined.

(** X8 on the lander's [main] against two-step episodes, from a world
    whose agent has already counted 99997 steps: four training steps, four
    updates. *)
Lemma X8_witness :
  let w := Toy.lander_late in
  let w' := Toy.result (Lander.main (GA:=GA2) (AA:=AL2) 5 Toy.default_config
                          w) w in
  Lander.main (GA:=GA2) (AA:=AL2) 5 Toy.default_config w = Some w'
  /\ TotalSteps (agent w) + n_steps env (tl (tl (trace w'))) < 2 ^ 64
  /\ n_closes envTest (tl (tl (trace w'))) = 0
  /\ n_closes env (trace w') = 0
  /\ n_steps env (trace w') = 4
  /\ n_updates (tl (tl (trace w')))
     = 1 * steps_from_threshold (TotalSteps (agent w))
             (n_steps env (tl (tl (trace w')))) 100.
Proof.
  cbv zeta.
  assert (Hrun : Lander.main (GA:=GA2) (AA:=AL2) 5 Toy.default_config
                   Toy.lander_late
                 = Some (Toy.result
                           (Lander.main (GA:=GA2) (AA:=AL2) 5
                              Toy.default_config Toy.lander_late)
                           Toy.lander_late))
    by (vm_compute; reflexivity).
  assert (Hlt : TotalSteps (agent Toy.lander_late)
                + n_steps env
                    (tl (tl (trace (Toy.result
                                      (Lander.main (GA:=GA2) (AA:=AL2) 5
                                         Toy.default_config Toy.lander_late)
                                      Toy.lander_late)))) < 2 ^ 64)
    by (vm_compute; reflexivity).
  split; [exact Hrun|]. split; [exact Hlt|].
  destruct (proj1 (@X8_main_totals Toy.sim N GA2 AL2 AC2) _ _ _ _ Hrun)
    as (new & T & _ & _ & Ce & Ct & _ & _ & _ & Hu).
  change (trace Toy.lander_late) with (@nil (event Lander.EnvAction)) in T.
  rewrite app_nil_r in T.
  assert (Hnew : tl (tl (trace (Toy.result
                                  (Lander.main (GA:=GA2) (AA:=AL2) 5
                                     Toy.default_config Toy.lander_late)
                                  Toy.lander_late))) = new)
    by (rewrite T; reflexivity).
  rewrite <- Hnew in Ct, Hu.
  split; [exact Ct|].
  split; [vm_compute; reflexivity|].
  split; [vm_compute; reflexivity|].
  exact (proj2 (Hu Hlt)).
Defined.

(** X9 on the lander against two-step episodes with a budget of 3: two
    episodes, two steps that report done. *)
Lemma X9_witness :
  let w := Toy.lander_start in
  let w' := Toy.result (Toy.lander_Train 3 w) w in
  Toy.lander_Train 3 w = Some w'
  /\ n_steps env (trace w') <> 0
  /\ dones env (trace w') = [true; false; true; false]
  /\ map (@tr_isEnd Lander.EnvAction) (stores (trace w'))
     = dones env (trace w')
  /\ done (GymApi:=GA2) env (gym w') = true.
Proof.
  cbv zeta.
  assert (Hrun : Toy.lander_Train 3 Toy.lander_start
                 = Some (Toy.result (Toy.lander_Train 3 Toy.lander_start)
                           Toy.lander_start))
    by (vm_compute; reflexivity).
  assert (Hne : n_steps env
                  (trace (Toy.result (Toy.lander_Train 3 Toy.lander_start)
                            Toy.lander_start)) <> 0)
    by (vm_compute; discriminate).
  split; [exact Hrun|]. split; [exact Hne|].
  split; [vm_compute; reflexivity|].
  destruct (proj1 (@X9_episodes_end_at_done Toy.sim N GA2 AL2 AC2)
              _ _ _ _ _ _ _ Hrun) as (new & T & _ & M & Hd).
  change (trace Toy.lander_start) with (@nil (event Lander.EnvAction)) in T.
  rewrite app_nil_r in T. rewrite <- T in M, Hd.
  split; [exact M|exact (Hd Hne)].
Defined.

(** X10 on the lander against the simulator that never reports done. *)
Lemma X10_witness :
  (forall g, done (GymApi:=Endless.api) env g = false)
  /\ TotalSteps (agent Toy.lander_start) < 3
  /\ forall fuel,
       Lander.Train (GA:=Endless.api) (AA:=AL2) fuel env Toy.lander_config 50
         3 Toy.lander_start = None.
Proof.
  assert (Hnever : forall g, done (GymApi:=Endless.api) env g = false)
    by (intros g; reflexivity).
  assert (Hlt : TotalSteps (agent Toy.lander_start) < 3) by reflexivity.
  split; [exact Hnever|]. split; [exact Hlt|].
  exact (proj1 (@X10_Train_needs_done Toy.sim N Endless.api AL2 AC2)
           env Toy.lander_config 50 3 Toy.lander_start Hnever Hlt).
Defined.

(** X11 on the mountain car's [main] against the simulator that never
    reports done. *)
Lemma X11_witness :
  (forall g, done (GymApi:=Endless.api) envTest g = false)
  /\ forall fuel,
       MountainCar.main (GA:=Endless.api) (AA:=AC2) fuel Toy.default_config
         (Toy.car_start 0.5%float) = None.
Proof.
  assert (Hnever : forall g, done (GymApi:=Endless.api) envTest g = false)
    by (intros g; reflexivity).
  split; [exact Hnever|].
  destruct (@X11_testing_needs_done Toy.sim N Endless.api AL2 AC2)
    as (_ & _ & _ & _ & Hmain).
  exact (Hmain Toy.default_config (Toy.car_start 0.5%float) Hnever).
Defined.
